(** * The Ring debugger relay (mockDebug.ts), embedded in Rocq

    The debug adapter of the Ring VS Code extension sits between a DAP
    client (the editor) and the [ring --interpreter=dap rdb] backend.  This
    development embeds the session class [MockDebugSession] as state-passing
    functions over an explicit [Session] record and proves the properties
    that the specification states about the relay.

    Conventions.
    - A JavaScript string is a Rocq [string]: the sequence of bytes the text
      has on the pipe to the backend.  The embedding is exact on ASCII text.
    - A JavaScript number is kept as the exact decimal that was written
      ([number]); the rounding of IEEE doubles is not modelled, so the
      embedding is exact on the integers and short decimals that the protocol
      exchanges.
    - [console.log] and the logger have no effect on the client or on the
      backend and are left out.
    - What the adapter hands to the library ([sendEvent], [sendResponse],
      [sendErrorResponse]) and what it writes to the standard input of the
      backend are recorded, in order, in the session. *)

From Stdlib Require Import ZArith String Ascii List Bool Lia.
From Stdlib Require Import DecimalString HexadecimalString.
From Stdlib Require DecimalPos DecimalFacts.
From Stdlib.Strings Require Import Byte.
From stdpp Require Import gmap strings.
Import ListNotations.

Open Scope string_scope.
Open Scope Z_scope.

(** ** Characters and strings *)

Module Js.

Definition LF : ascii := "010"%char.
Definition DQ : ascii := "034"%char.
Definition SQ : ascii := "039"%char.
Definition BACKSLASH : ascii := "092"%char.

Definition code (c : ascii) : N := N_of_ascii c.

Definition is_digit (c : ascii) : bool :=
  ((48 <=? code c) && (code c <=? 57))%N.

Definition is_alpha (c : ascii) : bool :=
  (((65 <=? code c) && (code c <=? 90)) || ((97 <=? code c) && (code c <=? 122)))%N.

Definition digit_value (c : ascii) : Z := Z.of_N (code c) - 48.

(** Replaces every apostrophe by a double quote, so that JSON text can be
    written down readably: [json_text "{'seq':1}"] is the text
    [{"seq":1}]. *)
Fixpoint json_text (s : string) : string :=
  match s with
  | EmptyString => EmptyString
  | String c r => String (if Ascii.eqb c SQ then DQ else c) (json_text r)
  end.

Definition str1 (c : ascii) : string := String c EmptyString.

(** [s.length] *)
Definition str_length (s : string) : Z := Z.of_nat (String.length s).

(** [s[i]]: the character at index [i], or [undefined]. *)
Definition char_at (s : string) (i : nat) : option ascii := String.get i s.

(** [s.startsWith(p)] *)
Definition startsWith (p s : string) : bool := String.prefix p s.

(** [s.substr(start)] for a start that is not negative. *)
Fixpoint substr_from (start : nat) (s : string) : string :=
  match start, s with
  | O, _ => s
  | S n, EmptyString => EmptyString
  | S n, String _ r => substr_from n r
  end.

(** [s.substr(start, len)] for a start that is not negative; a length that
    is zero or negative gives the empty string. *)
Definition substr (start : nat) (len : Z) (s : string) : string :=
  if len <=? 0 then EmptyString else String.substring start (Z.to_nat len) s.

(** [s.split(sep)] for a separator of one character. *)
Fixpoint split (sep : ascii) (s : string) : list string :=
  match s with
  | EmptyString => [EmptyString]
  | String c r =>
      if Ascii.eqb c sep then EmptyString :: split sep r
      else match split sep r with
           | h :: t => String c h :: t
           | [] => [str1 c]
           end
  end.

(** White space and line terminators of ECMAScript, as far as they are
    single bytes: TAB, LF, VT, FF, CR and SPACE. *)
Definition is_space (c : ascii) : bool :=
  ((code c =? 9) || (code c =? 10) || (code c =? 11) || (code c =? 12)
   || (code c =? 13) || (code c =? 32))%N.

Fixpoint trim_start (s : string) : string :=
  match s with
  | EmptyString => EmptyString
  | String c r => if is_space c then trim_start r else s
  end.

(** Drops trailing white space: the result is empty exactly when the whole
    string is white space. *)
Fixpoint trim_end (s : string) : string :=
  match s with
  | EmptyString => EmptyString
  | String c r =>
      match trim_end r with
      | EmptyString => if is_space c then EmptyString else str1 c
      | r' => String c r'
      end
  end.

(** [s.trim()] *)
Definition trim (s : string) : string := trim_end (trim_start s).

(** The longest prefix of decimal digits, and what follows it. *)
Fixpoint span_digits (s : string) : string * string :=
  match s with
  | EmptyString => (EmptyString, EmptyString)
  | String c r =>
      if is_digit c then let '(d, rest) := span_digits r in (String c d, rest)
      else (EmptyString, s)
  end.

Fixpoint digits_value_from (acc : Z) (s : string) : Z :=
  match s with
  | EmptyString => acc
  | String c r => digits_value_from (10 * acc + digit_value c) r
  end.

(** The value of a string of decimal digits. *)
Definition digits_value (s : string) : Z := digits_value_from 0 s.

Definition Z_to_string (z : Z) : string :=
  DecimalString.NilZero.string_of_int (Z.to_int z).

Definition Z_to_hex (z : Z) : string :=
  HexadecimalString.NilZero.string_of_int (Z.to_hex_int z).

(** ** Numbers *)

(** A number is an integer, a decimal fraction [m / 10^scale] whose
    mantissa is not a multiple of ten, or an infinity. *)
Inductive number :=
| Int (z : Z)
| Dec (m : Z) (scale : positive)
| Infinity (negative : bool).

(** [m / 10^scale], brought to its normal form. *)
Fixpoint strip10 (scale : nat) (m : Z) : number :=
  match scale with
  | O => Int m
  | S k => if m mod 10 =? 0 then strip10 k (m / 10) else Dec m (Pos.of_nat scale)
  end.

(** The number written as sign, integer digits, fraction digits and a
    decimal exponent. *)
Definition decimal_value (neg : bool) (ip fp : string) (e : Z) : number :=
  let m := digits_value (ip +:+ fp) in
  let m := if neg then - m else m in
  let e := e - str_length fp in
  if 0 <=? e then Int (m * 10 ^ e) else strip10 (Z.to_nat (- e)) m.

(** [x === 0] *)
Definition is_zero (x : number) : bool :=
  match x with Int 0 => true | _ => false end.

(** [Math.round(x) === x] *)
Definition is_integral (x : number) : bool :=
  match x with Dec _ _ => false | _ => true end.

Fixpoint zeros (n : nat) : string :=
  match n with O => EmptyString | S k => String "0" (zeros k) end.

(** Positional rendering of [m / 10^scale]. *)
Definition Dec_to_string (m : Z) (scale : positive) : string :=
  let ds := Z_to_string (Z.abs m) in
  let k := Pos.to_nat scale in
  let ds := zeros (S k - String.length ds) +:+ ds in
  let n := (String.length ds - k)%nat in
  (if m <? 0 then "-" else "") +:+ String.substring 0 n ds +:+ "."
    +:+ substr_from n ds.

(** [x.toString(radix)] for the radices 10 and 16 that the adapter uses.
    Fractions are rendered positionally in base ten; the adapter asks for
    base 16 on integral values only (see [convertFromRuntime]). *)
Definition toString (radix : Z) (x : number) : string :=
  match x with
  | Int z => if radix =? 16 then Z_to_hex z else Z_to_string z
  | Dec m scale => Dec_to_string m scale
  | Infinity neg => if neg then "-Infinity" else "Infinity"
  end.

End Js.

Import Js.

(** ** JSON values *)

Module Json.

#[local] Set Warnings "-register-all".

Inductive json :=
| JNull
| JBool (b : bool)
| JNumber (n : number)
| JString (s : string)
| JArray (items : list json)
| JObject (fields : list (string * json)).

(** [o[k]] on the fields of an object; [None] is [undefined]. *)
Fixpoint lookup_field (k : string) (fields : list (string * json)) : option json :=
  match fields with
  | [] => None
  | (k', v) :: rest => if String.eqb k k' then Some v else lookup_field k rest
  end.

(** [o[k] = v] on the fields of an object: an existing property keeps its
    place, a new one goes to the end. *)
Fixpoint assign_field (k : string) (v : json) (fields : list (string * json))
  : list (string * json) :=
  match fields with
  | [] => [(k, v)]
  | (k', v') :: rest =>
      if String.eqb k k' then (k, v) :: rest else (k', v') :: assign_field k v rest
  end.

(** *** Lexical analysis *)

Inductive token :=
| TLBrace | TRBrace | TLBrack | TRBrack | TColon | TComma
| TScalar (v : json).

(** JSON white space: SPACE, TAB, LF and CR. *)
Definition is_json_ws (c : ascii) : bool :=
  ((code c =? 32) || (code c =? 9) || (code c =? 10) || (code c =? 13))%N.

(** The characters of numbers and of the literals [true], [false] and
    [null].  A maximal run of them is one word: JSON has no two such tokens
    next to each other. *)
Definition is_word_char (c : ascii) : bool :=
  is_digit c || is_alpha c || Ascii.eqb c "+" || Ascii.eqb c "-" || Ascii.eqb c ".".

Definition hex_value (c : ascii) : option N :=
  let n := code c in
  if ((48 <=? n) && (n <=? 57))%N then Some (n - 48)%N
  else if ((65 <=? n) && (n <=? 70))%N then Some (n - 55)%N
  else if ((97 <=? n) && (n <=? 102))%N then Some (n - 87)%N
  else None.

(** The UTF-8 bytes of a code unit, last byte first. *)
Definition utf8_rev (u : N) : list ascii :=
  if (u <? 128)%N then [ascii_of_N u]
  else if (u <? 2048)%N then
    [ascii_of_N (128 + u mod 64); ascii_of_N (192 + u / 64)]
  else
    [ascii_of_N (128 + u mod 64); ascii_of_N (128 + (u / 64) mod 64);
     ascii_of_N (224 + u / 4096)].

Definition string_of_rev (buf : list ascii) : string :=
  string_of_list_ascii (rev buf).

(** The grammar of a JSON number: an optional minus sign; a zero, or a
    digit that is not zero and any digits after it; optionally a point and
    one digit or more; optionally [e] or [E], an optional sign and one digit
    or more. *)
Definition exponent_of (s : string) : option Z :=
  match s with
  | EmptyString => Some 0
  | String c r =>
      if Ascii.eqb c "e" || Ascii.eqb c "E" then
        let '(neg, r) :=
          match r with
          | String "-" r' => (true, r')
          | String "+" r' => (false, r')
          | _ => (false, r)
          end in
        match span_digits r with
        | (String d ds, EmptyString) =>
            let e := digits_value (String d ds) in Some (if neg then - e else e)
        | _ => None
        end
      else None
  end.

Definition number_of_word (w : string) : option number :=
  let '(neg, w) := match w with String "-" r => (true, r) | _ => (false, w) end in
  let '(ip, rest) := span_digits w in
  match ip with
  | EmptyString => None
  | String d ds =>
      if Ascii.eqb d "0" && negb (String.eqb ds EmptyString) then None
      else
        match rest with
        | String "." r =>
            match span_digits r with
            | (EmptyString, _) => None
            | (fp, rest') =>
                option_map (decimal_value neg ip fp) (exponent_of rest')
            end
        | _ => option_map (decimal_value neg ip EmptyString) (exponent_of rest)
        end
  end.

Definition word_token (buf : list ascii) : option token :=
  let w := string_of_rev buf in
  if String.eqb w "true" then Some (TScalar (JBool true))
  else if String.eqb w "false" then Some (TScalar (JBool false))
  else if String.eqb w "null" then Some (TScalar JNull)
  else option_map (fun n => TScalar (JNumber n)) (number_of_word w).

Inductive lex_state :=
| LStart
| LWord (buf : list ascii)
| LString (buf : list ascii)
| LEscape (buf : list ascii)
| LUnicode (buf : list ascii) (digits : list N).

Inductive start_action :=
| SSkip | SEmit (t : token) | SString | SWord | SBad.

Definition start_char (c : ascii) : start_action :=
  if is_json_ws c then SSkip
  else if Ascii.eqb c "{" then SEmit TLBrace
  else if Ascii.eqb c "}" then SEmit TRBrace
  else if Ascii.eqb c "[" then SEmit TLBrack
  else if Ascii.eqb c "]" then SEmit TRBrack
  else if Ascii.eqb c ":" then SEmit TColon
  else if Ascii.eqb c "," then SEmit TComma
  else if Ascii.eqb c DQ then SString
  else if is_word_char c then SWord
  else SBad.

(** The character that a one-letter escape stands for. *)
Definition escape_char (c : ascii) : option ascii :=
  if Ascii.eqb c DQ then Some DQ
  else if Ascii.eqb c BACKSLASH then Some BACKSLASH
  else if Ascii.eqb c "/" then Some "/"%char
  else if Ascii.eqb c "b" then Some "008"%char
  else if Ascii.eqb c "f" then Some "012"%char
  else if Ascii.eqb c "n" then Some "010"%char
  else if Ascii.eqb c "r" then Some "013"%char
  else if Ascii.eqb c "t" then Some "009"%char
  else None.

(** The tokens of a text (in reverse order in [acc]); [None] when the text
    is not made of JSON tokens. *)
Fixpoint lex (st : lex_state) (s : string) (acc : list token) : option (list token) :=
  match s with
  | EmptyString =>
      match st with
      | LStart => Some (rev acc)
      | LWord buf => option_map (fun t => rev (t :: acc)) (word_token buf)
      | _ => None
      end
  | String c r =>
      let from_start (acc : list token) :=
        match start_char c with
        | SSkip => lex LStart r acc
        | SEmit t => lex LStart r (t :: acc)
        | SString => lex (LString []) r acc
        | SWord => lex (LWord [c]) r acc
        | SBad => None
        end in
      match st with
      | LStart => from_start acc
      | LWord buf =>
          if is_word_char c then lex (LWord (c :: buf)) r acc
          else match word_token buf with
               | Some t => from_start (t :: acc)
               | None => None
               end
      | LString buf =>
          if Ascii.eqb c DQ then
            lex LStart r (TScalar (JString (string_of_rev buf)) :: acc)
          else if Ascii.eqb c BACKSLASH then lex (LEscape buf) r acc
          else if (code c <? 32)%N then None
          else lex (LString (c :: buf)) r acc
      | LEscape buf =>
          if Ascii.eqb c "u" then lex (LUnicode buf []) r acc
          else match escape_char c with
               | Some e => lex (LString (e :: buf)) r acc
               | None => None
               end
      | LUnicode buf ds =>
          match hex_value c with
          | None => None
          | Some d =>
              match ds with
              | [d3; d2; d1] =>
                  let u := (((d1 * 16 + d2) * 16 + d3) * 16 + d)%N in
                  lex (LString (utf8_rev u ++ buf)) r acc
              | _ => lex (LUnicode buf (d :: ds)) r acc
              end
          end
      end
  end.

(** *** Syntactic analysis *)

(** A container that is being read: the items read so far, last first, and
    for an object the key that waits for its value. *)
Inductive frame :=
| InArray (items : list json)
| InObject (fields : list (string * json)) (key : option string).

(** What the grammar allows next. *)
Inductive expect :=
| EValue        (* a value *)
| EValueOrEnd   (* a value or the end of the array, after '[' *)
| EKeyOrEnd     (* a key or the end of the object, after the opening brace *)
| EKey          (* a key, after ',' in an object *)
| EColon        (* ':' after a key *)
| ESep          (* ',' or the end of the container, after a value *)
| EDone (v : json). (* the text is complete *)

(** A value [v] is complete: it is the whole text, the next item of the
    array or the value of the pending key.  A key that occurs twice keeps
    the later value, as [JSON.parse] does. *)
Definition complete (v : json) (stack : list frame) : option (expect * list frame) :=
  match stack with
  | [] => Some (EDone v, [])
  | InArray items :: rest => Some (ESep, InArray (v :: items) :: rest)
  | InObject fields (Some k) :: rest =>
      Some (ESep, InObject (assign_field k v fields) None :: rest)
  | InObject _ None :: _ => None
  end.

Definition close_array (stack : list frame) : option (expect * list frame) :=
  match stack with
  | InArray items :: rest => complete (JArray (rev items)) rest
  | _ => None
  end.

Definition close_object (stack : list frame) : option (expect * list frame) :=
  match stack with
  | InObject fields None :: rest => complete (JObject fields) rest
  | _ => None
  end.

Definition take_value (t : token) (stack : list frame) : option (expect * list frame) :=
  match t with
  | TScalar v => complete v stack
  | TLBrack => Some (EValueOrEnd, InArray [] :: stack)
  | TLBrace => Some (EKeyOrEnd, InObject [] None :: stack)
  | _ => None
  end.

Definition take_key (t : token) (stack : list frame) : option (expect * list frame) :=
  match t, stack with
  | TScalar (JString k), InObject fields None :: rest =>
      Some (EColon, InObject fields (Some k) :: rest)
  | _, _ => None
  end.

Definition parse_step (e : expect) (stack : list frame) (t : token)
  : option (expect * list frame) :=
  match e with
  | EValue => take_value t stack
  | EValueOrEnd =>
      match t with TRBrack => close_array stack | _ => take_value t stack end
  | EKeyOrEnd =>
      match t with TRBrace => close_object stack | _ => take_key t stack end
  | EKey => take_key t stack
  | EColon => match t with TColon => Some (EValue, stack) | _ => None end
  | ESep =>
      match t, stack with
      | TComma, InArray _ :: _ => Some (EValue, stack)
      | TComma, InObject _ _ :: _ => Some (EKey, stack)
      | TRBrack, _ => close_array stack
      | TRBrace, _ => close_object stack
      | _, _ => None
      end
  | EDone _ => None
  end.

Fixpoint parse_tokens (e : expect) (stack : list frame) (ts : list token) : option json :=
  match ts with
  | [] => match e with EDone v => Some v | _ => None end
  | t :: rest =>
      match parse_step e stack t with
      | Some (e', stack') => parse_tokens e' stack' rest
      | None => None
      end
  end.

(** [JSON.parse(text)]; [None] when it throws a [SyntaxError]. *)
Definition parse (text : string) : option json :=
  match lex LStart text [] with
  | Some ts => parse_tokens EValue [] ts
  | None => None
  end.

(** *** Serialization *)

Definition hex_digit (n : N) : ascii :=
  if (n <? 10)%N then ascii_of_N (48 + n) else ascii_of_N (87 + n).

(** A character inside a string literal: the quote and the backslash are
    escaped, control characters have their short escape or [\u00XX]. *)
Definition quote_char (c : ascii) : string :=
  if Ascii.eqb c DQ then String BACKSLASH (str1 DQ)
  else if Ascii.eqb c BACKSLASH then String BACKSLASH (str1 BACKSLASH)
  else if (code c =? 8)%N then String BACKSLASH "b"
  else if (code c =? 12)%N then String BACKSLASH "f"
  else if (code c =? 10)%N then String BACKSLASH "n"
  else if (code c =? 13)%N then String BACKSLASH "r"
  else if (code c =? 9)%N then String BACKSLASH "t"
  else if (code c <? 32)%N then
    String BACKSLASH ("u00" +:+ String (hex_digit (code c / 16))
                                  (str1 (hex_digit (code c mod 16))))
  else str1 c.

Fixpoint quote_chars (s : string) : string :=
  match s with
  | EmptyString => EmptyString
  | String c r => quote_char c +:+ quote_chars r
  end.

Definition quote (s : string) : string :=
  String DQ (quote_chars s) +:+ str1 DQ.

(** [parts.join(',')] *)
Fixpoint join_comma (parts : list string) : string :=
  match parts with
  | [] => EmptyString
  | [x] => x
  | x :: rest => x +:+ "," +:+ join_comma rest
  end.

(** [JSON.stringify(v)] *)
Fixpoint stringify (v : json) : string :=
  match v with
  | JNull => "null"
  | JBool b => if b then "true" else "false"
  | JNumber (Infinity _) => "null"
  | JNumber n => toString 10 n
  | JString s => quote s
  | JArray items => "[" +:+ join_comma (map stringify items) +:+ "]"
  | JObject fields =>
      "{" +:+ join_comma (map (fun '(k, x) => quote k +:+ ":" +:+ stringify x) fields)
          +:+ "}"
  end.

End Json.

Import Json.

(** ** Built-in functions and small libraries *)

Module Builtins.

(** The exponent part that a decimal literal may end with, and what
    follows it; an [e] without digits is not an exponent. *)
Definition scan_exponent (s : string) : Z * string :=
  match s with
  | String c r =>
      if Ascii.eqb c "e" || Ascii.eqb c "E" then
        let '(neg, r') :=
          match r with
          | String "-" r' => (true, r')
          | String "+" r' => (false, r')
          | _ => (false, r)
          end in
        match span_digits r' with
        | (String d ds, rest) =>
            let e := digits_value (String d ds) in
            (if neg then - e else e, rest)
        | _ => (0, s)
        end
      else (0, s)
  | _ => (0, s)
  end.

(** The longest prefix that is a [StrDecimalLiteral]: an optional sign,
    then [Infinity] or decimal digits with an optional point and exponent.
    Gives its value and what follows it, or [None] without such a prefix. *)
Definition scan_decimal (s : string) : option (number * string) :=
  let '(neg, s) :=
    match s with
    | String "-" r => (true, r)
    | String "+" r => (false, r)
    | _ => (false, s)
    end in
  if String.prefix "Infinity" s then Some (Infinity neg, substr_from 8 s)
  else
    let '(ip, r) := span_digits s in
    let '(fp, r) :=
      match r with
      | String "." r' => span_digits r'
      | _ => (EmptyString, r)
      end in
    if String.eqb ip EmptyString && String.eqb fp EmptyString then None
    else let '(e, rest) := scan_exponent r in Some (decimal_value neg ip fp e, rest).

(** [parseFloat(s)]; [None] is [NaN]. *)
Definition parseFloat (s : string) : option number :=
  option_map fst (scan_decimal (trim_start s)).

Definition radix_digit (radix : Z) (c : ascii) : option Z :=
  match hex_value c with
  | Some d => if Z.of_N d <? radix then Some (Z.of_N d) else None
  | None => None
  end.

Fixpoint radix_value (radix : Z) (acc : Z) (s : string) : option Z :=
  match s with
  | EmptyString => Some acc
  | String c r =>
      match radix_digit radix c with
      | Some d => radix_value radix (radix * acc + d) r
      | None => None
      end
  end.

(** [Number(s)]; [None] is [NaN].  The empty string is zero; the prefixes
    [0x], [0o] and [0b] announce an integer in base 16, 8 or 2; anything else
    has to be a decimal literal as a whole. *)
Definition Number (s : string) : option number :=
  let s := trim s in
  match s with
  | EmptyString => Some (Int 0)
  | String "0" (String p (String d ds)) =>
      let digits := String d ds in
      if Ascii.eqb p "x" || Ascii.eqb p "X" then option_map Int (radix_value 16 0 digits)
      else if Ascii.eqb p "o" || Ascii.eqb p "O" then option_map Int (radix_value 8 0 digits)
      else if Ascii.eqb p "b" || Ascii.eqb p "B" then option_map Int (radix_value 2 0 digits)
      else match scan_decimal s with
           | Some (n, EmptyString) => Some n
           | _ => None
           end
  | _ => match scan_decimal s with
         | Some (n, EmptyString) => Some n
         | _ => None
         end
  end.

(** [s.indexOf(sub) >= 0] *)
Fixpoint includes (sub s : string) : bool :=
  String.prefix sub s ||
  match s with
  | EmptyString => false
  | String _ r => includes sub r
  end.

Fixpoint skip_blanks (s : string) : string :=
  match s with
  | String " " r => skip_blanks r
  | _ => s
  end.

(** A match of [kw +([0-9]+)] at the very start of [s]: the keyword, one
    blank or more, one digit or more.  Gives the digits. *)
Definition match_command_here (kw s : string) : option string :=
  if String.prefix kw s then
    match substr_from (String.length kw) s with
    | String " " r =>
        match span_digits (skip_blanks r) with
        | (String d ds, _) => Some (String d ds)
        | _ => None
        end
    | _ => None
    end
  else None.

(** [/kw +([0-9]+)/.exec(s)]: the group of the leftmost match. *)
Fixpoint exec_command (kw s : string) : option string :=
  match match_command_here kw s with
  | Some digits => Some digits
  | None =>
      match s with
      | EmptyString => None
      | String _ r => exec_command kw r
      end
  end.

(** [basename(path)] of path-browserify: the last segment that is not
    empty. *)
Fixpoint basename_from (seg : string) (found : string) (path : string) : string :=
  match path with
  | EmptyString => if String.eqb seg EmptyString then found else seg
  | String c r =>
      if Ascii.eqb c "/" then
        basename_from EmptyString (if String.eqb seg EmptyString then found else seg) r
      else basename_from (seg +:+ str1 c) found r
  end.

Definition basename (path : string) : string :=
  basename_from EmptyString EmptyString path.

(** [base64.fromByteArray(bytes)] *)
Definition base64_alphabet : string :=
  "ABCDEFGHIJKLMNOPQRSTUVWXYZabcdefghijklmnopqrstuvwxyz0123456789+/".

Definition base64_char (n : N) : ascii :=
  match String.get (N.to_nat n) base64_alphabet with
  | Some c => c
  | None => "="%char
  end.

Fixpoint base64_encode (bytes : list N) : string :=
  match bytes with
  | [] => EmptyString
  | [a] =>
      String (base64_char (a / 4)) (String (base64_char (a mod 4 * 16)) "==")
  | [a; b] =>
      String (base64_char (a / 4))
        (String (base64_char (a mod 4 * 16 + b / 16))
           (String (base64_char (b mod 16 * 4)) "="))
  | a :: b :: c :: rest =>
      String (base64_char (a / 4))
        (String (base64_char (a mod 4 * 16 + b / 16))
           (String (base64_char (b mod 16 * 4 + c / 64))
              (String (base64_char (c mod 64)) (base64_encode rest))))
  end%N.

Definition fromByteArray (bytes : list byte) : string :=
  base64_encode (map Byte.to_N bytes).

(** An index of [subarray], relative to the end when it is negative, and
    clamped to the array. *)
Definition clamp_index (len i : Z) : Z :=
  if i <? 0 then Z.max (len + i) 0 else Z.min i len.

(** [bytes.subarray(b, e)] *)
Definition subarray {A} (bytes : list A) (b e : Z) : list A :=
  let len := Z.of_nat (List.length bytes) in
  let b' := clamp_index len b in
  let e' := clamp_index len e in
  firstn (Z.to_nat (e' - b')) (skipn (Z.to_nat b') bytes).

End Builtins.

Import Builtins.

(** ** The runtime (mockRuntime.ts) *)

Module Runtime.

(** A [RuntimeVariable] is a JavaScript object: the session, the table of
    handles and the parent variable all hold references to the same object.
    Objects therefore live in a heap, and a reference is a location. *)
Definition loc := positive.

(** Modelled from the spec: mockRuntime.ts, which declares
    [IRuntimeVariableType], is not among the sources.  A value "is
    boolean/number/string/ordered-list-of-child-values". *)
Inductive IRuntimeVariableType :=
| VBoolean (b : bool)
| VNumber (n : number)
| VString (s : string)
| VArray (children : list loc).

(** Modelled from the spec: the class [RuntimeVariable] of mockRuntime.ts,
    "a name, a value ..., optional raw memory bytes, optional nested
    reference". *)
Record RuntimeVariable := mkRuntimeVariable {
  name : string;
  value : IRuntimeVariableType;
  memory : option (list byte);
  reference : option Z
}.

(** [new RuntimeVariable(name, value)] *)
Definition newRuntimeVariable (n : string) (v : IRuntimeVariableType) : RuntimeVariable :=
  {| name := n; value := v; memory := None; reference := None |}.

(** Modelled from the spec: the interface [IRuntimeBreakpoint] of
    mockRuntime.ts, "id (unique, monotonically assigned), source line,
    verified flag". *)
Record IRuntimeBreakpoint := mkBreakpoint {
  id : Z;
  line : Z;
  verified : bool
}.

(** Modelled from the spec: the part of the state of the class [MockRuntime]
    of mockRuntime.ts that the session reads and writes: the source file,
    the local variables by name, the breakpoints by path and the counter of
    breakpoint ids. *)
Record MockRuntime := mkRuntime {
  sourceFile : string;
  variables : gmap string loc;
  breakPoints : gmap string (list IRuntimeBreakpoint);
  breakpointId : Z
}.

(** Modelled from the spec: [MockRuntime.getLocalVariable] of mockRuntime.ts,
    the lookup of a local variable by its name. *)
Definition getLocalVariable (rt : MockRuntime) (n : string) : option loc :=
  variables rt !! n.

(** Modelled from the spec: [MockRuntime.setBreakPoint] of mockRuntime.ts.
    The new record takes the next id, which is never used again, sits at
    the given line and is not verified yet. *)
Definition setBreakPoint (rt : MockRuntime) (path : string) (ln : Z)
  : IRuntimeBreakpoint * MockRuntime :=
  let bp := {| id := breakpointId rt; line := ln; verified := false |} in
  (bp, {| sourceFile := sourceFile rt;
          variables := variables rt;
          breakPoints :=
            <[path := (default [] (breakPoints rt !! path) ++ [bp])%list]> (breakPoints rt);
          breakpointId := breakpointId rt + 1 |}).

Fixpoint remove_at_line (ln : Z) (bps : list IRuntimeBreakpoint)
  : option IRuntimeBreakpoint * list IRuntimeBreakpoint :=
  match bps with
  | [] => (None, [])
  | bp :: rest =>
      if line bp =? ln then (Some bp, rest)
      else let '(found, rest') := remove_at_line ln rest in (found, bp :: rest')
  end.

(** Modelled from the spec: [MockRuntime.clearBreakPoint] of mockRuntime.ts,
    which deletes the breakpoint of a line and returns it, or [undefined]
    when the line has none. *)
Definition clearBreakPoint (rt : MockRuntime) (path : string) (ln : Z)
  : option IRuntimeBreakpoint * MockRuntime :=
  match breakPoints rt !! path with
  | None => (None, rt)
  | Some bps =>
      let '(found, rest) := remove_at_line ln bps in
      (found, {| sourceFile := sourceFile rt;
                 variables := variables rt;
                 breakPoints := <[path := rest]> (breakPoints rt);
                 breakpointId := breakpointId rt |})
  end.

End Runtime.

Import Runtime.

(** ** The protocol types and the adapter library *)

Module DebugProtocol.

(** [Source], as [createSource] fills it. *)
Record Source := mkSource {
  source_name : string;
  source_path : string;
  source_adapterData : string
}.

(** [Breakpoint] *)
Record Breakpoint := mkDapBreakpoint {
  bp_verified : bool;
  bp_line : option Z;
  bp_source : option Source;
  bp_id : option Z
}.

(** [DebugProtocol.Variable], with the fields that [convertFromRuntime]
    sets. *)
Record DapVariable := mkVariable {
  var_name : string;
  var_value : string;
  var_type : string;
  var_variablesReference : Z;
  var_evaluateName : string;
  var_presentationHint_lazy : option bool;
  var_memoryReference : option string;
  var_menuContext : option string
}.

(** [Message], the payload of an error response. *)
Record Message := mkMessage {
  msg_id : Z;
  msg_format : string;
  msg_variables : list (string * string);
  msg_showUser : bool
}.

(** The bodies of the responses that the adapter answers itself. *)
Inductive Body :=
| ReadMemoryBody (address data : string) (unreadableBytes : Z)
| VariableBody (v : DapVariable)
| EvaluateBody (result : string) (type : option string) (variablesReference : Z)
    (presentationHint_lazy : option bool)
| InitializeBody (capabilities : list string) (completionTriggerCharacters : list string)
    (exceptionBreakpointFilters : list string).

(** The response object that the library creates for a request and hands
    to its handler: [success] is [true] and there is no body yet. *)
Record Response := mkResponse {
  request_seq : Z;
  command : string;
  success : bool;
  body : option Body
}.

Definition newResponse (rseq : Z) (cmd : string) : Response :=
  {| request_seq := rseq; command := cmd; success := true; body := None |}.

Definition with_body (b : Body) (r : Response) : Response :=
  {| request_seq := request_seq r; command := command r;
     success := success r; body := Some b |}.

(** The events that the adapter builds with the constructors of the
    library. *)
Inductive Event :=
| InitializedEvent
| TerminatedEvent
| OutputEvent (output : string) (category : string)
| BreakpointEvent (reason : string) (bp : Breakpoint)
| InvalidatedEvent (areas : list string)
| MemoryEvent (memoryReference : string) (offset count : Z)
| ProgressStartEvent (progressId title : string) (cancellable : bool)
| ProgressUpdateEvent (progressId message : string)
| ProgressEndEvent (progressId message : string).

End DebugProtocol.

Import DebugProtocol.

(** What the adapter hands to the library for the client.  A message that
    was parsed from the output of the backend is handed over as the JSON
    object it is. *)
Inductive Sent :=
| SendEvent (e : Event)
| SendProxiedEvent (e : json)
| SendResponse (r : Response)
| SendProxiedResponse (r : json)
| SendErrorResponse (r : Response) (msg : Message).

(** The class [Handles] of the library: handles are handed out from 1000
    on, one after the other. *)
Inductive HandleValue :=
| HLocals
| HGlobals
| HVariable (l : loc).

Record Handles := mkHandles {
  nextHandle : Z;
  handleMap : gmap Z HandleValue
}.

Definition START_HANDLE : Z := 1000.

Definition newHandles : Handles := {| nextHandle := START_HANDLE; handleMap := ∅ |}.

Definition Handles_create (v : HandleValue) (h : Handles) : Z * Handles :=
  (nextHandle h,
   {| nextHandle := nextHandle h + 1; handleMap := <[nextHandle h := v]> (handleMap h) |}).

(** [handles.get(n)] for a number [n]: only an integer can be a key. *)
Definition Handles_get (h : Handles) (n : number) : option HandleValue :=
  match n with
  | Int z => handleMap h !! z
  | _ => None
  end.

(** The class [Subject] of await-notify, over what a waiter resumes: the
    waiters, the latest last, each with the time at which its timeout fires;
    and the number of calls of [notify] so far. *)
Record Waiter (K : Type) := mkWaiter {
  resume : K;
  deadline : Z
}.
Arguments mkWaiter {K}.
Arguments resume {K}.
Arguments deadline {K}.

Record Subject (K : Type) := mkSubject {
  waiters : list (Waiter K);
  notified : nat
}.
Arguments mkSubject {K}.
Arguments waiters {K}.
Arguments notified {K}.

Definition newSubject {K} : Subject K := {| waiters := []; notified := O |}.

(** [subject.wait(timeout)] at time [t], for a timeout that is positive:
    the caller becomes the latest waiter. *)
Definition Subject_wait {K} (k : K) (t timeout : Z) (sub : Subject K) : Subject K :=
  {| waiters := waiters sub ++ [{| resume := k; deadline := t + timeout |}];
     notified := notified sub |}.

(** [subject.notify()]: the latest waiter, if there is one, leaves the
    list and is resumed. *)
Definition Subject_notify {K} (sub : Subject K) : option K * Subject K :=
  match rev (waiters sub) with
  | [] => (None, {| waiters := []; notified := S (notified sub) |})
  | w :: before =>
      (Some (resume w), {| waiters := rev before; notified := S (notified sub) |})
  end.

(** The code of [launchRequest] that is suspended in its [await]: it holds
    the response and the arguments of the request. *)
Record PendingLaunch := mkLaunch {
  launch_response : Response;
  launch_args : json
}.

(** The code of [progressSequence] that is suspended in a [timeout]: before
    the sequence starts, and in round [i] of its loop. *)
Inductive Task :=
| ProgressBegin (ID : string)
| ProgressRound (ID : string) (i : Z).

(** A timer of [setTimeout]: when it is due and what it resumes. *)
Record Timer := mkTimer {
  due : Z;
  task : Task
}.

(** The child process: the command line it was spawned with. *)
Record ChildProcess := mkChildProcess {
  spawn_command : string;
  spawn_args : list string
}.

(** ** The session *)

(** The fields of [MockDebugSession], and with them: the heap of the
    [RuntimeVariable] objects; [clientLinesStartAt1], which the library
    keeps; the clock and the pending timers of the event loop; and the two
    logs, what was handed to the library for the client and what was
    written to the standard input of the backend. *)
Record Session := mkSession {
  _runtime : MockRuntime;
  heap : gmap loc RuntimeVariable;
  nextLoc : loc;
  _variableHandles : Handles;
  _configurationDone : Subject PendingLaunch;
  _launchDone : Subject Empty_set;
  _cancellationTokens : gmap Z bool;
  _reportProgress : bool;
  _progressId : Z;
  _cancelledProgressId : option string;
  _isProgressCancellable : bool;
  _valuesInHex : bool;
  _useInvalidatedEvent : bool;
  ringRdbProcess : option ChildProcess;
  clientLinesStartAt1 : bool;
  now : Z;
  timers : list Timer;
  toClient : list Sent;
  toBackend : list string
}.

(** Assignment to one field. *)
Definition with_runtime (x : MockRuntime) (s : Session) : Session :=
  mkSession x (heap s) (nextLoc s) (_variableHandles s) (_configurationDone s)
  (_launchDone s) (_cancellationTokens s) (_reportProgress s) (_progressId s)
  (_cancelledProgressId s) (_isProgressCancellable s) (_valuesInHex s)
  (_useInvalidatedEvent s) (ringRdbProcess s) (clientLinesStartAt1 s) (now s)
  (timers s) (toClient s) (toBackend s).

Definition with_heap (x : gmap loc RuntimeVariable) (s : Session) : Session :=
  mkSession (_runtime s) x (nextLoc s) (_variableHandles s)
  (_configurationDone s) (_launchDone s) (_cancellationTokens s)
  (_reportProgress s) (_progressId s) (_cancelledProgressId s)
  (_isProgressCancellable s) (_valuesInHex s) (_useInvalidatedEvent s)
  (ringRdbProcess s) (clientLinesStartAt1 s) (now s) (timers s) (toClient s)
  (toBackend s).

Definition with_nextLoc (x : loc) (s : Session) : Session :=
  mkSession (_runtime s) (heap s) x (_variableHandles s)
  (_configurationDone s) (_launchDone s) (_cancellationTokens s)
  (_reportProgress s) (_progressId s) (_cancelledProgressId s)
  (_isProgressCancellable s) (_valuesInHex s) (_useInvalidatedEvent s)
  (ringRdbProcess s) (clientLinesStartAt1 s) (now s) (timers s) (toClient s)
  (toBackend s).

Definition with_variableHandles (x : Handles) (s : Session) : Session :=
  mkSession (_runtime s) (heap s) (nextLoc s) x (_configurationDone s)
  (_launchDone s) (_cancellationTokens s) (_reportProgress s) (_progressId s)
  (_cancelledProgressId s) (_isProgressCancellable s) (_valuesInHex s)
  (_useInvalidatedEvent s) (ringRdbProcess s) (clientLinesStartAt1 s) (now s)
  (timers s) (toClient s) (toBackend s).

Definition with_configurationDone (x : Subject PendingLaunch) (s : Session) : Session :=
  mkSession (_runtime s) (heap s) (nextLoc s) (_variableHandles s) x
  (_launchDone s) (_cancellationTokens s) (_reportProgress s) (_progressId s)
  (_cancelledProgressId s) (_isProgressCancellable s) (_valuesInHex s)
  (_useInvalidatedEvent s) (ringRdbProcess s) (clientLinesStartAt1 s) (now s)
  (timers s) (toClient s) (toBackend s).

Definition with_launchDone (x : Subject Empty_set) (s : Session) : Session :=
  mkSession (_runtime s) (heap s) (nextLoc s) (_variableHandles s)
  (_configurationDone s) x (_cancellationTokens s) (_reportProgress s)
  (_progressId s) (_cancelledProgressId s) (_isProgressCancellable s)
  (_valuesInHex s) (_useInvalidatedEvent s) (ringRdbProcess s)
  (clientLinesStartAt1 s) (now s) (timers s) (toClient s) (toBackend s).

Definition with_cancellationTokens (x : gmap Z bool) (s : Session) : Session :=
  mkSession (_runtime s) (heap s) (nextLoc s) (_variableHandles s)
  (_configurationDone s) (_launchDone s) x (_reportProgress s) (_progressId s)
  (_cancelledProgressId s) (_isProgressCancellable s) (_valuesInHex s)
  (_useInvalidatedEvent s) (ringRdbProcess s) (clientLinesStartAt1 s) (now s)
  (timers s) (toClient s) (toBackend s).

Definition with_reportProgress (x : bool) (s : Session) : Session :=
  mkSession (_runtime s) (heap s) (nextLoc s) (_variableHandles s)
  (_configurationDone s) (_launchDone s) (_cancellationTokens s) x
  (_progressId s) (_cancelledProgressId s) (_isProgressCancellable s)
  (_valuesInHex s) (_useInvalidatedEvent s) (ringRdbProcess s)
  (clientLinesStartAt1 s) (now s) (timers s) (toClient s) (toBackend s).

Definition with_progressId (x : Z) (s : Session) : Session :=
  mkSession (_runtime s) (heap s) (nextLoc s) (_variableHandles s)
  (_configurationDone s) (_launchDone s) (_cancellationTokens s)
  (_reportProgress s) x (_cancelledProgressId s) (_isProgressCancellable s)
  (_valuesInHex s) (_useInvalidatedEvent s) (ringRdbProcess s)
  (clientLinesStartAt1 s) (now s) (timers s) (toClient s) (toBackend s).

Definition with_cancelledProgressId (x : option string) (s : Session) : Session :=
  mkSession (_runtime s) (heap s) (nextLoc s) (_variableHandles s)
  (_configurationDone s) (_launchDone s) (_cancellationTokens s)
  (_reportProgress s) (_progressId s) x (_isProgressCancellable s)
  (_valuesInHex s) (_useInvalidatedEvent s) (ringRdbProcess s)
  (clientLinesStartAt1 s) (now s) (timers s) (toClient s) (toBackend s).

Definition with_isProgressCancellable (x : bool) (s : Session) : Session :=
  mkSession (_runtime s) (heap s) (nextLoc s) (_variableHandles s)
  (_configurationDone s) (_launchDone s) (_cancellationTokens s)
  (_reportProgress s) (_progressId s) (_cancelledProgressId s) x
  (_valuesInHex s) (_useInvalidatedEvent s) (ringRdbProcess s)
  (clientLinesStartAt1 s) (now s) (timers s) (toClient s) (toBackend s).

Definition with_valuesInHex (x : bool) (s : Session) : Session :=
  mkSession (_runtime s) (heap s) (nextLoc s) (_variableHandles s)
  (_configurationDone s) (_launchDone s) (_cancellationTokens s)
  (_reportProgress s) (_progressId s) (_cancelledProgressId s)
  (_isProgressCancellable s) x (_useInvalidatedEvent s) (ringRdbProcess s)
  (clientLinesStartAt1 s) (now s) (timers s) (toClient s) (toBackend s).

Definition with_useInvalidatedEvent (x : bool) (s : Session) : Session :=
  mkSession (_runtime s) (heap s) (nextLoc s) (_variableHandles s)
  (_configurationDone s) (_launchDone s) (_cancellationTokens s)
  (_reportProgress s) (_progressId s) (_cancelledProgressId s)
  (_isProgressCancellable s) (_valuesInHex s) x (ringRdbProcess s)
  (clientLinesStartAt1 s) (now s) (timers s) (toClient s) (toBackend s).

Definition with_ringRdbProcess (x : option ChildProcess) (s : Session) : Session :=
  mkSession (_runtime s) (heap s) (nextLoc s) (_variableHandles s)
  (_configurationDone s) (_launchDone s) (_cancellationTokens s)
  (_reportProgress s) (_progressId s) (_cancelledProgressId s)
  (_isProgressCancellable s) (_valuesInHex s) (_useInvalidatedEvent s) x
  (clientLinesStartAt1 s) (now s) (timers s) (toClient s) (toBackend s).

Definition with_clientLinesStartAt1 (x : bool) (s : Session) : Session :=
  mkSession (_runtime s) (heap s) (nextLoc s) (_variableHandles s)
  (_configurationDone s) (_launchDone s) (_cancellationTokens s)
  (_reportProgress s) (_progressId s) (_cancelledProgressId s)
  (_isProgressCancellable s) (_valuesInHex s) (_useInvalidatedEvent s)
  (ringRdbProcess s) x (now s) (timers s) (toClient s) (toBackend s).

Definition with_now (x : Z) (s : Session) : Session :=
  mkSession (_runtime s) (heap s) (nextLoc s) (_variableHandles s)
  (_configurationDone s) (_launchDone s) (_cancellationTokens s)
  (_reportProgress s) (_progressId s) (_cancelledProgressId s)
  (_isProgressCancellable s) (_valuesInHex s) (_useInvalidatedEvent s)
  (ringRdbProcess s) (clientLinesStartAt1 s) x (timers s) (toClient s)
  (toBackend s).

Definition with_timers (x : list Timer) (s : Session) : Session :=
  mkSession (_runtime s) (heap s) (nextLoc s) (_variableHandles s)
  (_configurationDone s) (_launchDone s) (_cancellationTokens s)
  (_reportProgress s) (_progressId s) (_cancelledProgressId s)
  (_isProgressCancellable s) (_valuesInHex s) (_useInvalidatedEvent s)
  (ringRdbProcess s) (clientLinesStartAt1 s) (now s) x (toClient s)
  (toBackend s).

Definition with_toClient (x : list Sent) (s : Session) : Session :=
  mkSession (_runtime s) (heap s) (nextLoc s) (_variableHandles s)
  (_configurationDone s) (_launchDone s) (_cancellationTokens s)
  (_reportProgress s) (_progressId s) (_cancelledProgressId s)
  (_isProgressCancellable s) (_valuesInHex s) (_useInvalidatedEvent s)
  (ringRdbProcess s) (clientLinesStartAt1 s) (now s) (timers s) x
  (toBackend s).

Definition with_toBackend (x : list string) (s : Session) : Session :=
  mkSession (_runtime s) (heap s) (nextLoc s) (_variableHandles s)
  (_configurationDone s) (_launchDone s) (_cancellationTokens s)
  (_reportProgress s) (_progressId s) (_cancelledProgressId s)
  (_isProgressCancellable s) (_valuesInHex s) (_useInvalidatedEvent s)
  (ringRdbProcess s) (clientLinesStartAt1 s) (now s) (timers s) (toClient s) x.


(** ** The handlers of [MockDebugSession] *)

Definition sendEvent (e : Event) (s : Session) : Session :=
  with_toClient (toClient s ++ [SendEvent e])%list s.

Definition sendProxiedEvent (e : json) (s : Session) : Session :=
  with_toClient (toClient s ++ [SendProxiedEvent e])%list s.

Definition sendResponse (r : Response) (s : Session) : Session :=
  with_toClient (toClient s ++ [SendResponse r])%list s.

Definition sendProxiedResponse (r : json) (s : Session) : Session :=
  with_toClient (toClient s ++ [SendProxiedResponse r])%list s.

Definition sendErrorResponse (r : Response) (msg : Message) (s : Session) : Session :=
  with_toClient (toClient s ++ [SendErrorResponse r msg])%list s.

(** *** The messages of the backend *)

Inductive Error := SyntaxError | TypeError.

(** How a handler ends: it returns, or an exception leaves it. *)
Inductive Outcome := Returned | Threw (e : Error).

(** [o.k] for a value [o] that [JSON.parse] made.  Reading a property of
    [null] throws.  The names that the relay reads ([type], [event],
    [command], [body], [exitCode]) are no properties of arrays, strings,
    numbers or booleans, which therefore give [undefined]. *)
Definition prop (o : json) (k : string) : Error + option json :=
  match o with
  | JNull => inl TypeError
  | JObject fields => inr (lookup_field k fields)
  | _ => inr None
  end.

(** [o.k = v] on an object. *)
Definition assign (o : json) (k : string) (v : json) : json :=
  match o with
  | JObject fields => JObject (assign_field k v fields)
  | _ => o
  end.

(** [o.k] once [o.type] has been read without an exception, so that [o] is
    not [null]. *)
Definition prop_of (o : json) (k : string) : option json :=
  match prop o k with
  | inr x => x
  | inl _ => None
  end.

(** [x === 'text'] *)
Definition is_string (x : option json) (text : string) : bool :=
  match x with
  | Some (JString s) => String.eqb s text
  | _ => false
  end.

(** [x !== 0] *)
Definition is_not_zero (x : option json) : bool :=
  match x with
  | Some (JNumber n) => negb (is_zero n)
  | _ => true
  end.

(** The text of a value inside a template literal. *)
Fixpoint ToString (v : json) : string :=
  match v with
  | JNull => "null"
  | JBool b => if b then "true" else "false"
  | JNumber n => toString 10 n
  | JString s => s
  | JArray items =>
      join_comma (map (fun x => match x with JNull => EmptyString | _ => ToString x end) items)
  | JObject _ => "[object Object]"
  end.

Definition template (x : option json) : string :=
  match x with
  | None => "undefined"
  | Some v => ToString v
  end.

Definition NL : string := str1 LF.

(** [handleRingRdbDapOneMessage(data)].  Every [JSON.parse(data)] of the
    function gives an equal object, which is bound once here. *)
Definition handleRingRdbDapOneMessage (data : string) (s : Session) : Outcome * Session :=
  match parse data with
  | None => (Threw SyntaxError, s)
  | Some ringMessage =>
      match prop ringMessage "type" with
      | inl e => (Threw e, s)
      | inr type =>
          if is_string type "event" then
            let ringEvent := prop_of ringMessage "event" in
            let event := assign ringMessage "seq" (JNumber (Int 0)) in
            if is_string ringEvent "terminated" then
              (Returned, sendProxiedEvent event s)
            else if is_string ringEvent "exited" then
              let s := sendProxiedEvent event s in
              match prop event "body" with
              | inl e => (Threw e, s)
              | inr None => (Threw TypeError, s)
              | inr (Some body) =>
                  match prop body "exitCode" with
                  | inl e => (Threw e, s)
                  | inr exitCode =>
                      let text := "ring process exited with code " +:+ template exitCode +:+ NL in
                      let s :=
                        if is_not_zero exitCode
                        then sendEvent (OutputEvent text "stderr") s
                        else sendEvent (OutputEvent text "console") s in
                      (Returned, sendEvent TerminatedEvent s)
                  end
              end
            else if is_string ringEvent "stopped" then
              (Returned, sendProxiedEvent event s)
            else (Returned, s)
          else if is_string type "response" then
            let command := prop_of ringMessage "command" in
            let response := assign ringMessage "seq" (JNumber (Int 0)) in
            if is_string command "launch" then (Returned, sendProxiedResponse response s)
            else if is_string command "threads" then (Returned, sendProxiedResponse response s)
            else if is_string command "stackTrace" then (Returned, sendProxiedResponse response s)
            else if is_string command "scopes" then (Returned, sendProxiedResponse response s)
            else if is_string command "variables" then (Returned, sendProxiedResponse response s)
            else if is_string command "setBreakpoints" then (Returned, sendProxiedResponse response s)
            else if is_string command "continue" then (Returned, sendProxiedResponse response s)
            else if is_string command "next" then (Returned, sendProxiedResponse response s)
            else if is_string command "stepIn" then (Returned, sendProxiedResponse response s)
            else if is_string command "stepOut" then (Returned, sendProxiedResponse response s)
            else (Returned, s)
          else (Returned, s)
      end
  end.

(** The loop of [handleRingRdbDapMessage]: an exception ends it. *)
Fixpoint handle_lines (lines : list string) (s : Session) : Outcome * Session :=
  match lines with
  | [] => (Returned, s)
  | line :: rest =>
      if 0 <? str_length line then
        match handleRingRdbDapOneMessage line s with
        | (Returned, s') => handle_lines rest s'
        | (Threw e, s') => (Threw e, s')
        end
      else handle_lines rest s
  end.

(** [handleRingRdbDapMessage(data)] *)
Definition handleRingRdbDapMessage (data : string) (s : Session) : Outcome * Session :=
  handle_lines (split LF data) s.

(** [sendRingRdbDapMessage(message)]: with a backend process, the message
    goes to its standard input as one line. *)
Definition sendRingRdbDapMessage (message : json) (s : Session) : Session :=
  let data := stringify message in
  match ringRdbProcess s with
  | Some _ => with_toBackend (toBackend s ++ [data +:+ NL])%list s
  | None => s
  end.

(** *** The backend process *)

(** [newRdbProcess()]: the process is spawned; its three listeners are the
    functions below. *)
Definition newRdbProcess (s : Session) : Session :=
  with_ringRdbProcess
    (Some {| spawn_command := "ring"; spawn_args := ["--interpreter=dap"; "rdb"] |}) s.

(** The listener of the error stream of the backend. *)
Definition onStderrData (data : string) (s : Session) : Outcome * Session :=
  handleRingRdbDapMessage data s.

(** The listener of the output stream of the backend. *)
Definition onStdoutData (data : string) (s : Session) : Session :=
  sendEvent (OutputEvent data "stdout") s.

(** The exit code of a process in a template literal: a number, or [null]
    when a signal ended the process. *)
Definition code_text (code : option Z) : string :=
  match code with
  | Some c => Z_to_string c
  | None => "null"
  end.

(** [code !== 0] *)
Definition code_is_not_zero (code : option Z) : bool :=
  match code with
  | Some 0 => false
  | _ => true
  end.

(** The listener of ['close']. *)
Definition onClose (code : option Z) (s : Session) : Session :=
  let text := "ring-rdb process exited with code " +:+ code_text code +:+ NL in
  let s :=
    if code_is_not_zero code
    then sendEvent (OutputEvent text "stderr") s
    else sendEvent (OutputEvent text "console") s in
  sendEvent TerminatedEvent s.

(** *** The requests of the client *)

Record InitializeRequestArguments := mkInitializeArguments {
  supportsProgressReporting : bool;
  supportsInvalidatedEvent : bool;
  linesStartAt1 : option bool
}.

Definition capabilities : list string :=
  ["supportsConfigurationDoneRequest"; "supportsEvaluateForHovers";
   "supportsCompletionsRequest"; "supportsCancelRequest";
   "supportsBreakpointLocationsRequest"; "supportsStepInTargetsRequest";
   "supportsExceptionFilterOptions"; "supportsExceptionInfoRequest";
   "supportsSetVariable"; "supportsSetExpression"; "supportsDisassembleRequest";
   "supportsSteppingGranularity"; "supportsReadMemoryRequest";
   "supportsWriteMemoryRequest"; "supportSuspendDebuggee";
   "supportTerminateDebuggee"; "supportsDelayedStackTraceLoading"].

(** [initializeRequest(response, args)] *)
Definition initializeRequest (response : Response) (args : InitializeRequestArguments)
    (s : Session) : Session :=
  let s := if supportsProgressReporting args then with_reportProgress true s else s in
  let s := if supportsInvalidatedEvent args then with_useInvalidatedEvent true s else s in
  let response := with_body (InitializeBody capabilities ["."; "["] []) response in
  let s := sendResponse response s in
  let s := newRdbProcess s in
  sendEvent InitializedEvent s.

(** The request that is passed on to the backend: [type], [seq], [command]
    and, unless the request has none, [arguments]. *)
Definition proxied_request (response : Response) (cmd : string) (args : option json) : json :=
  JObject
    ([("type", JString "request");
      ("seq", JNumber (Int (request_seq response)));
      ("command", JString cmd)]
     ++ match args with
        | Some a => [("arguments", a)]
        | None => []
        end)%list.

(** The code of [launchRequest] after its [await].  No code waits for
    [_launchDone], so that its [notify] has nobody to resume. *)
Definition launchRequest_resume (k : PendingLaunch) (s : Session) : Session :=
  let launchRequest :=
    proxied_request (launch_response k) "launch" (Some (launch_args k)) in
  let s := sendRingRdbDapMessage launchRequest s in
  let s := with_launchDone (snd (Subject_notify (_launchDone s))) s in
  sendEvent (OutputEvent ("start ring-rdb process success" +:+ NL) "console") s.

(** [launchRequest(response, args)] up to its [await]: the request waits
    for [_configurationDone], for 10000 milliseconds at most. *)
Definition launchRequest (response : Response) (args : json) (s : Session) : Session :=
  with_configurationDone
    (Subject_wait {| launch_response := response; launch_args := args |}
       (now s) 10000 (_configurationDone s)) s.

(** [attachRequest(response, args)] *)
Definition attachRequest (response : Response) (args : json) (s : Session) : Session :=
  launchRequest response args s.

(** [configurationDoneRequest(response, args)]: the method of the base class
    sends the response; the waiter that [notify] wakes up runs as soon as
    the handler has returned. *)
Definition configurationDoneRequest (response : Response) (s : Session) : Session :=
  let s := sendResponse response s in
  let '(woken, sub) := Subject_notify (_configurationDone s) in
  let s := with_configurationDone sub s in
  match woken with
  | Some k => launchRequest_resume k s
  | None => s
  end.

(** [disconnectRequest(response, args)] only writes to the console. *)
Definition disconnectRequest (response : Response) (s : Session) : Session := s.

(** The requests that are passed on as they are. *)
Definition setBreakPointsRequest (response : Response) (args : json) (s : Session) : Session :=
  sendRingRdbDapMessage (proxied_request response "setBreakpoints" (Some args)) s.

Definition threadsRequest (response : Response) (s : Session) : Session :=
  sendRingRdbDapMessage (proxied_request response "threads" None) s.

Definition stackTraceRequest (response : Response) (args : json) (s : Session) : Session :=
  sendRingRdbDapMessage (proxied_request response "stackTrace" (Some args)) s.

Definition scopesRequest (response : Response) (args : json) (s : Session) : Session :=
  sendRingRdbDapMessage (proxied_request response "scopes" (Some args)) s.

Definition variablesRequest (response : Response) (args : json) (s : Session) : Session :=
  sendRingRdbDapMessage (proxied_request response "variables" (Some args)) s.

Definition continueRequest (response : Response) (args : json) (s : Session) : Session :=
  sendRingRdbDapMessage (proxied_request response "continue" (Some args)) s.

Definition nextRequest (response : Response) (args : json) (s : Session) : Session :=
  sendRingRdbDapMessage (proxied_request response "next" (Some args)) s.

Definition stepInRequest (response : Response) (args : json) (s : Session) : Session :=
  sendRingRdbDapMessage (proxied_request response "stepIn" (Some args)) s.

Definition stepOutRequest (response : Response) (args : json) (s : Session) : Session :=
  sendRingRdbDapMessage (proxied_request response "stepOut" (Some args)) s.

(** *** Variables *)

(** [convertToRuntime(value)] *)
Definition convertToRuntime (value : string) : IRuntimeVariableType :=
  let value := trim value in
  if String.eqb value "true" then VBoolean true
  else if String.eqb value "false" then VBoolean false
  else if match char_at value 0 with
          | Some c => Ascii.eqb c SQ || Ascii.eqb c DQ
          | None => false
          end
  then VString (substr 1 (str_length value - 2) value)
  else match parseFloat value with
       | Some n => VNumber n
       | None => VString value
       end.

(** [formatNumber(x)] *)
Definition formatNumber (s : Session) (x : number) : string :=
  if _valuesInHex s then "0x" +:+ toString 16 x else toString 10 x.

(** The object at a location.  Every location that the session holds is
    allocated; the default is never read. *)
Definition deref (s : Session) (l : loc) : RuntimeVariable :=
  default (newRuntimeVariable EmptyString (VString EmptyString)) (heap s !! l).

(** [new RuntimeVariable(...)]: the object gets the next location. *)
Definition alloc (v : RuntimeVariable) (s : Session) : loc * Session :=
  (nextLoc s, with_nextLoc (Pos.succ (nextLoc s)) (with_heap (<[nextLoc s := v]> (heap s)) s)).

(** [v.value = x] *)
Definition set_value (l : loc) (x : IRuntimeVariableType) (s : Session) : Session :=
  let v := deref s l in
  with_heap
    (<[l := {| name := name v; value := x; memory := memory v; reference := reference v |}]>
       (heap s)) s.

(** [v.reference = r] *)
Definition set_reference (l : loc) (r : Z) (s : Session) : Session :=
  let v := deref s l in
  with_heap
    (<[l := {| name := name v; value := value v; memory := memory v; reference := Some r |}]>
       (heap s)) s.

(** [this._variableHandles.create(target)] *)
Definition create_handle (target : loc) (s : Session) : Z * Session :=
  let '(h, handles) := Handles_create (HVariable target) (_variableHandles s) in
  (h, with_variableHandles handles s).

(** [typeof x] *)
Definition typeof (x : IRuntimeVariableType) : string :=
  match x with
  | VBoolean _ => "boolean"
  | VNumber _ => "number"
  | VString _ => "string"
  | VArray _ => "object"
  end.

(** [v.reference ??= this._variableHandles.create(v)] *)
Definition reference_or_create (l : loc) (s : Session) : Z * Session :=
  match reference (deref s l) with
  | Some r => (r, s)
  | None =>
      let '(h, s) := create_handle l s in
      (h, set_reference l h s)
  end.

(** [v.reference ??= this._variableHandles.create(new RuntimeVariable('',
    [new RuntimeVariable('', v.value)]))] *)
Definition reference_or_create_lazy (l : loc) (s : Session) : Z * Session :=
  match reference (deref s l) with
  | Some r => (r, s)
  | None =>
      let '(inner, s) := alloc (newRuntimeVariable EmptyString (value (deref s l))) s in
      let '(outer, s) := alloc (newRuntimeVariable EmptyString (VArray [inner])) s in
      let '(h, s) := create_handle outer s in
      (h, set_reference l h s)
  end.

(** [convertFromRuntime(v)] *)
Definition convertFromRuntime (l : loc) (s : Session) : DapVariable * Session :=
  let v := deref s l in
  let '(dapVariable, s) :=
    if includes "lazy" (name v) then
      let '(r, s) := reference_or_create_lazy l s in
      (mkVariable (name v) "lazy var" (typeof (value v)) r ("$" +:+ name v)
         (Some true) None None, s)
    else
      match value v with
      | VArray _ =>
          let '(r, s) := reference_or_create l s in
          (mkVariable (name v) "Object" (typeof (value v)) r ("$" +:+ name v)
             None None None, s)
      | VNumber x =>
          if is_integral x then
            (mkVariable (name v) (formatNumber s x) "integer" 0 ("$" +:+ name v)
               None None (Some "simple"), s)
          else
            (mkVariable (name v) (toString 10 x) "float" 0 ("$" +:+ name v)
               None None None, s)
      | VString x =>
          (mkVariable (name v) (str1 DQ +:+ x +:+ str1 DQ) "string" 0 ("$" +:+ name v)
             None None None, s)
      | VBoolean x =>
          (mkVariable (name v) (if x then "true" else "false") "boolean" 0
             ("$" +:+ name v) None None None, s)
      end in
  match memory v with
  | Some _ =>
      let '(r, s) := reference_or_create l s in
      (mkVariable (var_name dapVariable) (var_value dapVariable) (var_type dapVariable)
         (var_variablesReference dapVariable) (var_evaluateName dapVariable)
         (var_presentationHint_lazy dapVariable) (Some (Z_to_string r))
         (var_menuContext dapVariable), s)
  | None => (dapVariable, s)
  end.

Record ReadMemoryArguments := mkReadMemoryArguments {
  rm_offset : option Z;
  rm_count : Z;
  rm_memoryReference : string
}.

(** The memory that a reference stands for: the constant [variable] of
    [readMemoryRequest] when it is an object, and its memory when it has
    one ([typeof variable === 'object' && variable.memory]). *)
Definition attached_memory (memoryReference : string) (s : Session) : option (list byte) :=
  let variable :=
    match Number memoryReference with
    | Some n => Handles_get (_variableHandles s) n
    | None => None
    end in
  match variable with
  | Some (HVariable l) => memory (deref s l)
  | _ => None
  end.

(** [readMemoryRequest(response, { offset = 0, count, memoryReference })] *)
Definition readMemoryRequest (response : Response) (args : ReadMemoryArguments)
    (s : Session) : Session :=
  let offset := default 0 (rm_offset args) in
  let count := rm_count args in
  match attached_memory (rm_memoryReference args) s with
  | Some bytes =>
      let len := Z.of_nat (List.length bytes) in
      let memory := subarray bytes (Z.min offset len) (Z.min (offset + count) len) in
      sendResponse
        (with_body
           (ReadMemoryBody (Z_to_string offset) (fromByteArray memory)
              (count - Z.of_nat (List.length memory))) response) s
  | None =>
      sendResponse
        (with_body (ReadMemoryBody (Z_to_string offset) EmptyString count) response) s
  end.

Record SetVariableArguments := mkSetVariableArguments {
  sv_variablesReference : Z;
  sv_name : string;
  sv_value : string
}.

(** [container.value.find(v => v.name === name)] *)
Definition find_child (s : Session) (n : string) (children : list loc) : option loc :=
  List.find (fun c => String.eqb (name (deref s c)) n) children.

(** [rv.memory && rv.reference]: the length of the memory and the
    reference, when there is a memory and the reference is not zero. *)
Definition memory_and_reference (v : RuntimeVariable) : option (Z * Z) :=
  match memory v, reference v with
  | Some bytes, Some r =>
      if r =? 0 then None else Some (Z.of_nat (List.length bytes), r)
  | _, _ => None
  end.

(** The constant [rv] of [setVariableRequest]: the variable of the given
    name among the local variables or among the children of the
    container. *)
Definition named_variable (args : SetVariableArguments) (s : Session) : option loc :=
  let container := Handles_get (_variableHandles s) (Int (sv_variablesReference args)) in
  match container with
  | Some HLocals => getLocalVariable (_runtime s) (sv_name args)
  | Some (HVariable c) =>
      match value (deref s c) with
      | VArray children => find_child s (sv_name args) children
      | _ => None
      end
  | _ => None
  end.

(** [setVariableRequest(response, args)] *)
Definition setVariableRequest (response : Response) (args : SetVariableArguments)
    (s : Session) : Session :=
  match named_variable args s with
  | Some l =>
      let s := set_value l (convertToRuntime (sv_value args)) s in
      let '(dapVariable, s) := convertFromRuntime l s in
      let response := with_body (VariableBody dapVariable) response in
      let s :=
        match memory_and_reference (deref s l) with
        | Some (len, r) => sendEvent (MemoryEvent (Z_to_string r) 0 len) s
        | None => s
        end in
      sendResponse response s
  | None => sendResponse response s
  end.

Record SetExpressionArguments := mkSetExpressionArguments {
  se_expression : string;
  se_value : string
}.

(** [setExpressionRequest(response, args)] *)
Definition setExpressionRequest (response : Response) (args : SetExpressionArguments)
    (s : Session) : Session :=
  if startsWith "$" (se_expression args) then
    match getLocalVariable (_runtime s) (substr_from 1 (se_expression args)) with
    | Some l =>
        let s := set_value l (convertToRuntime (se_value args)) s in
        let '(dapVariable, s) := convertFromRuntime l s in
        sendResponse (with_body (VariableBody dapVariable) response) s
    | None =>
        sendErrorResponse response
          {| msg_id := 1002;
             msg_format := "variable '{lexpr}' not found";
             msg_variables := [("lexpr", se_expression args)];
             msg_showUser := true |} s
    end
  else
    sendErrorResponse response
      {| msg_id := 1003;
         msg_format := "'{lexpr}' not an assignable expression";
         msg_variables := [("lexpr", se_expression args)];
         msg_showUser := true |} s.

(** *** Progress *)

(** Modelled from the spec: the function [timeout] of mockRuntime.ts, a
    delay of the given number of milliseconds.  The code after the [await]
    becomes a timer of the event loop. *)
Definition timeout (ms : Z) (k : Task) (s : Session) : Session :=
  with_timers (timers s ++ [{| due := now s + ms; task := k |}])%list s.

(** [progressSequence()] up to its first [await]. *)
Definition progressSequence (s : Session) : Session :=
  let ID := EmptyString +:+ Z_to_string (_progressId s) in
  let s := with_progressId (_progressId s + 1) s in
  timeout 100 (ProgressBegin ID) s.

(** The end of [progressSequence], after its loop. *)
Definition progressSequence_end (ID endMessage : string) (s : Session) : Session :=
  let s := sendEvent (ProgressEndEvent ID endMessage) s in
  let s := sendEvent (OutputEvent ("end progress: " +:+ ID +:+ NL) "console") s in
  with_cancelledProgressId None s.

(** The test of the loop [for (let i = 0; i < 100; i++)] and, when it
    holds, the [await] that the body begins with. *)
Definition progressSequence_loop (ID : string) (i : Z) (s : Session) : Session :=
  if i <? 100 then timeout 500 (ProgressRound ID i) s
  else progressSequence_end ID "progress ended" s.

(** [progressSequence()] from one [await] to the next. *)
Definition run_task (k : Task) (s : Session) : Session :=
  match k with
  | ProgressBegin ID =>
      let title :=
        if _isProgressCancellable s then "Cancellable operation"
        else "Long running operation" in
      let startEvent := ProgressStartEvent ID title (_isProgressCancellable s) in
      let s := with_isProgressCancellable (negb (_isProgressCancellable s)) s in
      let s := sendEvent startEvent s in
      let s := sendEvent (OutputEvent ("start progress: " +:+ ID +:+ NL) "console") s in
      progressSequence_loop ID 0 s
  | ProgressRound ID i =>
      let s := sendEvent (ProgressUpdateEvent ID ("progress: " +:+ Z_to_string i)) s in
      match _cancelledProgressId s with
      | Some cancelled =>
          if String.eqb cancelled ID then
            let s := with_cancelledProgressId None s in
            let s := sendEvent (OutputEvent ("cancel progress: " +:+ ID +:+ NL) "console") s in
            progressSequence_end ID "progress cancelled" s
          else progressSequence_loop ID (i + 1) s
      | None => progressSequence_loop ID (i + 1) s
      end
  end.

Record CancelArguments := mkCancelArguments {
  requestId : option Z;
  progressId : option string
}.

(** [cancelRequest(response, args)]: a request id that is not zero and a
    progress id that is not empty are taken down; no response is sent. *)
Definition cancelRequest (response : Response) (args : CancelArguments) (s : Session) : Session :=
  let s :=
    match requestId args with
    | Some r =>
        if r =? 0 then s
        else with_cancellationTokens (<[r := true]> (_cancellationTokens s)) s
    | None => s
    end in
  match progressId args with
  | Some p =>
      if String.eqb p EmptyString then s else with_cancelledProgressId (Some p) s
  | None => s
  end.

(** *** Evaluation *)

(** The conversions of lines of the library; the constructor of the session
    has set the lines of the debugger to start at 0. *)
Definition convertClientLineToDebugger (s : Session) (line : Z) : Z :=
  if clientLinesStartAt1 s then line - 1 else line.

Definition convertDebuggerLineToClient (s : Session) (line : Z) : Z :=
  if clientLinesStartAt1 s then line + 1 else line.

(** [createSource(filePath)], for a client that takes paths as they are. *)
Definition createSource (filePath : string) : Source :=
  {| source_name := basename filePath;
     source_path := filePath;
     source_adapterData := "mock-adapter-data" |}.

Record EvaluateArguments := mkEvaluateArguments {
  ev_expression : string;
  ev_context : option string
}.

(** The case ['repl'] of the [switch] of [evaluateRequest]: the commands of
    the debug console.  Gives the reply, if there is one.  The [await] on
    the runtime is taken to complete at once. *)
Definition evaluateRequest_repl (expression : string) (s : Session) : option string * Session :=
  match exec_command "new" expression with
  | Some digits =>
      let rt := _runtime s in
      let '(mbp, rt') :=
        setBreakPoint rt (sourceFile rt)
          (convertClientLineToDebugger s (digits_value digits)) in
      let s := with_runtime rt' s in
      let bp :=
        {| bp_verified := verified mbp;
           bp_line := Some (convertDebuggerLineToClient s (line mbp));
           bp_source := Some (createSource (sourceFile rt'));
           bp_id := Some (id mbp) |} in
      (Some "breakpoint created", sendEvent (BreakpointEvent "new" bp) s)
  | None =>
      match exec_command "del" expression with
      | Some digits =>
          let rt := _runtime s in
          let '(mbp, rt') :=
            clearBreakPoint rt (sourceFile rt)
              (convertClientLineToDebugger s (digits_value digits)) in
          let s := with_runtime rt' s in
          match mbp with
          | Some m =>
              let bp :=
                {| bp_verified := false; bp_line := None; bp_source := None;
                   bp_id := Some (id m) |} in
              (Some "breakpoint deleted", sendEvent (BreakpointEvent "removed" bp) s)
          | None => (None, s)
          end
      | None =>
          if includes "progress" expression then
            if _reportProgress s then (Some "progress started", progressSequence s)
            else
              (Some "frontend doesn't support progress (capability 'supportsProgressReporting' not set)",
               s)
          else (None, s)
      end
  end.

(** [evaluateRequest(response, args)].  The case ['repl'] falls through to
    the default case. *)
Definition evaluateRequest (response : Response) (args : EvaluateArguments)
    (s : Session) : Session :=
  let expression := ev_expression args in
  let '(reply, s) :=
    match ev_context args with
    | Some context =>
        if String.eqb context "repl" then evaluateRequest_repl expression s
        else (None, s)
    | None => (None, s)
    end in
  let '(rv, s) :=
    if startsWith "$" expression then
      (getLocalVariable (_runtime s) (substr_from 1 expression), s)
    else
      let '(l, s) := alloc (newRuntimeVariable "eval" (convertToRuntime expression)) s in
      (Some l, s) in
  match rv with
  | Some l =>
      let '(v, s) := convertFromRuntime l s in
      sendResponse
        (with_body
           (EvaluateBody (var_value v) (Some (var_type v)) (var_variablesReference v)
              (var_presentationHint_lazy v)) response) s
  | None =>
      let result :=
        match reply with
        | Some text => text
        | None =>
            "evaluate(context: '" +:+ default "undefined" (ev_context args) +:+ "', '"
              +:+ expression +:+ "')"
        end in
      sendResponse (with_body (EvaluateBody result None 0 None) response) s
  end.

(** *** The custom request *)

(** [customRequest(command, response, args)]; for another command, the
    method of the base class answers with the error 1014. *)
Definition customRequest (command : string) (response : Response) (s : Session) : Session :=
  if String.eqb command "toggleFormatting" then
    let s := with_valuesInHex (negb (_valuesInHex s)) s in
    let s :=
      if _useInvalidatedEvent s then sendEvent (InvalidatedEvent ["variables"]) s
      else s in
    sendResponse response s
  else
    sendErrorResponse response
      {| msg_id := 1014; msg_format := "unrecognized request";
         msg_variables := []; msg_showUser := false |} s.

(** *** Exception filters *)

Record ExceptionFilterOptions := mkExceptionFilterOptions {
  filterId : string;
  condition : option string
}.

Record SetExceptionBreakpointsArguments := mkSetExceptionBreakpointsArguments {
  filters : option (list string);
  filterOptions : option (list ExceptionFilterOptions)
}.

(** One turn of the loop over [args.filterOptions], on the variables
    [namedException] and [otherExceptions]; [first] is
    [args.filterOptions[0]]. *)
Definition exception_filter_step (first : option ExceptionFilterOptions)
    (found : option string * bool) (filterOption : ExceptionFilterOptions)
    : option string * bool :=
  let '(namedException, otherExceptions) := found in
  if String.eqb (filterId filterOption) "namedException" then
    (match first with
     | Some option0 => condition option0
     | None => None
     end, otherExceptions)
  else if String.eqb (filterId filterOption) "otherExceptions" then (namedException, true)
  else found.

(** [setExceptionBreakPointsRequest(response, args)].  The method
    [setExceptionsFilters] of the runtime is not among the sources; the
    result gives the two arguments of its call. *)
Definition setExceptionBreakPointsRequest (response : Response)
    (args : SetExceptionBreakpointsArguments) (s : Session)
    : (option string * bool) * Session :=
  let found := (None, false) in
  let found :=
    match filterOptions args with
    | Some options => fold_left (exception_filter_step (head options)) options found
    | None => found
    end in
  let found :=
    match filters args with
    | Some ids =>
        if existsb (String.eqb "otherExceptions") ids then (fst found, true) else found
    | None => found
    end in
  (found, sendResponse response s).

(** *** Disassembly *)

(** An instruction as [this._runtime.disassemble] gives it, with the
    properties that [disassembleRequest] reads. *)
Record RuntimeInstruction := mkRuntimeInstruction {
  ri_address : Z;
  ri_instruction : string;
  ri_line : option Z
}.

Record DisassembledInstruction := mkDisassembledInstruction {
  di_address : string;
  di_instruction : string;
  di_location : option Source;
  di_line : option Z
}.

(** [text.padStart(n, '0')] *)
Definition padStart0 (n : Z) (text : string) : string :=
  zeros (Z.to_nat (n - str_length text)) +:+ text.

(** The function that [disassembleRequest] maps over the instructions of
    the runtime.  It reads and writes the variable [lastLine]; the result
    has the new value of that variable. *)
Definition disassembled (s : Session) (isHex : bool) (pad : Z) (loc : Source)
    (lastLine : Z) (instruction : RuntimeInstruction) : Z * DisassembledInstruction :=
  let address :=
    padStart0 pad
      (toString (if isHex then 16 else 10) (Int (Z.abs (ri_address instruction)))) in
  let sign := if ri_address instruction <? 0 then "-" else EmptyString in
  let text := sign +:+ (if isHex then "0x" +:+ address else address) in
  match ri_line instruction with
  | Some line =>
      if lastLine =? line then
        (lastLine, mkDisassembledInstruction text (ri_instruction instruction) None None)
      else
        (line,
         mkDisassembledInstruction text (ri_instruction instruction) (Some loc)
           (Some (convertDebuggerLineToClient s line)))
  | None =>
      (lastLine, mkDisassembledInstruction text (ri_instruction instruction) None None)
  end.

Fixpoint disassembled_all (s : Session) (isHex : bool) (pad : Z) (loc : Source)
    (lastLine : Z) (instructions : list RuntimeInstruction)
    : list DisassembledInstruction :=
  match instructions with
  | [] => []
  | instruction :: rest =>
      let '(lastLine, instr) := disassembled s isHex pad loc lastLine instruction in
      instr :: disassembled_all s isHex pad loc lastLine rest
  end.

(** [disassembleRequest(response, args)]: the instructions of the body of
    the response, for the instructions that the runtime gives for the
    address and the count of the request.  The method [disassemble] of the
    runtime is not among the sources, so that its result is an argument
    here. *)
Definition disassembleRequest_instructions (memoryReference : string)
    (instructions : list RuntimeInstruction) (s : Session)
    : list DisassembledInstruction :=
  let memoryInt := substr_from 3 memoryReference in
  let isHex := startsWith "0x" memoryInt in
  let pad := if isHex then str_length memoryInt - 2 else str_length memoryInt in
  let loc := createSource (sourceFile (_runtime s)) in
  disassembled_all s isHex pad loc (-1) instructions.

(** *** Data breakpoints *)

Record DataBreakpointInfoArguments := mkDataBreakpointInfoArguments {
  dbi_variablesReference : option Z;
  dbi_name : string
}.

Record DataBreakpointInfo := mkDataBreakpointInfo {
  dataId : option string;
  description : string;
  accessTypes : option (list string);
  canPersist : bool
}.

(** [args.variablesReference && args.name]: there is a reference that is
    not 0, and the name is not empty. *)
Definition names_data (args : DataBreakpointInfoArguments) : bool :=
  match dbi_variablesReference args with
  | Some r => negb (r =? 0)
  | None => false
  end
  && negb (String.eqb (dbi_name args) EmptyString).

(** [dataBreakpointInfoRequest(response, args)]: the body that the response
    gets before it is sent. *)
Definition dataBreakpointInfoRequest_body (args : DataBreakpointInfoArguments)
    (s : Session) : DataBreakpointInfo :=
  if names_data args then
    let v :=
      match dbi_variablesReference args with
      | Some r => Handles_get (_variableHandles s) (Int r)
      | None => None
      end in
    match v with
    | Some HGlobals =>
        mkDataBreakpointInfo (Some (dbi_name args)) (dbi_name args) (Some ["write"]) true
    | _ =>
        mkDataBreakpointInfo (Some (dbi_name args)) (dbi_name args)
          (Some ["read"; "write"; "readWrite"]) true
    end
  else mkDataBreakpointInfo None "cannot break on data access" None false.

(** ** The session in its environment *)

(** The requests of the client that are embedded. *)
Inductive Request :=
| Initialize (args : InitializeRequestArguments)
| ConfigurationDone
| Disconnect
| Launch (args : json)
| Attach (args : json)
| SetBreakpoints (args : json)
| Threads
| StackTrace (args : json)
| Scopes (args : json)
| Variables (args : json)
| Continue (args : json)
| Next (args : json)
| StepIn (args : json)
| StepOut (args : json)
| ReadMemory (args : ReadMemoryArguments)
| SetVariable (args : SetVariableArguments)
| Evaluate (args : EvaluateArguments)
| SetExpression (args : SetExpressionArguments)
| Cancel (args : CancelArguments)
| Custom (command : string).

Definition command_of (r : Request) : string :=
  match r with
  | Initialize _ => "initialize"
  | ConfigurationDone => "configurationDone"
  | Disconnect => "disconnect"
  | Launch _ => "launch"
  | Attach _ => "attach"
  | SetBreakpoints _ => "setBreakpoints"
  | Threads => "threads"
  | StackTrace _ => "stackTrace"
  | Scopes _ => "scopes"
  | Variables _ => "variables"
  | Continue _ => "continue"
  | Next _ => "next"
  | StepIn _ => "stepIn"
  | StepOut _ => "stepOut"
  | ReadMemory _ => "readMemory"
  | SetVariable _ => "setVariable"
  | Evaluate _ => "evaluate"
  | SetExpression _ => "setExpression"
  | Cancel _ => "cancel"
  | Custom command => command
  end.

(** [dispatchRequest(request)] of the library: it creates the response of
    the request, notes for [initialize] where the lines of the client
    start, and calls the handler. *)
Definition dispatchRequest (seq : Z) (r : Request) (s : Session) : Session :=
  let response := newResponse seq (command_of r) in
  match r with
  | Initialize args =>
      let s :=
        match linesStartAt1 args with
        | Some b => with_clientLinesStartAt1 b s
        | None => s
        end in
      initializeRequest response args s
  | ConfigurationDone => configurationDoneRequest response s
  | Disconnect => disconnectRequest response s
  | Launch args => launchRequest response args s
  | Attach args => attachRequest response args s
  | SetBreakpoints args => setBreakPointsRequest response args s
  | Threads => threadsRequest response s
  | StackTrace args => stackTraceRequest response args s
  | Scopes args => scopesRequest response args s
  | Variables args => variablesRequest response args s
  | Continue args => continueRequest response args s
  | Next args => nextRequest response args s
  | StepIn args => stepInRequest response args s
  | StepOut args => stepOutRequest response args s
  | ReadMemory args => readMemoryRequest response args s
  | SetVariable args => setVariableRequest response args s
  | Evaluate args => evaluateRequest response args s
  | SetExpression args => setExpressionRequest response args s
  | Cancel args => cancelRequest response args s
  | Custom command => customRequest command response s
  end.

(** What can happen to the session: a request of the client; data on a
    stream of the backend; the end of the backend; the timeout of a waiter
    or a timer fires; time passes. *)
Inductive Input :=
| FromClient (seq : Z) (r : Request)
| BackendStderr (data : string)
| BackendStdout (data : string)
| BackendClose (code : option Z)
| WaitTimesOut (n : nat)
| TimerFires (n : nat)
| TimePasses (t : Z).

(** The times at which something is due. *)
Definition pending (s : Session) : list Z :=
  (map deadline (waiters (_configurationDone s)) ++ map due (timers s))%list.

(** One turn of the event loop; [None] when the input cannot happen in the
    state.  A timeout fires once its time has come, and the clock does not
    go past a time at which something is still due.  An exception that
    leaves the listener of the error stream ends this turn only. *)
Definition step (i : Input) (s : Session) : option Session :=
  match i with
  | FromClient seq r => Some (dispatchRequest seq r s)
  | BackendStderr data => Some (snd (onStderrData data s))
  | BackendStdout data => Some (onStdoutData data s)
  | BackendClose code => Some (onClose code s)
  | WaitTimesOut n =>
      let sub := _configurationDone s in
      match waiters sub !! n with
      | Some w =>
          if deadline w <=? now s then
            Some (launchRequest_resume (resume w)
                    (with_configurationDone
                       {| waiters := delete n (waiters sub); notified := notified sub |} s))
          else None
      | None => None
      end
  | TimerFires n =>
      match timers s !! n with
      | Some t =>
          if due t <=? now s then
            Some (run_task (task t) (with_timers (delete n (timers s)) s))
          else None
      | None => None
      end
  | TimePasses t =>
      if (now s <=? t) && forallb (fun d => t <=? d) (pending s) then Some (with_now t s)
      else None
  end.

Fixpoint run (inputs : list Input) (s : Session) : option Session :=
  match inputs with
  | [] => Some s
  | i :: rest =>
      match step i s with
      | Some s' => run rest s'
      | None => None
      end
  end.

(** Modelled from the spec: the state of a [MockRuntime] that has just been
    constructed, without source file, variables or breakpoints; the ids of
    breakpoints start at 1. *)
Definition newMockRuntime : MockRuntime :=
  {| sourceFile := EmptyString; variables := ∅; breakPoints := ∅; breakpointId := 1 |}.

(** The session as its constructor and its field initializers leave it, at
    time 0. *)
Definition newSession : Session :=
  {| _runtime := newMockRuntime;
     heap := ∅;
     nextLoc := 1%positive;
     _variableHandles := newHandles;
     _configurationDone := newSubject;
     _launchDone := newSubject;
     _cancellationTokens := ∅;
     _reportProgress := false;
     _progressId := 10000;
     _cancelledProgressId := None;
     _isProgressCancellable := true;
     _valuesInHex := false;
     _useInvalidatedEvent := false;
     ringRdbProcess := None;
     clientLinesStartAt1 := true;
     now := 0;
     timers := [];
     toClient := [];
     toBackend := [] |}.

(** * Properties *)

(** ** What a handler leaves alone *)

(** Most handlers only add messages for the client, lines for the backend
    and timers that are not due before now.  [advance P s s'] says that [s']
    is [s] after such additions: the new messages for the client all
    satisfy [P], the two subjects and the clock are the same, and a
    backend process that was there still is. *)
Record advance (P : Sent -> Prop) (s s' : Session) : Prop := mkAdvance {
  adv_toClient : exists new, toClient s' = (toClient s ++ new)%list /\ Forall P new;
  adv_configurationDone : _configurationDone s' = _configurationDone s;
  adv_launchDone : _launchDone s' = _launchDone s;
  adv_now : now s' = now s;
  adv_process : is_Some (ringRdbProcess s) -> is_Some (ringRdbProcess s');
  adv_toBackend : exists lines, toBackend s' = (toBackend s ++ lines)%list;
  adv_timers :
    exists new, timers s' = (timers s ++ new)%list /\ Forall (fun t => now s <= due t) new
}.

Create HintDb advance.

Section Advance.

Variable P : Sent -> Prop.

Lemma advance_refl (s : Session) : advance P s s.
Proof.
  split; try reflexivity; try (intros H; exact H).
  - exists []. rewrite app_nil_r. split; [reflexivity | constructor].
  - exists []. rewrite app_nil_r. reflexivity.
  - exists []. rewrite app_nil_r. split; [reflexivity | constructor].
Qed.

Lemma advance_trans (s1 s2 s3 : Session) :
  advance P s1 s2 -> advance P s2 s3 -> advance P s1 s3.
Proof.
  intros [(n1 & E1 & F1) C1 L1 N1 R1 (b1 & B1) (t1 & T1 & G1)]
         [(n2 & E2 & F2) C2 L2 N2 R2 (b2 & B2) (t2 & T2 & G2)].
  split.
  - exists (n1 ++ n2)%list. rewrite E2, E1, <- app_assoc.
    split; [reflexivity | apply Forall_app; auto].
  - congruence.
  - congruence.
  - congruence.
  - auto.
  - exists (b1 ++ b2)%list. rewrite B2, B1, <- app_assoc. reflexivity.
  - exists (t1 ++ t2)%list. rewrite T2, T1, <- app_assoc.
    split; [reflexivity|]. apply Forall_app. split; [exact G1|].
    rewrite N1 in G2. exact G2.
Qed.

(** One message more for the client. *)
Lemma advance_send (m : Sent) (s0 s : Session) :
  P m -> advance P s0 s ->
  advance P s0 (with_toClient (toClient s ++ [m])%list s).
Proof.
  intros Hm H. eapply advance_trans; [exact H|].
  split; try reflexivity; try (intros X; exact X).
  - exists [m]. split; [reflexivity | constructor; [exact Hm | constructor]].
  - exists []. rewrite app_nil_r. reflexivity.
  - exists []. rewrite app_nil_r. split; [reflexivity | constructor].
Qed.

Lemma advance_sendEvent e s0 s :
  P (SendEvent e) -> advance P s0 s -> advance P s0 (sendEvent e s).
Proof. apply advance_send. Qed.

Lemma advance_sendProxiedEvent e s0 s :
  P (SendProxiedEvent e) -> advance P s0 s -> advance P s0 (sendProxiedEvent e s).
Proof. apply advance_send. Qed.

Lemma advance_sendResponse r s0 s :
  P (SendResponse r) -> advance P s0 s -> advance P s0 (sendResponse r s).
Proof. apply advance_send. Qed.

Lemma advance_sendProxiedResponse r s0 s :
  P (SendProxiedResponse r) -> advance P s0 s -> advance P s0 (sendProxiedResponse r s).
Proof. apply advance_send. Qed.

Lemma advance_sendErrorResponse r msg s0 s :
  P (SendErrorResponse r msg) -> advance P s0 s ->
  advance P s0 (sendErrorResponse r msg s).
Proof. apply advance_send. Qed.

(** The fields that [advance] does not look at. *)
Lemma advance_with_runtime x s0 s :
  advance P s0 s -> advance P s0 (with_runtime x s).
Proof. intros []. split; assumption. Qed.

Lemma advance_with_heap x s0 s :
  advance P s0 s -> advance P s0 (with_heap x s).
Proof. intros []. split; assumption. Qed.

Lemma advance_with_nextLoc x s0 s :
  advance P s0 s -> advance P s0 (with_nextLoc x s).
Proof. intros []. split; assumption. Qed.

Lemma advance_with_variableHandles x s0 s :
  advance P s0 s -> advance P s0 (with_variableHandles x s).
Proof. intros []. split; assumption. Qed.

Lemma advance_with_cancellationTokens x s0 s :
  advance P s0 s -> advance P s0 (with_cancellationTokens x s).
Proof. intros []. split; assumption. Qed.

Lemma advance_with_reportProgress x s0 s :
  advance P s0 s -> advance P s0 (with_reportProgress x s).
Proof. intros []. split; assumption. Qed.

Lemma advance_with_progressId x s0 s :
  advance P s0 s -> advance P s0 (with_progressId x s).
Proof. intros []. split; assumption. Qed.

Lemma advance_with_cancelledProgressId x s0 s :
  advance P s0 s -> advance P s0 (with_cancelledProgressId x s).
Proof. intros []. split; assumption. Qed.

Lemma advance_with_isProgressCancellable x s0 s :
  advance P s0 s -> advance P s0 (with_isProgressCancellable x s).
Proof. intros []. split; assumption. Qed.

Lemma advance_with_valuesInHex x s0 s :
  advance P s0 s -> advance P s0 (with_valuesInHex x s).
Proof. intros []. split; assumption. Qed.

Lemma advance_with_useInvalidatedEvent x s0 s :
  advance P s0 s -> advance P s0 (with_useInvalidatedEvent x s).
Proof. intros []. split; assumption. Qed.

Lemma advance_with_clientLinesStartAt1 x s0 s :
  advance P s0 s -> advance P s0 (with_clientLinesStartAt1 x s).
Proof. intros []. split; assumption. Qed.

(** A new timer, a new line for the backend, a new backend. *)
Lemma advance_timeout ms k s0 s :
  0 <= ms -> advance P s0 s -> advance P s0 (timeout ms k s).
Proof.
  intros Hms H. eapply advance_trans; [exact H|].
  split; try reflexivity; try (intros X; exact X).
  - exists []. rewrite app_nil_r. split; [reflexivity | constructor].
  - exists []. rewrite app_nil_r. reflexivity.
  - eexists. split; [reflexivity|]. constructor; [cbn; lia | constructor].
Qed.

Lemma advance_sendRingRdbDapMessage message s0 s :
  advance P s0 s -> advance P s0 (sendRingRdbDapMessage message s).
Proof.
  intros H. eapply advance_trans; [exact H|].
  unfold sendRingRdbDapMessage. destruct (ringRdbProcess s) eqn:E.
  - split; try reflexivity; try (intros X; exact X).
    + exists []. rewrite app_nil_r. split; [reflexivity | constructor].
    + eexists. reflexivity.
    + exists []. rewrite app_nil_r. split; [reflexivity | constructor].
  - apply advance_refl.
Qed.

Lemma advance_newRdbProcess s0 s :
  advance P s0 s -> advance P s0 (newRdbProcess s).
Proof.
  intros H. eapply advance_trans; [exact H|].
  split; try reflexivity.
  - exists []. rewrite app_nil_r. split; [reflexivity | constructor].
  - intros _. eexists. reflexivity.
  - exists []. rewrite app_nil_r. reflexivity.
  - exists []. rewrite app_nil_r. split; [reflexivity | constructor].
Qed.

End Advance.

#[export] Hint Resolve advance_refl advance_sendEvent advance_sendProxiedEvent
  advance_sendResponse advance_sendProxiedResponse advance_sendErrorResponse
  advance_with_runtime advance_with_heap advance_with_nextLoc
  advance_with_variableHandles advance_with_cancellationTokens
  advance_with_reportProgress advance_with_progressId
  advance_with_cancelledProgressId advance_with_isProgressCancellable
  advance_with_valuesInHex advance_with_useInvalidatedEvent
  advance_with_clientLinesStartAt1 advance_timeout advance_sendRingRdbDapMessage
  advance_newRdbProcess : advance.

#[export] Hint Extern 1 (_ <= _) => lia : advance.

(** Takes apart the equations that say what a function returns, case by
    case. *)
Ltac result_cases :=
  repeat match goal with
    | H : (let '(_, _) := ?e in _) = _ |- _ => destruct e as [? ?] eqn:?
    | H : match ?e with _ => _ end = _ |- _ => destruct e eqn:?
    end.

(** Takes apart the state that a handler computes, case by case. *)
Ltac advance_cases :=
  repeat match goal with
    | |- advance _ _ (let '(_, _) := ?e in _) => destruct e as [? ?] eqn:?
    | |- advance _ _ (snd (let '(_, _) := ?e in _)) => destruct e as [? ?] eqn:?
    | |- advance _ _ (match ?e with _ => _ end) => destruct e eqn:?
    | |- advance _ _ (snd (match ?e with _ => _ end)) => destruct e eqn:?
    | |- advance _ _ (snd (_, _)) => cbn [snd]
    | |- advance _ _ ?t =>
        match t with
        | context [match ?e with _ => _ end] => destruct e eqn:?
        end
    end.



Section AdvanceHandlers.

Variable P : Sent -> Prop.
Hypothesis P_event : forall e, P (SendEvent e).
Hypothesis P_response : forall r, P (SendResponse r).

Local Hint Resolve P_event P_response : advance.

Lemma advance_alloc v s l s' s0 :
  alloc v s = (l, s') -> advance P s0 s -> advance P s0 s'.
Proof. unfold alloc. intros [= <- <-] H. auto with advance. Qed.

Lemma advance_set_value l x s s0 :
  advance P s0 s -> advance P s0 (set_value l x s).
Proof. unfold set_value. auto with advance. Qed.

Lemma advance_set_reference l r s s0 :
  advance P s0 s -> advance P s0 (set_reference l r s).
Proof. unfold set_reference. auto with advance. Qed.

Lemma advance_create_handle l s h s' s0 :
  create_handle l s = (h, s') -> advance P s0 s -> advance P s0 s'.
Proof. unfold create_handle, Handles_create. intros [= <- <-] H. auto with advance. Qed.

Local Hint Resolve advance_alloc advance_set_value advance_set_reference
  advance_create_handle : advance.

Lemma advance_reference_or_create l s r s' s0 :
  reference_or_create l s = (r, s') -> advance P s0 s -> advance P s0 s'.
Proof.
  unfold reference_or_create. intros E H.
  destruct (reference (deref s l)); [injection E as <- <-; exact H|].
  destruct (create_handle l s) as [h s1] eqn:E1. injection E as <- <-.
  eauto with advance.
Qed.

Lemma advance_reference_or_create_lazy l s r s' s0 :
  reference_or_create_lazy l s = (r, s') -> advance P s0 s -> advance P s0 s'.
Proof.
  unfold reference_or_create_lazy. intros E H.
  destruct (reference (deref s l)); [injection E as <- <-; exact H|].
  destruct (alloc _ s) as [inner s1] eqn:E1.
  destruct (alloc _ s1) as [outer s2] eqn:E2.
  destruct (create_handle outer s2) as [h s3] eqn:E3. injection E as <- <-.
  eauto 6 with advance.
Qed.

Local Hint Resolve advance_reference_or_create advance_reference_or_create_lazy : advance.

Lemma advance_convertFromRuntime l s v s' s0 :
  convertFromRuntime l s = (v, s') -> advance P s0 s -> advance P s0 s'.
Proof.
  unfold convertFromRuntime. intros E H.
  result_cases; simplify_eq; eauto 6 with advance.
Qed.

Lemma advance_progressSequence s s0 :
  advance P s0 s -> advance P s0 (progressSequence s).
Proof. unfold progressSequence. auto with advance. Qed.

Lemma advance_progressSequence_end ID m s s0 :
  advance P s0 s -> advance P s0 (progressSequence_end ID m s).
Proof. unfold progressSequence_end. auto 6 with advance. Qed.

Local Hint Resolve advance_convertFromRuntime advance_progressSequence
  advance_progressSequence_end : advance.

Lemma advance_progressSequence_loop ID i s s0 :
  advance P s0 s -> advance P s0 (progressSequence_loop ID i s).
Proof. unfold progressSequence_loop. destruct (i <? 100); auto with advance. Qed.

Local Hint Resolve advance_progressSequence_loop : advance.

Lemma advance_run_task k s s0 :
  advance P s0 s -> advance P s0 (run_task k s).
Proof.
  unfold run_task. intros H. advance_cases; auto 8 with advance.
Qed.

Lemma advance_evaluateRequest_repl e s reply s' s0 :
  evaluateRequest_repl e s = (reply, s') -> advance P s0 s -> advance P s0 s'.
Proof.
  unfold evaluateRequest_repl. intros E H.
  result_cases; simplify_eq; auto 6 with advance.
Qed.

Local Hint Resolve advance_evaluateRequest_repl : advance.

Lemma advance_evaluateRequest r args s : advance P s (evaluateRequest r args s).
Proof.
  unfold evaluateRequest. advance_cases; result_cases; simplify_eq; eauto 8 with advance.
Qed.

Lemma advance_readMemoryRequest r args s : advance P s (readMemoryRequest r args s).
Proof. unfold readMemoryRequest. advance_cases; auto with advance. Qed.

Lemma advance_setVariableRequest r args s : advance P s (setVariableRequest r args s).
Proof.
  unfold setVariableRequest. advance_cases; result_cases; simplify_eq; eauto 8 with advance.
Qed.

Lemma advance_cancelRequest r args s : advance P s (cancelRequest r args s).
Proof. unfold cancelRequest. advance_cases; auto with advance. Qed.

Lemma advance_onStdoutData data s : advance P s (onStdoutData data s).
Proof. unfold onStdoutData. auto with advance. Qed.

Lemma advance_onClose code s : advance P s (onClose code s).
Proof. unfold onClose. advance_cases; auto with advance. Qed.

Lemma advance_initializeRequest r args s : advance P s (initializeRequest r args s).
Proof. unfold initializeRequest. advance_cases; auto 8 with advance. Qed.

Hypothesis P_error : forall r m, P (SendErrorResponse r m).

Local Hint Resolve P_error : advance.

Lemma advance_setExpressionRequest r args s : advance P s (setExpressionRequest r args s).
Proof.
  unfold setExpressionRequest. advance_cases; result_cases; simplify_eq; eauto 8 with advance.
Qed.

Lemma advance_customRequest c r s : advance P s (customRequest c r s).
Proof. unfold customRequest. advance_cases; auto 8 with advance. Qed.

Hypothesis P_proxied_event : forall e, P (SendProxiedEvent e).
Hypothesis P_proxied_response : forall r, P (SendProxiedResponse r).

Local Hint Resolve P_proxied_event P_proxied_response : advance.

Lemma advance_handleRingRdbDapOneMessage data s :
  advance P s (snd (handleRingRdbDapOneMessage data s)).
Proof.
  unfold handleRingRdbDapOneMessage. advance_cases; auto 8 with advance.
Qed.

Lemma advance_handleRingRdbDapMessage data s :
  advance P s (snd (handleRingRdbDapMessage data s)).
Proof.
  unfold handleRingRdbDapMessage. generalize (split LF data). intros lines.
  revert s. induction lines as [|line rest IH]; intros s; cbn [handle_lines].
  - apply advance_refl.
  - destruct (0 <? str_length line); [|apply IH].
    pose proof (advance_handleRingRdbDapOneMessage line s) as H.
    destruct (handleRingRdbDapOneMessage line s) as [[|e] s1]; cbn [snd] in *.
    + eapply advance_trans; [exact H | apply IH].
    + exact H.
Qed.

End AdvanceHandlers.

(** ** The coercion of strings *)

Section Coercion.

(** The text without its first and its last character. *)
Fixpoint without_last (s : string) : string :=
  match s with
  | EmptyString => EmptyString
  | String c EmptyString => EmptyString
  | String c r => String c (without_last r)
  end.

Definition without_first_and_last (s : string) : string :=
  match s with
  | EmptyString => EmptyString
  | String _ r => without_last r
  end.

(** The text starts with a single or a double quote. *)
Definition quoted (s : string) : Prop :=
  exists c r, s = String c r /\ (c = SQ \/ c = DQ).

Lemma substring_without_last (r : string) :
  String.substring 0 (String.length r - 1) r = without_last r.
Proof.
  induction r as [|c r IH]; [reflexivity|].
  destruct r as [|c' r']; [reflexivity|].
  set (t := String c' r') in *.
  replace (String.length (String c t) - 1)%nat with (S (String.length t - 1))
    by (subst t; cbn [String.length]; lia).
  cbn [String.substring]. rewrite IH. reflexivity.
Qed.

Lemma substr_first_last (v : string) :
  substr 1 (str_length v - 2) v = without_first_and_last v.
Proof.
  destruct v as [|c r]; [reflexivity|].
  unfold substr, str_length. cbn [String.length without_first_and_last].
  destruct (Z.of_nat (S (String.length r)) - 2 <=? 0) eqn:E.
  - apply Z.leb_le in E.
    destruct r as [|c1 [|c2 r]]; [reflexivity | reflexivity |].
    cbn [String.length] in E. lia.
  - apply Z.leb_gt in E. cbn [String.substring].
    replace (Z.to_nat (Z.of_nat (S (String.length r)) - 2))
      with (String.length r - 1)%nat by lia.
    destruct (String.length r - 1)%nat eqn:L; [lia|].
    rewrite <- L. apply substring_without_last.
Qed.

Lemma trim_end_idempotent (s : string) : trim_end (trim_end s) = trim_end s.
Proof.
  induction s as [|c r IH]; [reflexivity|].
  cbn [trim_end]. destruct (trim_end r) as [|c' r'] eqn:E.
  - destruct (is_space c) eqn:Hc; [reflexivity|].
    unfold str1. cbn [trim_end]. rewrite Hc. reflexivity.
  - cbn [trim_end]. cbn [trim_end] in IH.
    destruct r' as [|c'' r''].
    + destruct (is_space c') eqn:Hc'; [discriminate IH|]. reflexivity.
    + rewrite IH. reflexivity.
Qed.

Lemma trim_start_head (s : string) :
  trim_start s = EmptyString \/
  exists c r, trim_start s = String c r /\ is_space c = false.
Proof.
  induction s as [|c r IH]; [left; reflexivity|].
  cbn [trim_start]. destruct (is_space c) eqn:Hc; [exact IH|].
  right. exists c, r. split; [reflexivity | exact Hc].
Qed.

Lemma trim_idempotent (s : string) : trim (trim s) = trim s.
Proof.
  unfold trim.
  destruct (trim_start_head s) as [E | (c & r & E & Hc)]; rewrite E.
  - reflexivity.
  - assert (H : trim_start (trim_end (String c r)) = trim_end (String c r)).
    { cbn [trim_end]. destruct (trim_end r); [rewrite Hc|];
        cbn [str1 trim_start]; rewrite Hc; reflexivity. }
    rewrite H. apply trim_end_idempotent.
Qed.

End Coercion.

(** C7.  [convertToRuntime] is a function of the trimmed text and follows
    this precedence: the literal [true] or [false] gives the boolean; a text
    that starts with a single or a double quote gives the string without
    its first and its last character; otherwise a text of which
    [parseFloat] makes a number gives that number; otherwise the text
    itself is the result. *)
Theorem convertToRuntime_precedence (value : string) :
  let v := trim value in
  convertToRuntime value = convertToRuntime v /\
  (v = "true" -> convertToRuntime value = VBoolean true) /\
  (v = "false" -> convertToRuntime value = VBoolean false) /\
  (quoted v -> convertToRuntime value = VString (without_first_and_last v)) /\
  (v <> "true" -> v <> "false" -> ~ quoted v ->
   forall n, parseFloat v = Some n -> convertToRuntime value = VNumber n) /\
  (v <> "true" -> v <> "false" -> ~ quoted v ->
   parseFloat v = None -> convertToRuntime value = VString v).
Proof.
  intros v. subst v. unfold convertToRuntime. rewrite trim_idempotent.
  set (v := trim value).
  split; [reflexivity|].
  split; [intros ->; reflexivity|].
  split; [intros ->; reflexivity|].
  split.
  - intros (c & r & -> & Hc). rewrite substr_first_last.
    destruct Hc as [-> | ->]; reflexivity.
  - assert (Hq : ~ quoted v ->
              match char_at v 0 with
              | Some c => Ascii.eqb c SQ || Ascii.eqb c DQ
              | None => false
              end = false).
    { intros Hn. destruct v as [|c r]; [reflexivity|].
      cbn [char_at String.get].
      destruct (Ascii.eqb c SQ) eqn:E1.
      - apply Ascii.eqb_eq in E1. exfalso. apply Hn. exists c, r. auto.
      - destruct (Ascii.eqb c DQ) eqn:E2; [|reflexivity].
        apply Ascii.eqb_eq in E2. exfalso. apply Hn. exists c, r. auto. }
    split; intros Ht Hf Hn.
    + intros n Hp. apply String.eqb_neq in Ht, Hf.
      rewrite Ht, Hf, (Hq Hn), Hp. reflexivity.
    + intros Hp. apply String.eqb_neq in Ht, Hf.
      rewrite Ht, Hf, (Hq Hn), Hp. reflexivity.
Qed.

Lemma not_quoted_head (c : ascii) (r : string) :
  c <> SQ -> c <> DQ -> ~ quoted (String c r).
Proof.
  intros H1 H2 (c' & r' & E & Hc). injection E as -> _.
  destruct Hc; contradiction.
Qed.

Lemma convertToRuntime_precedence_witness :
  convertToRuntime " true " = VBoolean true /\
  convertToRuntime "false" = VBoolean false /\
  convertToRuntime " 'abc' " = VString "abc" /\
  convertToRuntime "12.5" = VNumber (Dec 125 1) /\
  convertToRuntime "new 5" = VString "new 5".
Proof.
  split; [|split; [|split; [|split]]].
  - apply (convertToRuntime_precedence " true "). reflexivity.
  - apply (convertToRuntime_precedence "false"). reflexivity.
  - apply (convertToRuntime_precedence " 'abc' "). exists SQ, "abc'". auto.
  - apply (convertToRuntime_precedence "12.5");
      [discriminate | discriminate | apply not_quoted_head; discriminate | reflexivity].
  - apply (convertToRuntime_precedence "new 5");
      [discriminate | discriminate | apply not_quoted_head; discriminate | reflexivity].
Defined.

(** ** The display of integers *)

(** C8.  [toggleFormatting] flips the flag of the hexadecimal display, so
    that two calls give every number the text it had; a call answers the
    request and, when the flag [_useInvalidatedEvent] is set, sends the
    event [invalidated] for the variables before; and [initialize] sets
    that flag for a client that supports the event. *)
Theorem toggleFormatting_twice (r1 r2 : Response) (s : Session) (x : number) :
  let s1 := customRequest "toggleFormatting" r1 s in
  let s2 := customRequest "toggleFormatting" r2 s1 in
  let invalidated (s : Session) :=
    if _useInvalidatedEvent s then [SendEvent (InvalidatedEvent ["variables"])] else [] in
  _valuesInHex s1 = negb (_valuesInHex s) /\
  formatNumber s1 x =
    (if _valuesInHex s then toString 10 x else "0x" +:+ toString 16 x) /\
  _valuesInHex s2 = _valuesInHex s /\
  formatNumber s2 x = formatNumber s x /\
  toClient s1 = (toClient s ++ invalidated s ++ [SendResponse r1])%list /\
  toClient s2 = (toClient s1 ++ invalidated s ++ [SendResponse r2])%list /\
  (forall seq args s0, supportsInvalidatedEvent args = true ->
     _useInvalidatedEvent (dispatchRequest seq (Initialize args) s0) = true).
Proof.
  cbv zeta. repeat split.
  1-6: destruct s as [? ? ? ? ? ? ? ? ? ? ? hex inv ? ? ? ? ? ?];
    destruct hex, inv; cbn; rewrite <- ?app_assoc; reflexivity.
  intros seq args s0 H. cbn. unfold initializeRequest. rewrite H.
  destruct (linesStartAt1 args), (supportsProgressReporting args); reflexivity.
Qed.

Lemma toggleFormatting_twice_witness :
  let s0 :=
    dispatchRequest 1 (Initialize (mkInitializeArguments false true None)) newSession in
  let s1 := dispatchRequest 2 (Custom "toggleFormatting") s0 in
  let s2 := dispatchRequest 3 (Custom "toggleFormatting") s1 in
  formatNumber s0 (Int 255) = "255" /\
  formatNumber s1 (Int 255) = "0xff" /\
  formatNumber s2 (Int 255) = "255" /\
  toClient s1
    = (toClient s0 ++ [SendEvent (InvalidatedEvent ["variables"]);
                       SendResponse (newResponse 2 "toggleFormatting")])%list.
Proof.
  cbv zeta.
  destruct (toggleFormatting_twice (newResponse 2 "toggleFormatting")
              (newResponse 3 "toggleFormatting")
              (dispatchRequest 1 (Initialize (mkInitializeArguments false true None))
                 newSession) (Int 255)) as (_ & H1 & _ & H2 & H3 & _ & H4).
  split; [reflexivity|]. split; [exact H1|].
  split; [etransitivity; [exact H2 | reflexivity]|].
  rewrite (H4 1 (mkInitializeArguments false true None) newSession eq_refl) in H3.
  exact H3.
Defined.

(** ** The sequence numbers of forwarded messages *)

Section Forwarding.

Lemma lookup_assign_same k v fields :
  lookup_field k (assign_field k v fields) = Some v.
Proof.
  induction fields as [|[k' v'] rest IH]; cbn.
  - rewrite String.eqb_refl. reflexivity.
  - destruct (String.eqb k k') eqn:E; cbn; rewrite ?String.eqb_refl, ?E; auto.
Qed.

Lemma lookup_assign_other k k' v fields :
  k <> k' -> lookup_field k' (assign_field k v fields) = lookup_field k' fields.
Proof.
  intros Hne. induction fields as [|[k1 v1] rest IH]; cbn.
  - destruct (String.eqb_spec k' k); [congruence | reflexivity].
  - destruct (String.eqb_spec k k1) as [->|Hk]; cbn.
    + destruct (String.eqb_spec k' k1); [congruence | reflexivity].
    + destruct (String.eqb_spec k' k1); [reflexivity | exact IH].
Qed.

(** Only an object has properties. *)
Lemma prop_of_object o k v :
  prop_of o k = Some v -> exists fields, o = JObject fields.
Proof. destruct o; try discriminate. eauto. Qed.

Lemma is_string_true x text :
  is_string x text = true -> x = Some (JString text).
Proof.
  destruct x as [[]|]; try discriminate. cbn.
  intros H. apply String.eqb_eq in H. congruence.
Qed.

(** The message with the sequence number 0. *)
Definition seq0 (msg : json) : json := assign msg "seq" (JNumber (Int 0)).

Lemma seq0_seq msg k v :
  prop_of msg k = Some v -> prop_of (seq0 msg) "seq" = Some (JNumber (Int 0)).
Proof.
  intros H. destruct (prop_of_object _ _ _ H) as [fields ->].
  apply lookup_assign_same.
Qed.

Lemma seq0_other msg k :
  k <> "seq" -> prop_of (seq0 msg) k = prop_of msg k.
Proof.
  intros H. destruct msg; try reflexivity.
  apply lookup_assign_other. congruence.
Qed.

(** The relay knows these events and these responses. *)
Definition proxied_events : list string := ["terminated"; "exited"; "stopped"].

Definition proxied_commands : list string :=
  ["launch"; "threads"; "stackTrace"; "scopes"; "variables"; "setBreakpoints";
   "continue"; "next"; "stepIn"; "stepOut"].

Definition recognized_event (msg : json) : Prop :=
  prop_of msg "type" = Some (JString "event") /\
  exists e, prop_of msg "event" = Some (JString e) /\ In e proxied_events.

Definition recognized_response (msg : json) : Prop :=
  prop_of msg "type" = Some (JString "response") /\
  exists c, prop_of msg "command" = Some (JString c) /\ In c proxied_commands.

(** A message for the client that was not received from the backend. *)
Definition built_here (m : Sent) : Prop :=
  match m with
  | SendProxiedEvent _ | SendProxiedResponse _ => False
  | _ => True
  end.

(** A message for the client that, if it was received from the backend as
    [msg], is [msg] with the sequence number 0. *)
Definition forwarded_from (msg : json) (m : Sent) : Prop :=
  match m with
  | SendProxiedEvent e | SendProxiedResponse e =>
      e = seq0 msg /\ prop_of e "seq" = Some (JNumber (Int 0)) /\
      prop_of e "body" = prop_of msg "body"
  | _ => True
  end.

(** A message for the client that does not carry a sequence number of the
    backend. *)
Definition normalized (m : Sent) : Prop :=
  match m with
  | SendProxiedEvent e | SendProxiedResponse e =>
      prop_of e "seq" = Some (JNumber (Int 0))
  | _ => True
  end.

Lemma forwarded_normalized msg m : forwarded_from msg m -> normalized m.
Proof. destruct m; cbn; tauto. Qed.

Lemma prop_inr o k x : prop o k = inr x -> prop_of o k = x.
Proof. unfold prop_of. intros ->. reflexivity. Qed.

Lemma forwarded_seq0 msg type :
  prop msg "type" = inr type -> is_string type "event" || is_string type "response" = true ->
  forwarded_from msg (SendProxiedEvent (seq0 msg)) /\
  forwarded_from msg (SendProxiedResponse (seq0 msg)).
Proof.
  intros Hp Ht. apply prop_inr in Hp.
  assert (H : exists v, prop_of msg "type" = Some v).
  { apply orb_true_iff in Ht as [Ht | Ht]; apply is_string_true in Ht;
      rewrite Hp, Ht; eauto. }
  destruct H as [v Hv]. cbn.
  rewrite (seq0_seq _ _ _ Hv), seq0_other by discriminate. auto.
Qed.

(** Names what a computed state adds to the log of the client. *)
Ltac log_cases :=
  unfold sendProxiedEvent, sendProxiedResponse, sendEvent;
  cbn [snd toClient with_toClient];
  first [ exists []; rewrite app_nil_r; split; [reflexivity|]
        | eexists; split; [rewrite <- ?app_assoc; reflexivity|] ].

(** What one line of the backend adds to the log of the client. *)
Lemma handleRingRdbDapOneMessage_forwards data s :
  exists new,
    toClient (snd (handleRingRdbDapOneMessage data s)) = (toClient s ++ new)%list /\
    forall msg, parse data = Some msg -> Forall (forwarded_from msg) new.
Proof.
  unfold handleRingRdbDapOneMessage.
  destruct (parse data) as [msg|];
    [|exists []; rewrite app_nil_r; split; [reflexivity | discriminate]].
  destruct (prop msg "type") as [e|type] eqn:Hp;
    [exists []; rewrite app_nil_r; split; [reflexivity | constructor]|].
  change (assign msg "seq" (JNumber (Int 0))) with (seq0 msg).
  destruct (is_string type "event") eqn:Hev.
  - destruct (forwarded_seq0 msg type Hp) as [Fe _]; [rewrite Hev; reflexivity|].
    repeat match goal with
      | |- context [if ?b then _ else _] => destruct b
      | |- context [match ?x with _ => _ end] => destruct x
      end;
    log_cases; intros ? [= <-];
    repeat match goal with |- Forall _ _ => constructor end;
    try exact I; exact Fe.
  - destruct (is_string type "response") eqn:Hre;
      [|exists []; rewrite app_nil_r; split; [reflexivity | constructor]].
    destruct (forwarded_seq0 msg type Hp) as [_ Fr];
      [rewrite Hre; apply orb_true_r|].
    repeat match goal with
      | |- context [if ?b then _ else _] => destruct b
      end;
    log_cases; intros ? [= <-];
    repeat match goal with |- Forall _ _ => constructor end;
    try exact I; exact Fr.
Qed.

Lemma prop_of_prop o k v : prop_of o k = Some v -> prop o k = inr (Some v).
Proof. destruct o; try discriminate. cbn. congruence. Qed.

Lemma recognized_response_forwarded line msg s :
  parse line = Some msg -> recognized_response msg ->
  handleRingRdbDapOneMessage line s = (Returned, sendProxiedResponse (seq0 msg) s).
Proof.
  intros Hparse [Ht (c & Hc & Hin)]. unfold handleRingRdbDapOneMessage.
  rewrite Hparse, (prop_of_prop _ _ _ Ht), Hc. fold (seq0 msg).
  cbn in Hin. repeat destruct Hin as [<- | Hin]; try reflexivity. contradiction.
Qed.

Lemma recognized_event_forwarded line msg s :
  parse line = Some msg -> recognized_event msg ->
  exists rest,
    toClient (snd (handleRingRdbDapOneMessage line s))
      = (toClient s ++ SendProxiedEvent (seq0 msg) :: rest)%list /\
    Forall built_here rest.
Proof.
  intros Hparse [Ht (e & He & Hin)]. unfold handleRingRdbDapOneMessage.
  rewrite Hparse, (prop_of_prop _ _ _ Ht), He. fold (seq0 msg).
  cbn in Hin. destruct Hin as [<- | [<- | [<- | []]]]; cbn [is_string String.eqb Ascii.eqb Bool.eqb].
  - exists []. split; [reflexivity | constructor].
  - repeat match goal with
      | |- context [match ?x with _ => _ end] => destruct x
      end;
    unfold sendProxiedEvent, sendEvent; cbn [snd toClient with_toClient];
    rewrite <- ?app_assoc; eexists; (split; [reflexivity|]);
    repeat match goal with |- Forall _ _ => constructor end; exact I.
  - exists []. split; [reflexivity | constructor].
Qed.

Lemma handle_lines_normalized lines s :
  exists new,
    toClient (snd (handle_lines lines s)) = (toClient s ++ new)%list /\
    Forall normalized new.
Proof.
  revert s. induction lines as [|line rest IH]; intros s; cbn [handle_lines].
  - exists []. rewrite app_nil_r. split; [reflexivity | constructor].
  - destruct (0 <? str_length line); [|apply IH].
    destruct (handleRingRdbDapOneMessage_forwards line s) as (n1 & E1 & F1).
    assert (N1 : Forall normalized n1).
    { destruct (parse line) as [msg|] eqn:Hp.
      - eapply List.Forall_impl; [|apply (F1 msg eq_refl)].
        intros m. apply forwarded_normalized.
      - unfold handleRingRdbDapOneMessage in E1. rewrite Hp in E1. cbn in E1.
        assert (n1 = []) as -> by (eapply app_inv_head; rewrite app_nil_r; symmetry; exact E1).
        constructor. }
    destruct (handleRingRdbDapOneMessage line s) as [[|e] s1]; cbn [snd] in *.
    + destruct (IH s1) as (n2 & E2 & F2).
      exists (n1 ++ n2)%list. rewrite E2, E1, <- app_assoc.
      split; [reflexivity | apply Forall_app; auto].
    + exists n1. auto.
Qed.

(** What a turn of the event loop adds to the log of the client is
    normalized. *)
Lemma launchRequest_resume_toClient k s :
  toClient (launchRequest_resume k s)
    = (toClient s
       ++ [SendEvent (OutputEvent ("start ring-rdb process success" +:+ NL) "console")])%list.
Proof.
  unfold launchRequest_resume, sendRingRdbDapMessage.
  destruct (ringRdbProcess s); reflexivity.
Qed.

Let normalized_event : forall e, normalized (SendEvent e) := fun _ => I.
Let normalized_response : forall r, normalized (SendResponse r) := fun _ => I.
Let normalized_error : forall r m, normalized (SendErrorResponse r m) := fun _ _ => I.

Lemma dispatchRequest_normalized seq r s :
  exists new,
    toClient (dispatchRequest seq r s) = (toClient s ++ new)%list /\
    Forall normalized new.
Proof.
  destruct r; cbn [dispatchRequest];
    unfold attachRequest, launchRequest, disconnectRequest, setBreakPointsRequest,
      threadsRequest, stackTraceRequest, scopesRequest, variablesRequest,
      continueRequest, nextRequest, stepInRequest, stepOutRequest;
    try (apply (adv_toClient normalized s);
         auto using advance_refl, advance_sendRingRdbDapMessage,
           advance_readMemoryRequest, advance_setVariableRequest,
           advance_evaluateRequest, advance_setExpressionRequest,
           advance_cancelRequest, advance_customRequest; fail).
  - apply (adv_toClient normalized s).
    destruct (linesStartAt1 args);
      [eapply advance_trans; [apply advance_with_clientLinesStartAt1, advance_refl|]|];
      apply advance_initializeRequest; assumption.
  - unfold configurationDoneRequest.
    destruct (Subject_notify _) as [[k|] sub].
    + rewrite launchRequest_resume_toClient. cbn. rewrite <- app_assoc.
      eexists. split; [reflexivity|]. repeat constructor.
    + cbn. eexists. split; [reflexivity|]. repeat constructor.
  - exists []. rewrite app_nil_r. split; [reflexivity | constructor].
  - exists []. rewrite app_nil_r. split; [reflexivity | constructor].
Qed.

Lemma step_normalized i s s' :
  step i s = Some s' ->
  exists new, toClient s' = (toClient s ++ new)%list /\ Forall normalized new.
Proof.
  destruct i; cbn [step].
  - intros [= <-]. apply dispatchRequest_normalized.
  - intros [= <-]. apply handle_lines_normalized.
  - intros [= <-]. apply (adv_toClient normalized s).
    apply advance_onStdoutData; assumption.
  - intros [= <-]. apply (adv_toClient normalized s).
    apply advance_onClose; assumption.
  - destruct (waiters (_configurationDone s) !! n) as [w|]; [|discriminate].
    destruct (deadline w <=? now s); [|discriminate].
    intros [= <-]. rewrite launchRequest_resume_toClient. cbn.
    eexists. split; [reflexivity|]. repeat constructor.
  - destruct (timers s !! n) as [t|]; [|discriminate].
    destruct (due t <=? now s); [|discriminate].
    intros [= <-].
    apply (adv_toClient normalized (with_timers (delete n (timers s)) s)).
    apply advance_run_task; try assumption. apply advance_refl.
  - destruct (_ && _); [|discriminate].
    intros [= <-]. exists []. rewrite app_nil_r. split; [reflexivity | constructor].
Qed.

Lemma run_normalized inputs s s' :
  run inputs s = Some s' ->
  Forall normalized (toClient s) -> Forall normalized (toClient s').
Proof.
  revert s. induction inputs as [|i rest IH]; intros s; cbn [run].
  - intros [= <-] H. exact H.
  - destruct (step i s) as [s1|] eqn:E; [|discriminate].
    intros Hrun H. apply (IH s1 Hrun).
    destruct (step_normalized _ _ _ E) as (new & -> & Hnew).
    apply Forall_app. auto.
Qed.

End Forwarding.

(** C1.  Whatever a chunk of the backend makes the relay hand to the client,
    a message that was received from the backend has the sequence number 0,
    and so has every such message in the log of the client, whatever
    happens to the session.  A line that is a recognized response is
    forwarded with the sequence number 0, a line that is a recognized event
    is forwarded with the sequence number 0 before anything else is sent
    for it, and the forwarded message has the body that was received. *)
Theorem forwarded_messages_have_seq_0 (chunk : string) (s : Session) :
  (exists new,
     toClient (snd (handleRingRdbDapMessage chunk s)) = (toClient s ++ new)%list /\
     Forall normalized new) /\
  (forall inputs s',
     run inputs s = Some s' ->
     Forall normalized (toClient s) -> Forall normalized (toClient s')) /\
  (forall line msg, parse line = Some msg ->
     (recognized_response msg ->
      handleRingRdbDapOneMessage line s = (Returned, sendProxiedResponse (seq0 msg) s)) /\
     (recognized_event msg ->
      exists rest,
        toClient (snd (handleRingRdbDapOneMessage line s))
          = (toClient s ++ SendProxiedEvent (seq0 msg) :: rest)%list /\
        Forall built_here rest) /\
     (recognized_event msg \/ recognized_response msg ->
      prop_of (seq0 msg) "seq" = Some (JNumber (Int 0)) /\
      prop_of (seq0 msg) "body" = prop_of msg "body")).
Proof.
  split; [apply handle_lines_normalized|].
  split; [intros inputs s'; apply run_normalized|].
  intros line msg Hparse. split; [|split].
  - apply recognized_response_forwarded. exact Hparse.
  - apply recognized_event_forwarded. exact Hparse.
  - intros H. split.
    + destruct H as [[Ht _] | [Ht _]]; exact (seq0_seq _ _ _ Ht).
    + apply seq0_other. discriminate.
Qed.

(** The scenario of the specification: a [threads] response of the backend
    reaches the client with the sequence number 0 and with its body. *)
Definition threads_response : string :=
  json_text "{'seq':7,'type':'response','command':'threads','body':{'threads':[{'id':1,'name':'main'}]}}".

Definition threads_body : json :=
  JObject [("threads", JArray [JObject [("id", JNumber (Int 1)); ("name", JString "main")]])].

Lemma forwarded_messages_have_seq_0_witness :
  toClient (snd (handleRingRdbDapMessage (threads_response +:+ NL) newSession))
    = [SendProxiedResponse
         (JObject [("seq", JNumber (Int 0)); ("type", JString "response");
                   ("command", JString "threads"); ("body", threads_body)])] /\
  exists msg,
    parse threads_response = Some msg /\
    handleRingRdbDapOneMessage threads_response newSession
      = (Returned, sendProxiedResponse (seq0 msg) newSession) /\
    prop_of msg "seq" = Some (JNumber (Int 7)) /\
    prop_of (seq0 msg) "seq" = Some (JNumber (Int 0)) /\
    prop_of (seq0 msg) "body" = Some threads_body.
Proof.
  split; [reflexivity|].
  eexists. split; [reflexivity|].
  assert (R : recognized_response
                (JObject [("seq", JNumber (Int 7)); ("type", JString "response");
                          ("command", JString "threads"); ("body", threads_body)])).
  { split; [reflexivity|]. exists "threads". split; [reflexivity|].
    cbn. auto. }
  destruct (forwarded_messages_have_seq_0 EmptyString newSession) as (_ & _ & H).
  destruct (H threads_response _ eq_refl) as (Hr & _ & Hs).
  split; [exact (Hr R)|]. split; [reflexivity|].
  destruct (Hs (or_intror R)) as [H1 H2]. split; [exact H1|]. rewrite H2. reflexivity.
Defined.

(** ** Lines that are not messages *)

Section Malformed.

(** A text without a line feed is one line. *)
Definition one_line (line : string) : Prop := split LF line = [line].

Lemma split_first_line line chunk :
  one_line line -> split LF (line +:+ NL +:+ chunk) = line :: split LF chunk.
Proof.
  unfold one_line. induction line as [|c r IH]; intros H.
  - reflexivity.
  - change (String c r +:+ NL +:+ chunk) with (String c (r +:+ NL +:+ chunk)).
    cbn [split] in *. destruct (Ascii.eqb c LF); [discriminate H|].
    destruct (split LF r) as [|h t] eqn:E.
    + injection H as H. destruct r; [discriminate E | discriminate H].
    + injection H as -> ->. rewrite IH by reflexivity. reflexivity.
Qed.

(** The message has no discriminator that the relay knows. *)
Definition no_discriminator (msg : json) : Prop :=
  prop_of msg "type" <> Some (JString "event") /\
  prop_of msg "type" <> Some (JString "response").

Lemma is_string_false x text :
  x <> Some (JString text) -> is_string x text = false.
Proof.
  intros H. destruct x as [[]|]; try reflexivity. cbn.
  apply String.eqb_neq. congruence.
Qed.

Lemma unparseable_throws line s :
  parse line = None -> handleRingRdbDapOneMessage line s = (Threw SyntaxError, s).
Proof. intros H. unfold handleRingRdbDapOneMessage. rewrite H. reflexivity. Qed.

Lemma no_discriminator_skipped line msg s :
  parse line = Some msg -> msg <> JNull -> no_discriminator msg ->
  handleRingRdbDapOneMessage line s = (Returned, s).
Proof.
  intros Hp Hn [He Hr]. unfold handleRingRdbDapOneMessage. rewrite Hp.
  destruct (prop msg "type") as [e|type] eqn:E.
  - destruct msg; try discriminate E. contradiction.
  - apply prop_inr in E. rewrite E in He, Hr.
    rewrite (is_string_false _ _ He), (is_string_false _ _ Hr). reflexivity.
Qed.

End Malformed.

(** C2, as the code has it.  The relay splits a chunk at its line feeds and
    handles the lines in their order, leaving out the empty ones.  A line
    that is a JSON value other than [null] without a discriminator that the
    relay knows is skipped: nothing is sent and no exception is raised.  A
    line that is not JSON makes [JSON.parse] throw: the [SyntaxError] leaves
    the handler, and the rest of the chunk is not handled. *)
Theorem malformed_line_ends_the_chunk (line chunk : string) (s : Session) :
  one_line line ->
  (line = EmptyString ->
   handleRingRdbDapMessage (line +:+ NL +:+ chunk) s = handleRingRdbDapMessage chunk s) /\
  (forall s', line <> EmptyString ->
     handleRingRdbDapOneMessage line s = (Returned, s') ->
     handleRingRdbDapMessage (line +:+ NL +:+ chunk) s = handleRingRdbDapMessage chunk s') /\
  (forall msg, line <> EmptyString ->
     parse line = Some msg -> msg <> JNull -> no_discriminator msg ->
     handleRingRdbDapMessage (line +:+ NL +:+ chunk) s = handleRingRdbDapMessage chunk s) /\
  (line <> EmptyString -> parse line = None ->
   handleRingRdbDapMessage (line +:+ NL +:+ chunk) s = (Threw SyntaxError, s)).
Proof.
  intros Hline. unfold handleRingRdbDapMessage.
  rewrite (split_first_line _ _ Hline). cbn [handle_lines].
  assert (Hlen : line <> EmptyString -> (0 <? str_length line) = true).
  { intros H. destruct line; [contradiction|]. apply Z.ltb_lt.
    unfold str_length. cbn [String.length]. lia. }
  repeat split.
  - intros ->. reflexivity.
  - intros s' Hne E. rewrite (Hlen Hne), E. reflexivity.
  - intros msg Hne Hp Hn Hd. rewrite (Hlen Hne).
    rewrite (no_discriminator_skipped _ _ _ Hp Hn Hd). reflexivity.
  - intros Hne Hp. rewrite (Hlen Hne), (unparseable_throws _ _ Hp). reflexivity.
Qed.

Lemma malformed_line_ends_the_chunk_witness :
  handleRingRdbDapMessage ("oops" +:+ NL +:+ threads_response +:+ NL) newSession
    = (Threw SyntaxError, newSession) /\
  handleRingRdbDapMessage (json_text "{'id':1}" +:+ NL +:+ threads_response +:+ NL) newSession
    = handleRingRdbDapMessage (threads_response +:+ NL) newSession.
Proof.
  split.
  - apply (malformed_line_ends_the_chunk "oops" (threads_response +:+ NL) newSession);
      [reflexivity | discriminate | reflexivity].
  - apply (malformed_line_ends_the_chunk (json_text "{'id':1}") (threads_response +:+ NL)
             newSession) with (msg := JObject [("id", JNumber (Int 1))]);
      [reflexivity | discriminate | reflexivity | discriminate | split; discriminate].
Defined.

(** C2, as the specification has it, fails: the line [oops] is not skipped.
    The exception leaves the handler, and the response that follows in the
    same chunk never reaches the client. *)
Lemma malformed_line_is_not_skipped :
  fst (handleRingRdbDapMessage ("oops" +:+ NL +:+ threads_response +:+ NL) newSession)
    = Threw SyntaxError /\
  toClient (snd (handleRingRdbDapMessage ("oops" +:+ NL +:+ threads_response +:+ NL)
                   newSession)) = [] /\
  toClient (snd (handleRingRdbDapMessage (threads_response +:+ NL) newSession)) <> [].
Proof. repeat split; try reflexivity. discriminate. Qed.

(** ** The end of the session *)

(** The terminate signals in a log of the client. *)
Definition is_terminated (m : Sent) : bool :=
  match m with
  | SendEvent TerminatedEvent => true
  | _ => false
  end.

Definition terminate_signals (log : list Sent) : nat :=
  List.length (List.filter is_terminated log).

(** C4, as the code has it.  When the backend process ends, its listener
    sends an output event, on the console level for the exit code 0 and on
    the error level for any other code, and then one terminate signal.  A
    disconnect request changes nothing and sends nothing. *)
Theorem exit_terminates_disconnect_does_not (code : option Z) (response : Response)
    (s : Session) :
  let text := "ring-rdb process exited with code " +:+ code_text code +:+ NL in
  (code = Some 0 ->
   toClient (onClose code s)
     = (toClient s ++ [SendEvent (OutputEvent text "console"); SendEvent TerminatedEvent])%list) /\
  (code <> Some 0 ->
   toClient (onClose code s)
     = (toClient s ++ [SendEvent (OutputEvent text "stderr"); SendEvent TerminatedEvent])%list) /\
  disconnectRequest response s = s /\
  (forall seq, dispatchRequest seq Disconnect s = s).
Proof.
  cbv zeta. repeat split.
  - intros ->. unfold onClose, sendEvent. cbn. rewrite <- app_assoc. reflexivity.
  - intros H. unfold onClose, sendEvent.
    assert (code_is_not_zero code = true) as ->.
    { destruct code as [[| |]|]; try reflexivity. contradiction. }
    cbn. rewrite <- app_assoc. reflexivity.
Qed.

Lemma exit_terminates_disconnect_does_not_witness :
  toClient (onClose (Some 0) newSession)
    = [SendEvent (OutputEvent ("ring-rdb process exited with code 0" +:+ NL) "console");
       SendEvent TerminatedEvent] /\
  toClient (onClose (Some 3) newSession)
    = [SendEvent (OutputEvent ("ring-rdb process exited with code 3" +:+ NL) "stderr");
       SendEvent TerminatedEvent].
Proof.
  split.
  - apply (exit_terminates_disconnect_does_not (Some 0) (newResponse 1 "disconnect")
             newSession). reflexivity.
  - apply (exit_terminates_disconnect_does_not (Some 3) (newResponse 1 "disconnect")
             newSession). discriminate.
Defined.

(** C4, as the specification has it, fails: after [initialize], a disconnect
    request brings the client no terminate signal. *)
Lemma disconnect_sends_no_terminate_signal :
  exists s s',
    run [FromClient 1 (Initialize (mkInitializeArguments false false None))] newSession
      = Some s /\
    step (FromClient 2 Disconnect) s = Some s' /\
    toClient s' = toClient s /\
    terminate_signals (toClient s') = 0%nat.
Proof. do 2 eexists. repeat split. Qed.

(** ** Writing to variables *)

(** A response to the client that reports an error. *)
Definition is_error_response (m : Sent) : Prop :=
  match m with
  | SendErrorResponse _ _ => True
  | _ => False
  end.

(** C5.  A [setExpression] whose expression starts with a dollar sign and
    names no local variable is answered with the error 1002, the template
    [variable '{lexpr}' not found] and the expression as [lexpr]; an
    expression that does not start with a dollar sign is answered with the
    error 1003, [not an assignable expression].  The session is otherwise
    left as it was. *)
Theorem setExpression_errors (response : Response) (args : SetExpressionArguments)
    (s : Session) :
  (startsWith "$" (se_expression args) = true ->
   getLocalVariable (_runtime s) (substr_from 1 (se_expression args)) = None ->
   setExpressionRequest response args s
     = with_toClient
         (toClient s ++
          [SendErrorResponse response
             {| msg_id := 1002;
                msg_format := "variable '{lexpr}' not found";
                msg_variables := [("lexpr", se_expression args)];
                msg_showUser := true |}])%list s) /\
  (startsWith "$" (se_expression args) = false ->
   setExpressionRequest response args s
     = with_toClient
         (toClient s ++
          [SendErrorResponse response
             {| msg_id := 1003;
                msg_format := "'{lexpr}' not an assignable expression";
                msg_variables := [("lexpr", se_expression args)];
                msg_showUser := true |}])%list s).
Proof.
  unfold setExpressionRequest. split.
  - intros -> ->. reflexivity.
  - intros ->. reflexivity.
Qed.

Lemma setExpression_errors_witness :
  toClient (dispatchRequest 5 (SetExpression (mkSetExpressionArguments "$counter" "1"))
              newSession)
    = [SendErrorResponse (newResponse 5 "setExpression")
         {| msg_id := 1002;
            msg_format := "variable '{lexpr}' not found";
            msg_variables := [("lexpr", "$counter")];
            msg_showUser := true |}] /\
  toClient (dispatchRequest 6 (SetExpression (mkSetExpressionArguments "counter" "1"))
              newSession)
    = [SendErrorResponse (newResponse 6 "setExpression")
         {| msg_id := 1003;
            msg_format := "'{lexpr}' not an assignable expression";
            msg_variables := [("lexpr", "counter")];
            msg_showUser := true |}].
Proof.
  split.
  - cbn [dispatchRequest command_of].
    rewrite (proj1 (setExpression_errors (newResponse 5 "setExpression")
                      (mkSetExpressionArguments "$counter" "1") newSession));
      reflexivity.
  - cbn [dispatchRequest command_of].
    rewrite (proj2 (setExpression_errors (newResponse 6 "setExpression")
                      (mkSetExpressionArguments "counter" "1") newSession));
      reflexivity.
Defined.

(** C10.  A [setVariable] whose reference and name lead to no variable is
    answered with the response as it came, which has no body and reports
    success, and the session is otherwise left as it was.  Whatever the
    request, [setVariable] sends no error response. *)
Theorem setVariable_unresolved (seq : Z) (args : SetVariableArguments) (s : Session) :
  (named_variable args s = None ->
   dispatchRequest seq (SetVariable args) s
     = with_toClient
         (toClient s ++
          [SendResponse
             {| request_seq := seq; command := "setVariable";
                success := true; body := None |}])%list s) /\
  (exists new,
     toClient (dispatchRequest seq (SetVariable args) s) = (toClient s ++ new)%list /\
     Forall (fun m => ~ is_error_response m) new).
Proof.
  cbn [dispatchRequest command_of]. split.
  - intros H. unfold setVariableRequest. rewrite H. reflexivity.
  - apply (adv_toClient _ _ _
             (advance_setVariableRequest (fun m => ~ is_error_response m)
                (fun _ H => H) (fun _ H => H) _ args s)).
Qed.

Lemma setVariable_unresolved_witness :
  dispatchRequest 3 (SetVariable (mkSetVariableArguments 1000 "x" "1")) newSession
    = with_toClient [SendResponse (newResponse 3 "setVariable")] newSession.
Proof.
  apply (setVariable_unresolved 3 (mkSetVariableArguments 1000 "x" "1") newSession).
  reflexivity.
Defined.

(** ** Reading memory *)

Section Memory.

(** Between two indices of the array that are in order, [subarray] takes the
    elements from the first to just before the second. *)
Lemma subarray_in_range {A} (l : list A) (b e : Z) :
  0 <= b <= e -> e <= Z.of_nat (List.length l) ->
  subarray l b e = firstn (Z.to_nat (e - b)) (skipn (Z.to_nat b) l) /\
  Z.of_nat (List.length (subarray l b e)) = e - b /\
  (forall i, (i < Z.to_nat (e - b))%nat ->
     nth_error (subarray l b e) i = nth_error l (Z.to_nat b + i)).
Proof.
  intros Hb He. unfold subarray, clamp_index.
  destruct (b <? 0) eqn:Eb; [apply Z.ltb_lt in Eb; lia|].
  destruct (e <? 0) eqn:Ee; [apply Z.ltb_lt in Ee; lia|].
  rewrite !Z.min_l by lia.
  split; [reflexivity|]. split.
  - rewrite List.length_firstn, List.length_skipn. lia.
  - intros i Hi. rewrite List.nth_error_firstn.
    destruct (Nat.ltb_spec i (Z.to_nat (e - b))); [|lia].
    apply List.nth_error_skipn.
Qed.

End Memory.

(** C9.  A [readMemory] whose reference stands for no variable with a memory
    is answered with a response, not an error, that has no data and counts
    all requested bytes as unreadable.  Otherwise the data are the bytes of
    the memory from [min(offset, length)] to [min(offset + count, length)],
    in base 64, and the unreadable bytes are the count less the number of
    these bytes. *)
Theorem readMemory_segment (response : Response) (args : ReadMemoryArguments)
    (s : Session) :
  let offset := default 0 (rm_offset args) in
  let count := rm_count args in
  (attached_memory (rm_memoryReference args) s = None ->
   readMemoryRequest response args s
     = with_toClient
         (toClient s ++
          [SendResponse
             (with_body (ReadMemoryBody (Z_to_string offset) EmptyString count)
                response)])%list s) /\
  (forall bytes, attached_memory (rm_memoryReference args) s = Some bytes ->
     let len := Z.of_nat (List.length bytes) in
     let from := Z.min offset len in
     let to := Z.min (offset + count) len in
     let segment := subarray bytes from to in
     readMemoryRequest response args s
       = with_toClient
           (toClient s ++
            [SendResponse
               (with_body
                  (ReadMemoryBody (Z_to_string offset) (fromByteArray segment)
                     (count - Z.of_nat (List.length segment))) response)])%list s /\
     (0 <= offset -> 0 <= count ->
      segment = firstn (Z.to_nat (to - from)) (skipn (Z.to_nat from) bytes) /\
      Z.of_nat (List.length segment) = to - from /\
      (forall i, (i < Z.to_nat (to - from))%nat ->
         nth_error segment i = nth_error bytes (Z.to_nat from + i)))).
Proof.
  cbv zeta. unfold readMemoryRequest. split.
  - intros ->. reflexivity.
  - intros bytes ->. split; [reflexivity|].
    intros Ho Hc. apply subarray_in_range; lia.
Qed.

(** A session with one variable, [text], that has the four bytes of [Ring]
    as its memory and the handle 1000. *)
Definition session_with_memory : Session :=
  with_variableHandles
    {| nextHandle := 1001; handleMap := {[ 1000 := HVariable 1%positive ]} |}
    (with_heap
       {[ 1%positive :=
            {| name := "text"; value := VString "Ring";
               memory := Some [x52; x69; x6e; x67]; reference := Some 1000 |} ]}
       (with_nextLoc 2%positive newSession)).

Lemma readMemory_segment_witness :
  toClient (readMemoryRequest (newResponse 7 "readMemory")
              (mkReadMemoryArguments None 8 "1001") session_with_memory)
    = [SendResponse
         (with_body (ReadMemoryBody "0" EmptyString 8) (newResponse 7 "readMemory"))] /\
  toClient (readMemoryRequest (newResponse 8 "readMemory")
              (mkReadMemoryArguments (Some 1) 8 "1000") session_with_memory)
    = [SendResponse
         (with_body (ReadMemoryBody "1" "aW5n" 5) (newResponse 8 "readMemory"))].
Proof.
  split.
  - rewrite (proj1 (readMemory_segment (newResponse 7 "readMemory")
                      (mkReadMemoryArguments None 8 "1001") session_with_memory));
      reflexivity.
  - destruct (proj2 (readMemory_segment (newResponse 8 "readMemory")
                       (mkReadMemoryArguments (Some 1) 8 "1000") session_with_memory)
                [x52; x69; x6e; x67] eq_refl) as [-> _].
    reflexivity.
Defined.

(** ** Commands of the debug console *)

(** The text of a string as [convertFromRuntime] shows it. *)
Definition in_quotes (text : string) : string := str1 DQ +:+ text +:+ str1 DQ.

(** In the context [repl], for an expression that does not start with a
    dollar sign, the response is made of the expression alone: the reply of
    the console command is not in it. *)
Lemma evaluate_repl_reply_unused response expression s :
  startsWith "$" expression = false ->
  let s1 := snd (evaluateRequest_repl expression s) in
  let '(l, s2) := alloc (newRuntimeVariable "eval" (convertToRuntime expression)) s1 in
  let '(v, s3) := convertFromRuntime l s2 in
  evaluateRequest response (mkEvaluateArguments expression (Some "repl")) s
    = sendResponse
        (with_body
           (EvaluateBody (var_value v) (Some (var_type v)) (var_variablesReference v)
              (var_presentationHint_lazy v)) response) s3.
Proof.
  intros H. unfold evaluateRequest.
  cbn [ev_expression ev_context String.eqb Ascii.eqb Bool.eqb].
  destruct (evaluateRequest_repl expression s) as [reply s1]. cbn [snd].
  rewrite H. destruct (alloc _ s1) as [l s2].
  destruct (convertFromRuntime l s2) as [v s3]. reflexivity.
Qed.

(** C6, on the request [evaluate] with the context [repl] and the expression
    [new 5], for a client whose lines start at 1.  The runtime gets the
    breakpoint 1 on its line 4, which is line 5 of the client, and the
    client gets the breakpoint event with the id 1.  The case [repl] then
    falls through to the default case, which turns the expression into a
    variable: the result of the response is the expression in quotes, and
    the reply [breakpoint created] is lost. *)
Theorem evaluate_new_loses_the_reply :
  let response := newResponse 4 "evaluate" in
  let s := evaluateRequest response (mkEvaluateArguments "new 5" (Some "repl")) newSession in
  fst (evaluateRequest_repl "new 5" newSession) = Some "breakpoint created" /\
  breakPoints (_runtime s) !! sourceFile (_runtime s)
    = Some [{| id := 1; line := 4; verified := false |}] /\
  toClient s
    = [SendEvent
         (BreakpointEvent "new"
            {| bp_verified := false; bp_line := Some 5;
               bp_source := Some (createSource EmptyString); bp_id := Some 1 |});
       SendResponse
         (with_body (EvaluateBody (in_quotes "new 5") (Some "string") 0 None) response)] /\
  in_quotes "new 5" <> "breakpoint created".
Proof. cbv zeta. repeat split. discriminate. Qed.

(** ** The launch *)

Section Launch.

(** Nothing that is due lies in the past. *)
Definition timely (s : Session) : Prop :=
  Forall (fun d => now s <= d) (pending s).

(** The line that the launch request is for the backend. *)
Definition launch_line (k : PendingLaunch) : string :=
  stringify (proxied_request (launch_response k) "launch" (Some (launch_args k))) +:+ NL.

Let P : Sent -> Prop := fun _ => True.
Let P_event : forall e, P (SendEvent e) := fun _ => I.
Let P_response : forall r, P (SendResponse r) := fun _ => I.
Let P_error : forall r m, P (SendErrorResponse r m) := fun _ _ => I.
Let P_proxied_event : forall e, P (SendProxiedEvent e) := fun _ => I.
Let P_proxied_response : forall r, P (SendProxiedResponse r) := fun _ => I.

(** The requests that neither wait for a subject nor notify one. *)
Definition plain_request (r : Request) : Prop :=
  match r with
  | ConfigurationDone | Launch _ | Attach _ => False
  | _ => True
  end.

Lemma advance_dispatchRequest seq r s :
  plain_request r -> advance P s (dispatchRequest seq r s).
Proof.
  destruct r; cbn [plain_request dispatchRequest]; intros H; try contradiction;
    unfold disconnectRequest, setBreakPointsRequest, threadsRequest, stackTraceRequest,
      scopesRequest, variablesRequest, continueRequest, nextRequest, stepInRequest,
      stepOutRequest;
    auto using advance_refl, advance_sendRingRdbDapMessage, advance_readMemoryRequest,
      advance_setVariableRequest, advance_evaluateRequest, advance_setExpressionRequest,
      advance_cancelRequest, advance_customRequest.
  destruct (linesStartAt1 args);
    [eapply advance_trans; [apply advance_with_clientLinesStartAt1, advance_refl|]|];
    apply advance_initializeRequest; assumption.
Qed.

(** What the resumed launch does. *)
Lemma launchRequest_resume_frame k s :
  let s' := launchRequest_resume k s in
  notified (_launchDone s') = S (notified (_launchDone s)) /\
  _configurationDone s' = _configurationDone s /\
  now s' = now s /\ timers s' = timers s /\ ringRdbProcess s' = ringRdbProcess s.
Proof.
  unfold launchRequest_resume, sendRingRdbDapMessage, Subject_notify.
  destruct (ringRdbProcess s) eqn:E; cbn;
    destruct (rev (waiters (_launchDone s))); cbn; rewrite ?E; auto 10.
Qed.

Lemma launchRequest_resume_toBackend k s :
  is_Some (ringRdbProcess s) ->
  toBackend (launchRequest_resume k s) = (toBackend s ++ [launch_line k])%list.
Proof.
  intros [p Hp]. unfold launchRequest_resume, sendRingRdbDapMessage. rewrite Hp.
  reflexivity.
Qed.

(** *** Every state is timely *)

Lemma timely_fewer s s' :
  now s' = now s ->
  (forall d, In d (pending s') -> In d (pending s)) ->
  timely s -> timely s'.
Proof.
  unfold timely. intros N H T. rewrite List.Forall_forall in *.
  intros d Hd. rewrite N. auto.
Qed.

Lemma delete_in {A} (x : A) (l : list A) (n : nat) :
  In x (delete n l) -> In x l.
Proof.
  revert n. induction l as [|a l IH]; intros [|n]; cbn; auto.
  intros [<- | H]; eauto.
Qed.

Lemma advance_timely s s' : advance P s s' -> timely s -> timely s'.
Proof.
  intros [_ C L N R (b & B) (t & T & G)] I1.
  unfold timely, pending in *. rewrite C, T, N, map_app, app_assoc.
  apply Forall_app. split; [exact I1|].
  apply List.Forall_forall. intros d Hd. apply in_map_iff in Hd as (x & <- & Hx).
  rewrite List.Forall_forall in G. apply G. exact Hx.
Qed.

Lemma launchRequest_resume_timely k s :
  timely s -> timely (launchRequest_resume k s).
Proof.
  destruct (launchRequest_resume_frame k s) as (_ & C & N & T & _).
  apply timely_fewer; [exact N|]. unfold pending. rewrite C, T. auto.
Qed.

Lemma launchRequest_timely response args s :
  timely s -> timely (launchRequest response args s).
Proof.
  intros I1. unfold launchRequest, Subject_wait, timely, pending in *. cbn.
  rewrite map_app, <- app_assoc. cbn.
  rewrite List.Forall_forall in *. intros d Hd.
  apply in_app_or in Hd as [Hd | [<- | Hd]].
  - apply I1. apply in_or_app. auto.
  - lia.
  - apply I1. apply in_or_app. auto.
Qed.

(** The waiters before [notify], when it wakes one up. *)
Lemma notify_waiters {K} (sub : Subject K) :
  match Subject_notify sub with
  | (Some k, sub') => exists w, resume w = k /\ waiters sub = (waiters sub' ++ [w])%list
  | (None, sub') => waiters sub = [] /\ waiters sub' = []
  end.
Proof.
  unfold Subject_notify. destruct (rev (waiters sub)) as [|w before] eqn:E; cbn.
  - rewrite <- (rev_involutive (waiters sub)), E. auto.
  - exists w. rewrite <- (rev_involutive (waiters sub)), E. auto.
Qed.

Lemma configurationDoneRequest_timely response s :
  timely s -> timely (configurationDoneRequest response s).
Proof.
  intros I1. unfold configurationDoneRequest.
  pose proof (notify_waiters (_configurationDone (sendResponse response s))) as H.
  destruct (Subject_notify _) as [[k|] sub].
  - destruct H as (w & _ & W). apply launchRequest_resume_timely.
    apply (timely_fewer s); [reflexivity | | exact I1].
    unfold pending. cbn in *. rewrite W, map_app. intros d Hd.
    apply in_app_or in Hd as [Hd | Hd]; apply in_or_app; [left | right; exact Hd].
    apply in_or_app. auto.
  - destruct H as [_ W].
    apply (timely_fewer s); [reflexivity | | exact I1].
    unfold pending. cbn in *. rewrite W. intros d Hd. apply in_or_app. auto.
Qed.

Lemma dispatchRequest_timely seq r s :
  timely s -> timely (dispatchRequest seq r s).
Proof.
  intros I1.
  destruct r;
    try (apply (advance_timely s); [apply advance_dispatchRequest; exact I | exact I1]).
  - apply configurationDoneRequest_timely. exact I1.
  - apply launchRequest_timely. exact I1.
  - apply launchRequest_timely. exact I1.
Qed.

Lemma step_timely i s s' : timely s -> step i s = Some s' -> timely s'.
Proof.
  intros I1. destruct i; cbn [step].
  - intros [= <-]. apply dispatchRequest_timely. exact I1.
  - intros [= <-]. apply (advance_timely s); [|exact I1].
    apply advance_handleRingRdbDapMessage; assumption.
  - intros [= <-]. apply (advance_timely s); [|exact I1].
    apply advance_onStdoutData; assumption.
  - intros [= <-]. apply (advance_timely s); [|exact I1].
    apply advance_onClose; assumption.
  - destruct (waiters (_configurationDone s) !! n) as [w'|] eqn:E; [|discriminate].
    destruct (deadline w' <=? now s); [|discriminate].
    intros [= <-]. apply launchRequest_resume_timely.
    apply (timely_fewer s); [reflexivity | | exact I1].
    unfold pending. cbn. intros d Hd.
    apply in_app_or in Hd as [Hd | Hd]; apply in_or_app; [left | right; exact Hd].
    apply in_map_iff in Hd as (x & <- & Hx). apply in_map.
    exact (delete_in _ _ _ Hx).
  - destruct (timers s !! n) as [t|] eqn:E; [|discriminate].
    destruct (due t <=? now s); [|discriminate].
    intros [= <-].
    apply (advance_timely (with_timers (delete n (timers s)) s)).
    + apply advance_run_task; try assumption. apply advance_refl.
    + apply (timely_fewer s); [reflexivity | | exact I1].
      unfold pending. cbn. intros d Hd.
      apply in_app_or in Hd as [Hd | Hd]; apply in_or_app; [left; exact Hd | right].
      apply in_map_iff in Hd as (x & <- & Hx). apply in_map.
      exact (delete_in _ _ _ Hx).
  - destruct ((now s <=? t) && forallb (fun d => t <=? d) (pending s)) eqn:E;
      [|discriminate].
    intros [= <-]. apply andb_true_iff in E as [_ E].
    unfold timely. cbn. change (pending (with_now t s)) with (pending s).
    rewrite forallb_forall in E. apply List.Forall_forall.
    intros d Hd. apply Z.leb_le. auto.
Qed.

Lemma run_timely inputs s s' : timely s -> run inputs s = Some s' -> timely s'.
Proof.
  revert s. induction inputs as [|i rest IH]; intros s I1; cbn [run].
  - intros [= <-]. exact I1.
  - destruct (step i s) as [s1|] eqn:E; [|discriminate].
    apply IH. exact (step_timely _ _ _ I1 E).
Qed.

(** Whatever has happened to a new session, nothing that is due lies in
    the past. *)
Lemma reachable_timely inputs s : run inputs newSession = Some s -> timely s.
Proof. apply run_timely. constructor. Qed.

(** *** A launch that waits is not lost *)

(** The launch [w] still waits, or it has gone to the backend and
    [_launchDone] has been notified since. *)
Definition waiting_or_launched (w : Waiter PendingLaunch) (n0 : nat) (s : Session) : Prop :=
  In w (waiters (_configurationDone s)) \/
  (In (launch_line (resume w)) (toBackend s) /\ (n0 < notified (_launchDone s))%nat).

Record launch_inv (w : Waiter PendingLaunch) (n0 : nat) (s : Session) : Prop := mkLaunchInv {
  inv_process : is_Some (ringRdbProcess s);
  inv_notified : (n0 <= notified (_launchDone s))%nat;
  inv_launch : waiting_or_launched w n0 s
}.

Lemma advance_launch_inv w n0 s s' :
  advance P s s' -> launch_inv w n0 s -> launch_inv w n0 s'.
Proof.
  intros [_ C L N R (b & B) _] [I2 I3 I4]. split.
  - auto.
  - rewrite L. exact I3.
  - destruct I4 as [I4 | [I4 I5]].
    + left. rewrite C. exact I4.
    + right. rewrite B, L. split; [apply in_or_app; left; exact I4 | exact I5].
Qed.

Lemma launchRequest_resume_inv w w' n0 s :
  is_Some (ringRdbProcess s) -> (n0 <= notified (_launchDone s))%nat ->
  w' = w \/ waiting_or_launched w n0 s ->
  launch_inv w n0 (launchRequest_resume (resume w') s).
Proof.
  intros I2 I3 I4.
  destruct (launchRequest_resume_frame (resume w') s) as (N & C & _ & _ & R).
  pose proof (launchRequest_resume_toBackend (resume w') s I2) as B.
  split.
  - rewrite R. exact I2.
  - rewrite N. lia.
  - destruct I4 as [-> | [I4 | [I4 I5]]].
    + right. rewrite B, N. split; [apply in_or_app; right; left; reflexivity | lia].
    + left. rewrite C. exact I4.
    + right. rewrite B, N. split; [apply in_or_app; left; exact I4 | lia].
Qed.

Lemma in_delete {A} (x w : A) (l : list A) (n : nat) :
  In x l -> l !! n = Some w -> x = w \/ In x (delete n l).
Proof.
  revert n. induction l as [|a l IH]; intros n Hin Hn; [contradiction|].
  destruct n as [|n]; cbn in *.
  - injection Hn as <-. destruct Hin; auto.
  - destruct Hin as [<- | Hin]; [auto|].
    destruct (IH n Hin Hn); auto.
Qed.

Lemma launchRequest_inv w n0 response args s :
  launch_inv w n0 s -> launch_inv w n0 (launchRequest response args s).
Proof.
  intros [I2 I3 I4]. unfold launchRequest, Subject_wait. split; cbn.
  - exact I2.
  - exact I3.
  - destruct I4 as [I4 | I4]; [left | right; exact I4].
    cbn. apply in_or_app. auto.
Qed.

Lemma launchRequest_establishes response args s :
  is_Some (ringRdbProcess s) ->
  launch_inv
    {| resume := {| launch_response := response; launch_args := args |};
       deadline := now s + 10000 |}
    (notified (_launchDone s)) (launchRequest response args s).
Proof.
  intros I2. unfold launchRequest, Subject_wait. split; cbn.
  - exact I2.
  - lia.
  - left. cbn. apply in_or_app. right. left. reflexivity.
Qed.

Lemma configurationDoneRequest_inv w n0 response s :
  launch_inv w n0 s -> launch_inv w n0 (configurationDoneRequest response s).
Proof.
  intros [I2 I3 I4]. unfold configurationDoneRequest.
  pose proof (notify_waiters (_configurationDone (sendResponse response s))) as H.
  destruct (Subject_notify _) as [[k|] sub].
  - destruct H as (w' & <- & W). cbn in W.
    apply launchRequest_resume_inv; cbn; try assumption.
    destruct I4 as [I4 | I4]; [|right; right; exact I4].
    rewrite W in I4. apply in_app_or in I4 as [I4 | [<- | []]]; [right; left | left];
      auto.
  - destruct H as [W _]. cbn in W. split; cbn; try assumption.
    destruct I4 as [I4 | I4]; [|right; exact I4].
    rewrite W in I4. contradiction.
Qed.

Lemma dispatchRequest_inv w n0 seq r s :
  launch_inv w n0 s -> launch_inv w n0 (dispatchRequest seq r s).
Proof.
  intros I0.
  destruct r;
    try (apply (advance_launch_inv _ _ s); [apply advance_dispatchRequest; exact I | exact I0]).
  - apply configurationDoneRequest_inv. exact I0.
  - apply launchRequest_inv. exact I0.
  - apply launchRequest_inv. exact I0.
Qed.

Lemma step_inv w n0 i s s' :
  launch_inv w n0 s -> step i s = Some s' -> launch_inv w n0 s'.
Proof.
  intros I0. destruct i; cbn [step].
  - intros [= <-]. apply dispatchRequest_inv. exact I0.
  - intros [= <-]. apply (advance_launch_inv _ _ s); [|exact I0].
    apply advance_handleRingRdbDapMessage; assumption.
  - intros [= <-]. apply (advance_launch_inv _ _ s); [|exact I0].
    apply advance_onStdoutData; assumption.
  - intros [= <-]. apply (advance_launch_inv _ _ s); [|exact I0].
    apply advance_onClose; assumption.
  - destruct (waiters (_configurationDone s) !! n) as [w'|] eqn:E; [|discriminate].
    destruct (deadline w' <=? now s); [|discriminate].
    intros [= <-]. destruct I0 as [I2 I3 I4].
    apply launchRequest_resume_inv; cbn; try assumption.
    destruct I4 as [I4 | I4]; [|right; right; exact I4].
    destruct (in_delete _ _ _ _ I4 E) as [-> | H]; [left | right; left]; auto.
  - destruct (timers s !! n) as [t|] eqn:E; [|discriminate].
    destruct (due t <=? now s); [|discriminate].
    intros [= <-].
    apply (advance_launch_inv _ _ (with_timers (delete n (timers s)) s)).
    + apply advance_run_task; try assumption. apply advance_refl.
    + destruct I0 as [I2 I3 I4]. split; assumption.
  - destruct ((now s <=? t) && forallb (fun d => t <=? d) (pending s));
      [|discriminate].
    intros [= <-]. destruct I0 as [I2 I3 I4]. split; assumption.
Qed.

Lemma run_inv w n0 inputs s s' :
  launch_inv w n0 s -> run inputs s = Some s' -> launch_inv w n0 s'.
Proof.
  revert s. induction inputs as [|i rest IH]; intros s I0; cbn [run].
  - intros [= <-]. exact I0.
  - destruct (step i s) as [s1|] eqn:E; [|discriminate].
    apply IH. exact (step_inv _ _ _ _ _ I0 E).
Qed.

End Launch.

(** C3.  In a session that has its backend process, and in which nothing
    that is due lies in the past (as in every state that a new session
    reaches, [reachable_timely]): [launchRequest], and [attachRequest] which
    is the same, sends nothing at first: the request becomes the latest
    waiter of [_configurationDone], with a timeout of 10000 milliseconds.
    When [configurationDone] arrives next, and in any case once the clock
    has passed the 10000 milliseconds, whatever has happened in between,
    the launch request with the sequence number of the response and the
    arguments of the client has been written to the standard input of the
    backend and [_launchDone] has been notified. *)
Theorem launch_proceeds_within_10_seconds (response : Response) (args : json)
    (s : Session) (inputs : list Input) (s' : Session) :
  let k := {| launch_response := response; launch_args := args |} in
  let s1 := launchRequest response args s in
  timely s -> is_Some (ringRdbProcess s) ->
  attachRequest response args s = s1 /\
  waiters (_configurationDone s1)
    = (waiters (_configurationDone s) ++ [{| resume := k; deadline := now s + 10000 |}])%list /\
  toBackend s1 = toBackend s /\
  toClient s1 = toClient s /\
  launch_line k
    = stringify
        (JObject [("type", JString "request");
                  ("seq", JNumber (Int (request_seq response)));
                  ("command", JString "launch");
                  ("arguments", args)]) +:+ NL /\
  (forall r,
     let s2 := configurationDoneRequest r s1 in
     toBackend s2 = (toBackend s ++ [launch_line k])%list /\
     notified (_launchDone s2) = S (notified (_launchDone s))) /\
  (run inputs s1 = Some s' -> now s + 10000 < now s' ->
   In (launch_line k) (toBackend s') /\
   (notified (_launchDone s) < notified (_launchDone s'))%nat).
Proof.
  intros k s1 Ht Hp.
  split; [reflexivity|]. split; [reflexivity|]. split; [reflexivity|].
  split; [reflexivity|]. split; [reflexivity|]. split.
  - intros r. cbv zeta. subst s1. unfold configurationDoneRequest, Subject_notify.
    cbn [_configurationDone sendResponse with_toClient launchRequest
         with_configurationDone Subject_wait waiters].
    rewrite rev_app_distr. cbn [rev app resume].
    match goal with
    | |- context [launchRequest_resume ?k0 ?x] =>
        destruct (launchRequest_resume_frame k0 x) as (N & _);
        pose proof (launchRequest_resume_toBackend k0 x Hp) as B
    end.
    rewrite B, N. split; reflexivity.
  - intros Hrun Hnow.
    pose proof (launchRequest_establishes response args s Hp) as I0.
    pose proof (run_timely _ _ _ (launchRequest_timely response args s Ht) Hrun) as I1.
    apply (run_inv _ _ _ _ _ I0) in Hrun. destruct Hrun as [_ _ [I4 | I4]].
    + exfalso. unfold timely, pending in I1. rewrite List.Forall_forall in I1.
      specialize (I1 (now s + 10000)).
      assert (now s' <= now s + 10000); [|lia].
      apply I1. apply in_or_app. left.
      apply (in_map deadline) in I4. exact I4.
    + exact I4.
Qed.

Lemma launch_proceeds_within_10_seconds_witness :
  exists s',
    run [FromClient 1 (Initialize (mkInitializeArguments false false None));
         FromClient 2 (Launch (JObject [("program", JString "main.ring")]));
         FromClient 3 Threads;
         TimePasses 10000; WaitTimesOut 0; TimePasses 10001] newSession = Some s' /\
    now s' = 10001 /\
    In (json_text "{'type':'request','seq':2,'command':'launch','arguments':{'program':'main.ring'}}"
          +:+ NL) (toBackend s') /\
    (0 < notified (_launchDone s'))%nat.
Proof.
  eexists. split; [vm_compute; reflexivity|]. split; [reflexivity|].
  pose proof
    (launch_proceeds_within_10_seconds (newResponse 2 "launch")
       (JObject [("program", JString "main.ring")])
       (dispatchRequest 1 (Initialize (mkInitializeArguments false false None)) newSession)
       [FromClient 3 Threads; TimePasses 10000; WaitTimesOut 0; TimePasses 10001]) as H.
  edestruct H as (_ & _ & _ & _ & _ & _ & H1).
  - constructor.
  - eexists. reflexivity.
  - destruct H1 as [H1 H2].
    + vm_compute. reflexivity.
    + vm_compute. reflexivity.
    + vm_compute in H1, H2 |- *. split; assumption.
Defined.

(** * Further properties *)

(** ** Messages of the backend that the relay does not know *)

(** An event of the backend whose name is none of those that the relay
    forwards. *)
Definition unrecognized_event (msg : json) : Prop :=
  prop_of msg "type" = Some (JString "event") /\
  forall e, In e proxied_events -> prop_of msg "event" <> Some (JString e).

(** A response of the backend whose command is none of those that the relay
    forwards. *)
Definition unrecognized_response (msg : json) : Prop :=
  prop_of msg "type" = Some (JString "response") /\
  forall c, In c proxied_commands -> prop_of msg "command" <> Some (JString c).

(** X1.  An event or a response of the backend with a name that the relay
    does not know is dropped: nothing reaches the client, the session stays
    as it is, and no exception is raised. *)
Theorem unrecognized_message_is_dropped (line : string) (msg : json) (s : Session) :
  parse line = Some msg ->
  unrecognized_event msg \/ unrecognized_response msg ->
  handleRingRdbDapOneMessage line s = (Returned, s).
Proof.
  intros Hp H. unfold handleRingRdbDapOneMessage. rewrite Hp.
  destruct H as [[Ht Hn] | [Ht Hn]]; rewrite (prop_of_prop _ _ _ Ht).
  - cbn [is_string String.eqb Ascii.eqb Bool.eqb].
    rewrite !is_string_false; [reflexivity | | |]; apply Hn; cbn; auto.
  - cbn [is_string String.eqb Ascii.eqb Bool.eqb].
    rewrite !is_string_false; [reflexivity | | | | | | | | | |]; apply Hn; cbn; auto 11.
Qed.

Lemma unrecognized_message_is_dropped_witness :
  handleRingRdbDapOneMessage
    (json_text "{'seq':3,'type':'event','event':'output','body':{'output':'hi'}}") newSession
    = (Returned, newSession) /\
  handleRingRdbDapOneMessage
    (json_text "{'seq':4,'type':'response','command':'evaluate','request_seq':9}") newSession
    = (Returned, newSession).
Proof.
  split.
  - eapply unrecognized_message_is_dropped; [reflexivity|].
    left. split; [reflexivity|]. intros e He. cbn in He.
    repeat destruct He as [<- | He]; try discriminate. contradiction.
  - eapply unrecognized_message_is_dropped; [reflexivity|].
    right. split; [reflexivity|]. intros c Hc. cbn in Hc.
    repeat destruct Hc as [<- | Hc]; try discriminate. contradiction.
Defined.

(** The three messages that an [exited] event of the backend brings the
    client. *)
Definition exited_messages (msg : json) (exitCode : option json) : list Sent :=
  let text := "ring process exited with code " +:+ template exitCode +:+ NL in
  [SendProxiedEvent (seq0 msg);
   SendEvent (OutputEvent text (if is_not_zero exitCode then "stderr" else "console"));
   SendEvent TerminatedEvent].

(** X2.  For an [exited] event of the backend whose body is an object, the
    client gets the event, then an output event on the error level, or on
    the console level when the exit code is the number 0, and then a
    terminate signal made by the relay.  When the event has no body, or
    the body [null], the event is forwarded all the same and a [TypeError]
    then leaves the handler. *)
Theorem exited_event_terminates (line : string) (msg : json) (s : Session) :
  parse line = Some msg ->
  prop_of msg "type" = Some (JString "event") ->
  prop_of msg "event" = Some (JString "exited") ->
  (forall fields, prop_of msg "body" = Some (JObject fields) ->
     handleRingRdbDapOneMessage line s
       = (Returned,
          with_toClient
            (toClient s ++ exited_messages msg (lookup_field "exitCode" fields))%list s)) /\
  (prop_of msg "body" = None \/ prop_of msg "body" = Some JNull ->
     handleRingRdbDapOneMessage line s = (Threw TypeError, sendProxiedEvent (seq0 msg) s)).
Proof.
  intros Hp Ht He. unfold handleRingRdbDapOneMessage.
  rewrite Hp, (prop_of_prop _ _ _ Ht), He. fold (seq0 msg).
  cbn [is_string String.eqb Ascii.eqb Bool.eqb].
  destruct (prop_of_object _ _ _ Ht) as [fs ->].
  assert (Hb : forall b, prop_of (JObject fs) "body" = b ->
               prop (seq0 (JObject fs)) "body" = inr b).
  { intros b <-. rewrite <- (seq0_other (JObject fs) "body") by discriminate.
    reflexivity. }
  split.
  - intros fields Hbody. rewrite (Hb _ Hbody). cbn [prop].
    unfold exited_messages, sendEvent, sendProxiedEvent.
    destruct (is_not_zero _); cbn; rewrite <- !app_assoc; reflexivity.
  - intros [Hbody | Hbody]; rewrite (Hb _ Hbody); reflexivity.
Qed.

Lemma exited_event_terminates_witness :
  toClient (snd (handleRingRdbDapOneMessage
                   (json_text "{'type':'event','event':'exited','body':{'exitCode':0}}")
                   newSession))
    = [SendProxiedEvent
         (JObject [("type", JString "event"); ("event", JString "exited");
                   ("body", JObject [("exitCode", JNumber (Int 0))]);
                   ("seq", JNumber (Int 0))]);
       SendEvent (OutputEvent ("ring process exited with code 0" +:+ NL) "console");
       SendEvent TerminatedEvent] /\
  handleRingRdbDapOneMessage (json_text "{'type':'event','event':'exited'}") newSession
    = (Threw TypeError,
       sendProxiedEvent
         (JObject [("type", JString "event"); ("event", JString "exited");
                   ("seq", JNumber (Int 0))]) newSession).
Proof.
  split.
  - destruct (exited_event_terminates
                (json_text "{'type':'event','event':'exited','body':{'exitCode':0}}")
                _ newSession eq_refl eq_refl eq_refl) as [H _].
    rewrite (H _ eq_refl). reflexivity.
  - apply (exited_event_terminates (json_text "{'type':'event','event':'exited'}")
             _ newSession eq_refl eq_refl eq_refl).
    left. reflexivity.
Defined.

(** ** Chunks *)

Lemma split_app_lines (c1 c2 : string) :
  Js.split LF (c1 +:+ NL +:+ c2) = (Js.split LF c1 ++ Js.split LF c2)%list.
Proof.
  induction c1 as [|c r IH].
  - reflexivity.
  - change (String c r +:+ NL +:+ c2) with (String c (r +:+ NL +:+ c2)).
    cbn [Js.split]. rewrite IH. destruct (Ascii.eqb c LF); [reflexivity|].
    destruct (Js.split LF r) as [|h t] eqn:E; [|reflexivity].
    exfalso. destruct r; cbn in E; [discriminate|].
    destruct (Ascii.eqb a LF); [discriminate|]. destruct (Js.split LF r); discriminate.
Qed.

Lemma handle_lines_app (l1 l2 : list string) (s : Session) :
  handle_lines (l1 ++ l2) s
    = match handle_lines l1 s with
      | (Returned, s1) => handle_lines l2 s1
      | (Threw e, s1) => (Threw e, s1)
      end.
Proof.
  revert s. induction l1 as [|line rest IH]; intros s; cbn [app handle_lines].
  - reflexivity.
  - destruct (0 <? str_length line); [|apply IH].
    destruct (handleRingRdbDapOneMessage line s) as [[|e] s1]; [apply IH | reflexivity].
Qed.

(** X3.  Two chunks that are joined by a line feed are handled like the
    first chunk and then, unless an exception left its handler, the second
    one: it makes no difference where between two lines the stream of the
    backend is cut. *)
Theorem chunks_compose (c1 c2 : string) (s : Session) :
  handleRingRdbDapMessage (c1 +:+ NL +:+ c2) s
    = match handleRingRdbDapMessage c1 s with
      | (Returned, s1) => handleRingRdbDapMessage c2 s1
      | (Threw e, s1) => (Threw e, s1)
      end.
Proof.
  unfold handleRingRdbDapMessage. rewrite split_app_lines. apply handle_lines_app.
Qed.

(** ** Lines for the backend *)

Section Framing.

(** The text has no line feed. *)
Fixpoint lf_free (s : string) : bool :=
  match s with
  | EmptyString => true
  | String c r => negb (Ascii.eqb c LF) && lf_free r
  end.

Lemma lf_free_app a b : lf_free (a +:+ b) = lf_free a && lf_free b.
Proof.
  induction a as [|c r IH]; [reflexivity|].
  change (String c r +:+ b) with (String c (r +:+ b)). cbn [lf_free].
  rewrite IH. apply andb_assoc.
Qed.

Lemma lf_free_line s : lf_free s = true -> Js.split LF (s +:+ NL) = [s; EmptyString].
Proof.
  induction s as [|c r IH]; [reflexivity|].
  change (String c r +:+ NL) with (String c (r +:+ NL)). cbn [lf_free Js.split].
  intros H. apply andb_true_iff in H as [Hc Hr].
  apply negb_true_iff in Hc. rewrite Hc, (IH Hr). reflexivity.
Qed.

Lemma lf_free_substring n m s : lf_free s = true -> lf_free (String.substring n m s) = true.
Proof.
  revert n m. induction s as [|c r IH]; intros [|n] [|m] H; cbn [String.substring]; auto.
  - cbn [lf_free] in *. apply andb_true_iff in H as [Hc Hr].
    rewrite Hc. cbn. auto.
  - cbn [lf_free] in H. apply andb_true_iff in H as [_ Hr]. auto.
  - cbn [lf_free] in H. apply andb_true_iff in H as [_ Hr]. auto.
Qed.

Lemma lf_free_substr_from n s : lf_free s = true -> lf_free (substr_from n s) = true.
Proof.
  revert n. induction s as [|c r IH]; intros [|n] H; cbn [substr_from]; auto.
  cbn [lf_free] in H. apply andb_true_iff in H as [_ Hr]. auto.
Qed.

Lemma lf_free_zeros n : lf_free (zeros n) = true.
Proof. induction n; [reflexivity | exact IHn]. Qed.

Lemma lf_free_string_of_uint d : lf_free (DecimalString.NilEmpty.string_of_uint d) = true.
Proof. induction d; cbn; auto. Qed.

Lemma lf_free_Z_to_string z : lf_free (Z_to_string z) = true.
Proof.
  unfold Z_to_string, DecimalString.NilZero.string_of_int,
    DecimalString.NilZero.string_of_uint.
  destruct (Z.to_int z) as [d|d]; destruct d; cbn [lf_free]; cbn;
    auto using lf_free_string_of_uint.
Qed.

Lemma lf_free_toString10 n : lf_free (toString 10 n) = true.
Proof.
  destruct n as [z|m scale|[]]; cbn [toString]; try reflexivity.
  - apply lf_free_Z_to_string.
  - unfold Dec_to_string. rewrite !lf_free_app.
    assert (H : lf_free (zeros (S (Pos.to_nat scale)
                                   - String.length (Z_to_string (Z.abs m)))
                           +:+ Z_to_string (Z.abs m)) = true).
    { rewrite lf_free_app, lf_free_zeros, lf_free_Z_to_string. reflexivity. }
    rewrite (lf_free_substring _ _ _ H), (lf_free_substr_from _ _ H).
    destruct (m <? 0); reflexivity.
Qed.

Lemma lf_free_quote_char c : lf_free (quote_char c) = true.
Proof. destruct c as [[] [] [] [] [] [] [] []]; reflexivity. Qed.

Lemma lf_free_quote s : lf_free (quote s) = true.
Proof.
  unfold quote. change (String DQ (quote_chars s) +:+ str1 DQ)
    with (String DQ (quote_chars s +:+ str1 DQ)).
  cbn [lf_free]. rewrite lf_free_app.
  assert (H : lf_free (quote_chars s) = true).
  { induction s as [|c r IH]; [reflexivity|].
    cbn [quote_chars]. rewrite lf_free_app, lf_free_quote_char, IH. reflexivity. }
  rewrite H. reflexivity.
Qed.

Lemma lf_free_join_comma parts :
  Forall (fun p => lf_free p = true) parts -> lf_free (join_comma parts) = true.
Proof.
  induction 1 as [|p rest Hp Hrest IH]; [reflexivity|].
  cbn [join_comma]. destruct rest as [|q rest]; [exact Hp|].
  rewrite !lf_free_app, Hp, IH. reflexivity.
Qed.

(** Whatever the value, [JSON.stringify] escapes the line feeds of its
    strings. *)
Fixpoint lf_free_stringify (v : json) : lf_free (stringify v) = true.
Proof.
  destruct v as [|b|n|s|items|fields]; cbn [stringify].
  - reflexivity.
  - destruct b; reflexivity.
  - destruct n; [apply lf_free_toString10 | apply lf_free_toString10 | reflexivity].
  - apply lf_free_quote.
  - rewrite !lf_free_app. rewrite lf_free_join_comma; [reflexivity|].
    induction items as [|x rest IH]; constructor; [apply lf_free_stringify | exact IH].
  - rewrite !lf_free_app. rewrite lf_free_join_comma; [reflexivity|].
    induction fields as [|[k x] rest IH]; constructor; [|exact IH].
    rewrite !lf_free_app, lf_free_quote, lf_free_stringify. reflexivity.
Qed.

End Framing.

(** X4.  What [sendRingRdbDapMessage] writes for a message is one line for
    the backend, whatever the strings of the message contain: the text of
    the message has no line feed, and the line feed that ends it is the
    only one.  With a backend process, nothing but this line is new in the
    session; without one, the message is lost and the session stays as it
    is. *)
Theorem backend_message_is_one_line (message : json) (s : Session) :
  Js.split LF (stringify message +:+ NL) = [stringify message; EmptyString] /\
  (is_Some (ringRdbProcess s) ->
   sendRingRdbDapMessage message s
     = with_toBackend (toBackend s ++ [stringify message +:+ NL])%list s) /\
  (ringRdbProcess s = None -> sendRingRdbDapMessage message s = s).
Proof.
  split; [apply lf_free_line, lf_free_stringify|].
  unfold sendRingRdbDapMessage. split.
  - intros [p ->]. reflexivity.
  - intros ->. reflexivity.
Qed.

Lemma backend_message_is_one_line_witness :
  toBackend
    (sendRingRdbDapMessage
       (JObject [("program", JString ("a" +:+ NL +:+ "b"))])
       (newRdbProcess newSession))
    = [String "{" (String DQ ("program" +:+ String DQ (":" +:+ String DQ
         ("a" +:+ String BACKSLASH ("nb" +:+ String DQ ("}" +:+ NL))))))] /\
  sendRingRdbDapMessage (JObject [("program", JString "a")]) newSession = newSession.
Proof.
  destruct (backend_message_is_one_line
              (JObject [("program", JString ("a" +:+ NL +:+ "b"))])
              (newRdbProcess newSession)) as (_ & H & _).
  split.
  - rewrite H by (eexists; reflexivity). reflexivity.
  - apply (backend_message_is_one_line (JObject [("program", JString "a")]) newSession).
    reflexivity.
Defined.

(** The requests that the relay passes on, with the command and the
    arguments that it puts into the line for the backend. *)
Definition passed_on (r : Request) : option (string * option json) :=
  match r with
  | SetBreakpoints args => Some ("setBreakpoints", Some args)
  | Threads => Some ("threads", None)
  | StackTrace args => Some ("stackTrace", Some args)
  | Scopes args => Some ("scopes", Some args)
  | Variables args => Some ("variables", Some args)
  | Continue args => Some ("continue", Some args)
  | Next args => Some ("next", Some args)
  | StepIn args => Some ("stepIn", Some args)
  | StepOut args => Some ("stepOut", Some args)
  | _ => None
  end.

(** X5.  A request that the relay passes on is never answered by the relay
    itself: the client gets nothing, and the only thing that changes is one
    more line for the backend, which carries the sequence number and the
    command of the request, so that the response of the backend can be
    matched with it.  Before there is a backend process, the request is
    lost without a trace. *)
Theorem passed_on_requests_are_not_answered (seq : Z) (r : Request) (cmd : string)
    (args : option json) (s : Session) :
  passed_on r = Some (cmd, args) ->
  let request := proxied_request (newResponse seq (command_of r)) cmd args in
  cmd = command_of r /\
  prop_of request "seq" = Some (JNumber (Int seq)) /\
  prop_of request "command" = Some (JString cmd) /\
  prop_of request "arguments" = args /\
  toClient (dispatchRequest seq r s) = toClient s /\
  (is_Some (ringRdbProcess s) ->
   dispatchRequest seq r s
     = with_toBackend (toBackend s ++ [stringify request +:+ NL])%list s) /\
  (ringRdbProcess s = None -> dispatchRequest seq r s = s).
Proof.
  intros H. cbv zeta.
  assert (E : dispatchRequest seq r s
              = sendRingRdbDapMessage
                  (proxied_request (newResponse seq (command_of r)) cmd args) s
              /\ cmd = command_of r).
  { destruct r; try discriminate H; injection H as <- <-; split; reflexivity. }
  destruct E as [E Hc]. rewrite E. split; [exact Hc|].
  split; [reflexivity|]. split; [reflexivity|].
  split; [destruct args; reflexivity|].
  unfold sendRingRdbDapMessage. split; [destruct (ringRdbProcess s); reflexivity|].
  split.
  - intros [p ->]. reflexivity.
  - intros ->. reflexivity.
Qed.

Lemma passed_on_requests_are_not_answered_witness :
  dispatchRequest 7 (StackTrace (JObject [("threadId", JNumber (Int 1))]))
    (newRdbProcess newSession)
    = with_toBackend
        [json_text "{'type':'request','seq':7,'command':'stackTrace','arguments':{'threadId':1}}"
           +:+ NL] (newRdbProcess newSession) /\
  dispatchRequest 7 Threads newSession = newSession.
Proof.
  split.
  - destruct (passed_on_requests_are_not_answered 7
                (StackTrace (JObject [("threadId", JNumber (Int 1))])) _ _
                (newRdbProcess newSession) eq_refl) as (_ & _ & _ & _ & _ & H & _).
    rewrite H by (eexists; reflexivity). reflexivity.
  - apply (passed_on_requests_are_not_answered 7 Threads _ _ newSession eq_refl).
    reflexivity.
Defined.

(** ** The answers to requests *)

Section Answers.

Definition is_event (m : Sent) : Prop :=
  match m with
  | SendEvent _ => True
  | _ => False
  end.

(** The message is the response, or the error response, to the request with
    the given sequence number and command. *)
Definition is_response_to (seq : Z) (cmd : string) (m : Sent) : Prop :=
  match m with
  | SendResponse r | SendErrorResponse r _ => request_seq r = seq /\ command r = cmd
  | _ => False
  end.

(** The requests that the relay answers itself, before their handler
    returns. *)
Definition answered_here (r : Request) : bool :=
  match r with
  | Initialize _ | ConfigurationDone | ReadMemory _ | SetVariable _ | Evaluate _
  | SetExpression _ | Custom _ => true
  | _ => false
  end.

(** The log of the client gets one response, with events before and after
    it. *)
Definition answers (seq : Z) (cmd : string) (s s' : Session) : Prop :=
  exists before m after,
    toClient s' = (toClient s ++ before ++ m :: after)%list /\
    Forall is_event before /\ is_response_to seq cmd m /\ Forall is_event after.

Lemma silent_toClient s s' : advance (fun _ => False) s s' -> toClient s' = toClient s.
Proof.
  intros [(new & E & F) _ _ _ _ _ _]. destruct new as [|m new].
  - rewrite E. apply app_nil_r.
  - inversion F as [|? ? []].
Qed.

Lemma events_toClient s s' :
  advance is_event s s' ->
  exists events, toClient s' = (toClient s ++ events)%list /\ Forall is_event events.
Proof. intros [H _ _ _ _ _ _]. exact H. Qed.

Lemma convertFromRuntime_toClient l s v s' :
  convertFromRuntime l s = (v, s') -> toClient s' = toClient s.
Proof.
  intros E. apply silent_toClient.
  eapply advance_convertFromRuntime; [exact E | apply advance_refl].
Qed.

Lemma answers_response seq cmd r s0 s :
  request_seq r = seq -> command r = cmd ->
  advance is_event s0 s -> answers seq cmd s0 (sendResponse r s).
Proof.
  intros Hs Hc H. apply events_toClient in H as (events & E & F).
  exists events, (SendResponse r), []. cbn. rewrite E, <- app_assoc.
  repeat split; auto.
Qed.

Lemma answers_error seq cmd r msg s0 s :
  request_seq r = seq -> command r = cmd ->
  advance is_event s0 s -> answers seq cmd s0 (sendErrorResponse r msg s).
Proof.
  intros Hs Hc H. apply events_toClient in H as (events & E & F).
  exists events, (SendErrorResponse r msg), []. cbn. rewrite E, <- app_assoc.
  repeat split; auto.
Qed.

Lemma answers_then seq cmd s0 s s' :
  answers seq cmd s0 s -> advance is_event s s' -> answers seq cmd s0 s'.
Proof.
  intros (before & m & after & E & Fb & Hm & Fa) H.
  apply events_toClient in H as (events & E' & F).
  exists before, m, (after ++ events)%list. rewrite E', E, <- !app_assoc.
  repeat split; auto. apply Forall_app. auto.
Qed.

Let is_event_event : forall e, is_event (SendEvent e) := fun _ => Logic.I.

Local Hint Resolve is_event_event advance_alloc advance_set_value
  advance_convertFromRuntime advance_evaluateRequest_repl : advance.

Lemma dispatchRequest_answers seq r s :
  answered_here r = true -> answers seq (command_of r) s (dispatchRequest seq r s).
Proof.
  intros Hr.
  destruct r as [args| | | | | | | | | | | | | |args|args|args|args| |cmd];
    try discriminate Hr; clear Hr; cbn [dispatchRequest command_of].
  - (* initialize *)
    unfold initializeRequest. eapply answers_then; cycle 1.
    + apply advance_sendEvent; [exact Logic.I|].
      apply advance_newRdbProcess, advance_refl.
    + apply answers_response; [reflexivity | reflexivity |].
      destruct (linesStartAt1 args), (supportsProgressReporting args),
        (supportsInvalidatedEvent args); auto 6 with advance.
  - (* configurationDone *)
    unfold configurationDoneRequest.
    destruct (Subject_notify (_configurationDone (sendResponse _ s))) as [woken sub].
    assert (H : answers seq "configurationDone" s
                  (with_configurationDone sub
                     (sendResponse (newResponse seq "configurationDone") s))).
    { destruct (answers_response seq "configurationDone"
                  (newResponse seq "configurationDone") s s eq_refl eq_refl
                  (advance_refl _ s)) as (b & m & a & E & ?).
      exists b, m, a. split; [exact E | assumption]. }
    destruct woken as [k|]; [|exact H].
    destruct H as (b & m & a & E & Fb & Hm & Fa).
    exists b, m, (a ++ [SendEvent (OutputEvent ("start ring-rdb process success" +:+ NL)
                                     "console")])%list.
    rewrite launchRequest_resume_toClient, E, <- !app_assoc.
    repeat split; auto. apply Forall_app. split; [exact Fa|].
    constructor; [exact Logic.I | constructor].
  - (* readMemory *)
    unfold readMemoryRequest.
    destruct (attached_memory _ s); apply answers_response; auto with advance.
  - (* setVariable *)
    unfold setVariableRequest. destruct (named_variable args s) as [l|].
    + destruct (convertFromRuntime l _) as [v s1] eqn:E.
      apply answers_response; [reflexivity | reflexivity |].
      destruct (memory_and_reference (deref s1 l)) as [[len r]|]; eauto 6 with advance.
    + apply answers_response; auto with advance.
  - (* evaluate *)
    unfold evaluateRequest.
    destruct (match ev_context args with
              | Some context =>
                  if String.eqb context "repl"
                  then evaluateRequest_repl (ev_expression args) s
                  else (None, s)
              | None => (None, s)
              end) as [reply s1] eqn:E1.
    assert (H1 : advance is_event s s1).
    { destruct (ev_context args) as [context|]; [|injection E1 as <- <-; auto with advance].
      destruct (String.eqb context "repl"); [|injection E1 as <- <-; auto with advance].
      eauto with advance. }
    destruct (if startsWith "$" (ev_expression args)
              then (getLocalVariable (_runtime s1) (substr_from 1 (ev_expression args)), s1)
              else let '(l, s) := alloc (newRuntimeVariable "eval"
                                           (convertToRuntime (ev_expression args))) s1 in
                   (Some l, s)) as [rv s2] eqn:E2.
    assert (H2 : advance is_event s s2).
    { destruct (startsWith "$" (ev_expression args)); [injection E2 as <- <-; exact H1|].
      destruct (alloc _ s1) as [l s3] eqn:E3. injection E2 as <- <-. eauto with advance. }
    destruct rv as [l|].
    + destruct (convertFromRuntime l s2) as [v s3] eqn:E3.
      apply answers_response; eauto with advance.
    + apply answers_response; auto.
  - (* setExpression *)
    unfold setExpressionRequest. destruct (startsWith "$" (se_expression args)).
    + destruct (getLocalVariable _ _) as [l|].
      * destruct (convertFromRuntime l _) as [v s1] eqn:E.
        apply answers_response; eauto 6 with advance.
      * apply answers_error; auto with advance.
    + apply answers_error; auto with advance.
  - (* custom *)
    unfold customRequest. destruct (String.eqb cmd "toggleFormatting").
    + apply answers_response; [reflexivity | reflexivity |].
      destruct (_useInvalidatedEvent (with_valuesInHex _ s)); auto 6 with advance.
    + apply answers_error; auto with advance.
Qed.

Lemma dispatchRequest_silent seq r s :
  answered_here r = false -> toClient (dispatchRequest seq r s) = toClient s.
Proof.
  intros Hr.
  destruct r; try discriminate Hr; clear Hr; cbn [dispatchRequest];
    try (unfold setBreakPointsRequest, threadsRequest, stackTraceRequest, scopesRequest,
           variablesRequest, continueRequest, nextRequest, stepInRequest, stepOutRequest,
           sendRingRdbDapMessage; destruct (ringRdbProcess s); reflexivity);
    try reflexivity.
  unfold cancelRequest.
  destruct (requestId args) as [n|]; [destruct (n =? 0)|];
    (destruct (progressId args) as [p|]; [destruct (String.eqb p EmptyString)|]);
    reflexivity.
Qed.

End Answers.

(** X6.  Every request that the relay handles itself ([initialize],
    [configurationDone], [readMemory], [setVariable], [evaluate],
    [setExpression] and the custom requests) gets exactly one response or
    error response before its handler returns, with the sequence number and
    the command of the request; what else the handler sends are events.  For
    every other request ([disconnect], [cancel], [launch], [attach] and the
    requests that are passed on) the handler sends nothing to the client. *)
Theorem requests_are_answered_once_or_not_at_all (seq : Z) (r : Request) (s : Session) :
  if answered_here r
  then answers seq (command_of r) s (dispatchRequest seq r s)
  else toClient (dispatchRequest seq r s) = toClient s.
Proof.
  destruct (answered_here r) eqn:E.
  - apply dispatchRequest_answers. exact E.
  - apply dispatchRequest_silent. exact E.
Qed.

(** ** What the session never takes back *)

(** The handles are those of a [Handles] that started at [START_HANDLE]:
    every handle that is in use is at least [START_HANDLE] and below the
    next one. *)
Definition fresh_handles (h : Handles) : Prop :=
  START_HANDLE <= nextHandle h /\
  forall k, is_Some (handleMap h !! k) -> START_HANDLE <= k < nextHandle h.

(** Every handle stands for a variable, none for a scope. *)
Definition only_variables (h : Handles) : Prop :=
  forall k v, handleMap h !! k = Some v -> exists l, v = HVariable l.

(** [grows s s'] says what no handler undoes on the way from [s] to [s']:
    the handles that are in use keep their meaning, and no handle is made
    for a scope, a capability of the
    client that has been noted stays noted, a backend process that has been
    spawned stays, and the counter of the progress ids and the clock do not
    go back. *)
Record grows (s s' : Session) : Prop := mkGrows {
  grows_handles :
    fresh_handles (_variableHandles s) ->
    fresh_handles (_variableHandles s') /\
    forall k v, handleMap (_variableHandles s) !! k = Some v ->
                handleMap (_variableHandles s') !! k = Some v;
  grows_variables :
    only_variables (_variableHandles s) -> only_variables (_variableHandles s');
  grows_reportProgress : _reportProgress s = true -> _reportProgress s' = true;
  grows_useInvalidatedEvent : _useInvalidatedEvent s = true -> _useInvalidatedEvent s' = true;
  grows_process : is_Some (ringRdbProcess s) -> is_Some (ringRdbProcess s');
  grows_progressId : _progressId s <= _progressId s';
  grows_now : now s <= now s'
}.

Create HintDb grows.

Section Grows.

Lemma grows_refl s : grows s s.
Proof. split; auto; lia. Qed.

Lemma grows_trans s1 s2 s3 : grows s1 s2 -> grows s2 s3 -> grows s1 s3.
Proof.
  intros [H1 V1 P1 U1 R1 I1 N1] [H2 V2 P2 U2 R2 I2 N2].
  split; auto; try lia.
  intros F. destruct (H1 F) as [F2 K1]. destruct (H2 F2) as [F3 K2]. auto.
Qed.

(** The fields that [grows] does not look at. *)
Lemma grows_with_runtime x s0 s : grows s0 s -> grows s0 (with_runtime x s).
Proof. intros []. split; assumption. Qed.

Lemma grows_with_heap x s0 s : grows s0 s -> grows s0 (with_heap x s).
Proof. intros []. split; assumption. Qed.

Lemma grows_with_nextLoc x s0 s : grows s0 s -> grows s0 (with_nextLoc x s).
Proof. intros []. split; assumption. Qed.

Lemma grows_with_configurationDone x s0 s : grows s0 s -> grows s0 (with_configurationDone x s).
Proof. intros []. split; assumption. Qed.

Lemma grows_with_launchDone x s0 s : grows s0 s -> grows s0 (with_launchDone x s).
Proof. intros []. split; assumption. Qed.

Lemma grows_with_cancellationTokens x s0 s :
  grows s0 s -> grows s0 (with_cancellationTokens x s).
Proof. intros []. split; assumption. Qed.

Lemma grows_with_cancelledProgressId x s0 s :
  grows s0 s -> grows s0 (with_cancelledProgressId x s).
Proof. intros []. split; assumption. Qed.

Lemma grows_with_isProgressCancellable x s0 s :
  grows s0 s -> grows s0 (with_isProgressCancellable x s).
Proof. intros []. split; assumption. Qed.

Lemma grows_with_valuesInHex x s0 s : grows s0 s -> grows s0 (with_valuesInHex x s).
Proof. intros []. split; assumption. Qed.

Lemma grows_with_clientLinesStartAt1 x s0 s :
  grows s0 s -> grows s0 (with_clientLinesStartAt1 x s).
Proof. intros []. split; assumption. Qed.

Lemma grows_with_timers x s0 s : grows s0 s -> grows s0 (with_timers x s).
Proof. intros []. split; assumption. Qed.

Lemma grows_with_toClient x s0 s : grows s0 s -> grows s0 (with_toClient x s).
Proof. intros []. split; assumption. Qed.

Lemma grows_with_toBackend x s0 s : grows s0 s -> grows s0 (with_toBackend x s).
Proof. intros []. split; assumption. Qed.

(** The fields that it looks at, with the values that the handlers give
    them. *)
Lemma grows_with_reportProgress s0 s : grows s0 s -> grows s0 (with_reportProgress true s).
Proof. intros []. split; auto. Qed.

Lemma grows_with_useInvalidatedEvent s0 s :
  grows s0 s -> grows s0 (with_useInvalidatedEvent true s).
Proof. intros []. split; auto. Qed.

Lemma grows_with_progressId s0 s : grows s0 s -> grows s0 (with_progressId (_progressId s + 1) s).
Proof. intros []. split; auto. cbn. lia. Qed.

Lemma grows_with_now t s0 s : now s <= t -> grows s0 s -> grows s0 (with_now t s).
Proof. intros Ht []. split; auto. cbn. lia. Qed.

Lemma grows_newRdbProcess s0 s : grows s0 s -> grows s0 (newRdbProcess s).
Proof. intros []. split; auto; intros _; eexists; reflexivity. Qed.

Lemma fresh_create v h :
  fresh_handles h ->
  fresh_handles (snd (Handles_create v h)) /\
  handleMap h !! nextHandle h = None /\
  handleMap (snd (Handles_create v h)) !! fst (Handles_create v h) = Some v /\
  forall k x, handleMap h !! k = Some x -> handleMap (snd (Handles_create v h)) !! k = Some x.
Proof.
  unfold fresh_handles, START_HANDLE. intros [Hn Hk]. cbn.
  assert (Hnone : handleMap h !! nextHandle h = None).
  { destruct (handleMap h !! nextHandle h) eqn:E; [|reflexivity].
    assert (1000 <= nextHandle h < nextHandle h) by (apply Hk; eauto). lia. }
  split; [split|].
  - lia.
  - intros k Hk'. destruct (decide (k = nextHandle h)) as [->|Hne]; [lia|].
    rewrite lookup_insert_ne in Hk' by congruence. apply Hk in Hk'. lia.
  - split; [exact Hnone|]. split; [apply lookup_insert_eq|].
    intros k x E. rewrite lookup_insert_ne; [exact E|]. congruence.
Qed.

Lemma grows_create_handle l s h s' s0 :
  create_handle l s = (h, s') -> grows s0 s -> grows s0 s'.
Proof.
  unfold create_handle. intros [= <- <-] [H V P U R I N]. split; auto.
  - intros F. destruct (H F) as [F1 K1].
    destruct (fresh_create (HVariable l) _ F1) as (F2 & _ & _ & K2).
    split; [exact F2|]. intros k v E. apply K2, K1, E.
  - intros O k v. cbn.
    destruct (decide (k = nextHandle (_variableHandles s))) as [->|Hne].
    + rewrite lookup_insert_eq. intros [= <-]. eauto.
    + rewrite lookup_insert_ne by congruence. apply (V O).
Qed.

End Grows.

#[export] Hint Resolve grows_refl grows_with_runtime grows_with_heap grows_with_nextLoc
  grows_with_configurationDone grows_with_launchDone grows_with_cancellationTokens
  grows_with_cancelledProgressId grows_with_isProgressCancellable grows_with_valuesInHex
  grows_with_clientLinesStartAt1 grows_with_timers grows_with_toClient
  grows_with_toBackend grows_with_reportProgress grows_with_useInvalidatedEvent
  grows_with_progressId grows_newRdbProcess grows_create_handle : grows.

(** Takes apart the state that a handler computes, with the equations of
    the calls that return a pair. *)
Ltac grows_cases :=
  repeat match goal with
    | |- grows _ (let '(_, _) := ?e in _) => destruct e as [? ?] eqn:?
    | |- grows _ (snd (let '(_, _) := ?e in _)) => destruct e as [? ?] eqn:?
    | |- grows _ (match ?e with _ => _ end) => destruct e eqn:?
    | |- grows _ (snd (match ?e with _ => _ end)) => destruct e eqn:?
    | |- grows _ (snd (_, _)) => cbn [snd]
    | |- grows _ ?t =>
        match t with
        | context [match ?e with _ => _ end] => destruct e eqn:?
        end
    end.

Section GrowsHandlers.

Lemma grows_send m s0 s : grows s0 s -> grows s0 (with_toClient (toClient s ++ [m])%list s).
Proof. auto with grows. Qed.

Lemma grows_sendEvent e s0 s : grows s0 s -> grows s0 (sendEvent e s).
Proof. apply grows_send. Qed.

Lemma grows_sendProxiedEvent e s0 s : grows s0 s -> grows s0 (sendProxiedEvent e s).
Proof. apply grows_send. Qed.

Lemma grows_sendResponse r s0 s : grows s0 s -> grows s0 (sendResponse r s).
Proof. apply grows_send. Qed.

Lemma grows_sendProxiedResponse r s0 s : grows s0 s -> grows s0 (sendProxiedResponse r s).
Proof. apply grows_send. Qed.

Lemma grows_sendErrorResponse r msg s0 s : grows s0 s -> grows s0 (sendErrorResponse r msg s).
Proof. apply grows_send. Qed.

Lemma grows_timeout ms k s0 s : grows s0 s -> grows s0 (timeout ms k s).
Proof. unfold timeout. auto with grows. Qed.

Lemma grows_sendRingRdbDapMessage message s0 s :
  grows s0 s -> grows s0 (sendRingRdbDapMessage message s).
Proof. unfold sendRingRdbDapMessage. destruct (ringRdbProcess s); auto with grows. Qed.

Lemma grows_alloc v s l s' s0 : alloc v s = (l, s') -> grows s0 s -> grows s0 s'.
Proof. unfold alloc. intros [= <- <-] H. auto with grows. Qed.

Lemma grows_set_value l x s s0 : grows s0 s -> grows s0 (set_value l x s).
Proof. unfold set_value. auto with grows. Qed.

Lemma grows_set_reference l r s s0 : grows s0 s -> grows s0 (set_reference l r s).
Proof. unfold set_reference. auto with grows. Qed.

Local Hint Resolve grows_sendEvent grows_sendProxiedEvent grows_sendResponse
  grows_sendProxiedResponse grows_sendErrorResponse grows_timeout
  grows_sendRingRdbDapMessage grows_alloc grows_set_value grows_set_reference : grows.

Lemma grows_reference_or_create l s r s' s0 :
  reference_or_create l s = (r, s') -> grows s0 s -> grows s0 s'.
Proof.
  unfold reference_or_create. intros E H. result_cases; simplify_eq; eauto with grows.
Qed.

Lemma grows_reference_or_create_lazy l s r s' s0 :
  reference_or_create_lazy l s = (r, s') -> grows s0 s -> grows s0 s'.
Proof.
  unfold reference_or_create_lazy. intros E H.
  result_cases; simplify_eq; eauto 6 with grows.
Qed.

Local Hint Resolve grows_reference_or_create grows_reference_or_create_lazy : grows.

Lemma grows_convertFromRuntime l s v s' s0 :
  convertFromRuntime l s = (v, s') -> grows s0 s -> grows s0 s'.
Proof.
  unfold convertFromRuntime. intros E H. result_cases; simplify_eq; eauto 6 with grows.
Qed.

Lemma grows_progressSequence s s0 : grows s0 s -> grows s0 (progressSequence s).
Proof.
  unfold progressSequence. intros H. apply grows_timeout.
  apply (grows_with_progressId s0 s H).
Qed.

Lemma grows_progressSequence_end ID m s s0 :
  grows s0 s -> grows s0 (progressSequence_end ID m s).
Proof. unfold progressSequence_end. auto 6 with grows. Qed.

Local Hint Resolve grows_convertFromRuntime grows_progressSequence
  grows_progressSequence_end : grows.

Lemma grows_progressSequence_loop ID i s s0 :
  grows s0 s -> grows s0 (progressSequence_loop ID i s).
Proof. unfold progressSequence_loop. destruct (i <? 100); auto with grows. Qed.

Local Hint Resolve grows_progressSequence_loop : grows.

Lemma grows_run_task k s s0 : grows s0 s -> grows s0 (run_task k s).
Proof. unfold run_task. intros H. grows_cases; auto 8 with grows. Qed.

Lemma grows_evaluateRequest_repl e s reply s' s0 :
  evaluateRequest_repl e s = (reply, s') -> grows s0 s -> grows s0 s'.
Proof.
  unfold evaluateRequest_repl. intros E H. result_cases; simplify_eq; auto 6 with grows.
Qed.

Local Hint Resolve grows_evaluateRequest_repl : grows.

Lemma grows_launchRequest_resume k s s0 :
  grows s0 s -> grows s0 (launchRequest_resume k s).
Proof. unfold launchRequest_resume. auto 6 with grows. Qed.

Local Hint Resolve grows_launchRequest_resume : grows.

Lemma grows_dispatchRequest seq r s : grows s (dispatchRequest seq r s).
Proof.
  destruct r; cbn [dispatchRequest];
    unfold initializeRequest, configurationDoneRequest, disconnectRequest, attachRequest,
      launchRequest, setBreakPointsRequest, threadsRequest, stackTraceRequest,
      scopesRequest, variablesRequest, continueRequest, nextRequest, stepInRequest,
      stepOutRequest, readMemoryRequest, setVariableRequest, evaluateRequest,
      setExpressionRequest, cancelRequest, customRequest;
    grows_cases; result_cases; simplify_eq; eauto 10 with grows.
Qed.

Lemma grows_handleRingRdbDapMessage data s :
  grows s (snd (handleRingRdbDapMessage data s)).
Proof.
  unfold handleRingRdbDapMessage. generalize (Js.split LF data). intros lines.
  revert s. induction lines as [|line rest IH]; intros s; cbn [handle_lines].
  - apply grows_refl.
  - destruct (0 <? str_length line); [|apply IH].
    assert (H : grows s (snd (handleRingRdbDapOneMessage line s))).
    { unfold handleRingRdbDapOneMessage. grows_cases; auto 8 with grows. }
    destruct (handleRingRdbDapOneMessage line s) as [[|e] s1]; cbn [snd] in *.
    + eapply grows_trans; [exact H | apply IH].
    + exact H.
Qed.

Lemma grows_step i s s' : step i s = Some s' -> grows s s'.
Proof.
  destruct i; cbn [step]; intros E; result_cases; simplify_eq.
  - apply grows_dispatchRequest.
  - apply grows_handleRingRdbDapMessage.
  - unfold onStdoutData. auto with grows.
  - unfold onClose. grows_cases; auto with grows.
  - auto with grows.
  - apply grows_run_task. auto with grows.
  - apply grows_with_now; [|apply grows_refl].
    match goal with H : _ && _ = true |- _ => apply andb_true_iff in H as [H _] end.
    lia.
Qed.

Lemma grows_run inputs s s' : run inputs s = Some s' -> grows s s'.
Proof.
  revert s. induction inputs as [|i rest IH]; intros s; cbn [run].
  - intros [= <-]. apply grows_refl.
  - destruct (step i s) as [s1|] eqn:E; [|discriminate].
    intros H. eapply grows_trans; [apply (grows_step i), E | apply IH, H].
Qed.

End GrowsHandlers.

(** A session with two local variables: the number [count], and the string
    [text] with the four bytes of [Ring] as its memory.  No handle has been
    made yet. *)
Definition session_with_locals : Session :=
  with_runtime
    {| sourceFile := "test.ring";
       variables := {[ "count" := 1%positive; "text" := 2%positive ]};
       breakPoints := ∅; breakpointId := 1 |}
    (with_heap
       {[ 1%positive := newRuntimeVariable "count" (VNumber (Int 42));
          2%positive :=
            {| name := "text"; value := VString "Ring";
               memory := Some [x52; x69; x6e; x67]; reference := None |} ]}
       (with_nextLoc 3%positive newSession)).

Lemma fresh_newHandles : fresh_handles newHandles.
Proof.
  split; [reflexivity|]. intros k [v H]. cbn in H. rewrite lookup_empty in H. discriminate.
Qed.

(** X7.  No handle is ever taken back or given a new meaning: whatever
    happens to the session, a reference that stood for something stands for
    the same thing afterwards, every handle in use is at least 1000 and
    below the next one, and so no number below 1000, and 0 in particular,
    is ever a handle. *)
Theorem handles_are_never_taken_back (inputs : list Input) (s s' : Session) :
  fresh_handles (_variableHandles s) ->
  run inputs s = Some s' ->
  fresh_handles (_variableHandles s') /\
  (forall k v, Handles_get (_variableHandles s) (Int k) = Some v ->
               Handles_get (_variableHandles s') (Int k) = Some v) /\
  (forall k, k < START_HANDLE -> Handles_get (_variableHandles s') (Int k) = None).
Proof.
  intros F H. destruct (grows_handles _ _ (grows_run _ _ _ H) F) as [F' K].
  split; [exact F'|]. split; [exact K|].
  intros k Hk. cbn. destruct (handleMap (_variableHandles s') !! k) eqn:E; [|reflexivity].
  destruct F' as [_ F']. assert (START_HANDLE <= k < nextHandle (_variableHandles s')).
  { apply F'. eauto. }
  lia.
Qed.

Lemma handles_are_never_taken_back_witness :
  let s1 := dispatchRequest 1 (Evaluate (mkEvaluateArguments "$text" (Some "hover")))
              session_with_locals in
  let s2 := dispatchRequest 2 (Custom "toggleFormatting") s1 in
  Handles_get (_variableHandles s1) (Int 1000) = Some (HVariable 2%positive) /\
  Handles_get (_variableHandles s2) (Int 1000) = Some (HVariable 2%positive) /\
  Handles_get (_variableHandles s2) (Int 0) = None.
Proof.
  cbv zeta. split; [reflexivity|].
  destruct (handles_are_never_taken_back
              [FromClient 1 (Evaluate (mkEvaluateArguments "$text" (Some "hover")))]
              session_with_locals _ fresh_newHandles eq_refl) as (F & _ & _).
  destruct (handles_are_never_taken_back
              [FromClient 2 (Custom "toggleFormatting")] _ _ F eq_refl) as (_ & K & Z).
  split; [apply K; reflexivity | apply Z; reflexivity].
Defined.

(** X8.  Nothing turns off what has been turned on: a backend process that
    has been spawned is still written to after it has closed, the
    capabilities that the client has declared stay noted, and the counter
    of the progress ids and the clock never go back. *)
Theorem nothing_is_turned_off (inputs : list Input) (s s' : Session) :
  run inputs s = Some s' ->
  (is_Some (ringRdbProcess s) -> is_Some (ringRdbProcess s')) /\
  (_reportProgress s = true -> _reportProgress s' = true) /\
  (_useInvalidatedEvent s = true -> _useInvalidatedEvent s' = true) /\
  _progressId s <= _progressId s' /\
  now s <= now s'.
Proof. intros H. destruct (grows_run _ _ _ H). auto. Qed.

Lemma nothing_is_turned_off_witness :
  let s := dispatchRequest 1 (Initialize (mkInitializeArguments true true None)) newSession in
  let s' := dispatchRequest 2 Threads (onClose (Some 0) s) in
  is_Some (ringRdbProcess s') /\ _reportProgress s' = true /\
  _useInvalidatedEvent s' = true.
Proof.
  cbv zeta.
  destruct (nothing_is_turned_off [BackendClose (Some 0); FromClient 2 Threads]
              (dispatchRequest 1 (Initialize (mkInitializeArguments true true None))
                 newSession) _ eq_refl) as (R & P & U & _).
  split; [apply R; eexists; reflexivity|]. split; [apply P | apply U]; reflexivity.
Defined.

(** ** Numbers and their text *)

Section NumberText.

Import DecimalString.

Let T := NilEmpty.string_of_uint.

Lemma span_digits_uint d : span_digits (T d) = (T d, EmptyString).
Proof.
  induction d; cbn [T NilEmpty.string_of_uint span_digits]; [reflexivity|..];
    change (NilEmpty.string_of_uint d) with (T d); rewrite IHd; reflexivity.
Qed.

Lemma digits_value_from_uint d acc :
  digits_value_from (Z.pos acc) (T d) = Z.pos (Pos.of_uint_acc d acc).
Proof.
  revert acc. induction d; intros acc;
    cbn [T NilEmpty.string_of_uint digits_value_from Pos.of_uint_acc]; [reflexivity|..];
    change (NilEmpty.string_of_uint d) with (T d); rewrite <- IHd; f_equal;
    unfold digit_value; cbn; lia.
Qed.

Lemma digits_value_uint d : digits_value (T d) = Z.of_N (Pos.of_uint d).
Proof.
  unfold digits_value.
  induction d; cbn [T NilEmpty.string_of_uint digits_value_from Pos.of_uint];
    [reflexivity | exact IHd |..];
    change (NilEmpty.string_of_uint d) with (T d);
    apply (digits_value_from_uint d).
Qed.

Lemma trim_end_uint d : trim_end (T d) = T d.
Proof.
  induction d; cbn [T NilEmpty.string_of_uint trim_end]; [reflexivity|..];
    change (NilEmpty.string_of_uint d) with (T d); rewrite IHd;
    destruct (T d); reflexivity.
Qed.

Lemma trim_end_cons c r :
  trim_end r = r -> is_space c = false -> trim_end (String c r) = String c r.
Proof. intros Hr Hc. cbn [trim_end]. rewrite Hr, Hc. destruct r; reflexivity. Qed.

Lemma append_empty s : s +:+ EmptyString = s.
Proof.
  induction s as [|c r IH]; [reflexivity|].
  change (String c r +:+ EmptyString) with (String c (r +:+ EmptyString)).
  rewrite IH. reflexivity.
Qed.

(** The text of a number that is not zero does not start with a zero. *)
Lemma nzhead_head u u' : Decimal.nzhead u <> Decimal.D0 u'.
Proof. induction u; cbn; try discriminate. exact IHu. Qed.

Lemma to_uint_head p u : Pos.to_uint p <> Decimal.D0 u.
Proof.
  intros E. pose proof (DecimalPos.Unsigned.to_of (Pos.to_uint p)) as H.
  rewrite DecimalPos.Unsigned.of_to in H. change (N.to_uint (N.pos p)) with (Pos.to_uint p) in H.
  rewrite E in H. rewrite DecimalFacts.unorm_D0 in H. unfold Decimal.unorm in H.
  destruct (Decimal.nzhead u) eqn:N; try discriminate H.
  - injection H as ->. exact (DecimalPos.Unsigned.to_uint_nonzero p E).
  - exact (nzhead_head _ _ N).
Qed.

(** What the scanner of decimal numbers makes of the digits of a positive
    number. *)
Lemma scan_decimal_digits p :
  scan_decimal (T (Pos.to_uint p)) = Some (Int (Z.pos p), EmptyString).
Proof.
  assert (V : digits_value (T (Pos.to_uint p)) = Z.pos p).
  { rewrite digits_value_uint, DecimalPos.Unsigned.of_to. reflexivity. }
  pose proof (span_digits_uint (Pos.to_uint p)) as S.
  pose proof (DecimalPos.Unsigned.to_uint_nonnil p) as N.
  unfold scan_decimal.
  destruct (Pos.to_uint p) as [|d|d|d|d|d|d|d|d|d|d] eqn:E; [contradiction| | | | | | | | | |];
    cbn [T NilEmpty.string_of_uint] in *;
    change (NilEmpty.string_of_uint d) with (T d) in *;
    cbv beta iota zeta;
    match goal with
    | |- context [String.prefix ?a ?b] => change (String.prefix a b) with false
    end;
    cbv beta iota zeta; rewrite S; cbn [String.eqb andb scan_exponent];
    unfold decimal_value; rewrite append_empty, V;
    change (0 - str_length EmptyString) with 0; change (0 <=? 0) with true;
    cbv beta iota zeta; change (10 ^ 0) with 1; rewrite Z.mul_1_r; reflexivity.
Qed.

Lemma Z_to_string_pos p : Z_to_string (Z.pos p) = T (Pos.to_uint p).
Proof.
  unfold Z_to_string, NilZero.string_of_int, NilZero.string_of_uint. cbn [Z.to_int].
  pose proof (DecimalPos.Unsigned.to_uint_nonnil p) as N.
  destruct (Pos.to_uint p); [contradiction|..]; reflexivity.
Qed.

Lemma Z_to_string_neg p : Z_to_string (Z.neg p) = String "-" (T (Pos.to_uint p)).
Proof.
  unfold Z_to_string, NilZero.string_of_int, NilZero.string_of_uint. cbn [Z.to_int].
  pose proof (DecimalPos.Unsigned.to_uint_nonnil p) as N.
  destruct (Pos.to_uint p); [contradiction|..]; reflexivity.
Qed.

Lemma trim_digits p : trim (T (Pos.to_uint p)) = T (Pos.to_uint p).
Proof.
  unfold trim.
  assert (H : trim_start (T (Pos.to_uint p)) = T (Pos.to_uint p)).
  { destruct (Pos.to_uint p); reflexivity. }
  rewrite H. apply trim_end_uint.
Qed.

Lemma scan_decimal_Z_to_string z : scan_decimal (Z_to_string z) = Some (Int z, EmptyString).
Proof.
  destruct z as [|p|p]; [reflexivity | |].
  - rewrite Z_to_string_pos. apply scan_decimal_digits.
  - rewrite Z_to_string_neg.
    assert (V : digits_value (T (Pos.to_uint p)) = Z.pos p).
    { rewrite digits_value_uint, DecimalPos.Unsigned.of_to. reflexivity. }
    pose proof (span_digits_uint (Pos.to_uint p)) as S.
    pose proof (DecimalPos.Unsigned.to_uint_nonnil p) as N.
    unfold scan_decimal.
    destruct (Pos.to_uint p) as [|d|d|d|d|d|d|d|d|d|d] eqn:E; [contradiction| | | | | | | | | |];
      cbn [T NilEmpty.string_of_uint] in *;
      change (NilEmpty.string_of_uint d) with (T d) in *;
      cbv beta iota zeta;
      match goal with
      | |- context [String.prefix ?a ?b] => change (String.prefix a b) with false
      end;
      cbv beta iota zeta; rewrite S; cbn [String.eqb andb scan_exponent];
      unfold decimal_value; rewrite append_empty, V;
    change (0 - str_length EmptyString) with 0; change (0 <=? 0) with true;
    cbv beta iota zeta; change (10 ^ 0) with 1; rewrite Z.mul_1_r; reflexivity.
Qed.

Lemma trim_Z_to_string z : trim (Z_to_string z) = Z_to_string z.
Proof.
  destruct z as [|p|p]; [reflexivity | |].
  - rewrite Z_to_string_pos. apply trim_digits.
  - rewrite Z_to_string_neg. unfold trim. cbn [trim_start is_space].
    change (is_space "-") with false. cbv iota.
    apply trim_end_cons; [apply trim_end_uint | reflexivity].
Qed.

(** [parseFloat(String(z))] is [z]. *)
Lemma parseFloat_Z_to_string z : parseFloat (Z_to_string z) = Some (Int z).
Proof.
  unfold parseFloat.
  assert (H : trim_start (Z_to_string z) = Z_to_string z).
  { destruct z as [|p|p]; [reflexivity | |].
    - rewrite Z_to_string_pos. destruct (Pos.to_uint p); reflexivity.
    - rewrite Z_to_string_neg. reflexivity. }
  rewrite H, scan_decimal_Z_to_string. reflexivity.
Qed.

(** [Number(String(z))] is [z]. *)
Lemma Number_Z_to_string z : Number (Z_to_string z) = Some (Int z).
Proof.
  unfold Number. rewrite trim_Z_to_string.
  pose proof (scan_decimal_Z_to_string z) as S.
  destruct z as [|p|p]; [reflexivity | |].
  - rewrite Z_to_string_pos in *. pose proof (to_uint_head p) as H.
    pose proof (DecimalPos.Unsigned.to_uint_nonnil p) as N.
    destruct (Pos.to_uint p) as [|d|d|d|d|d|d|d|d|d|d];
      [contradiction | exfalso; exact (H d eq_refl) |..];
      cbn [T NilEmpty.string_of_uint] in *; rewrite S; reflexivity.
  - rewrite Z_to_string_neg in *. rewrite S. reflexivity.
Qed.

(** [convertToRuntime(String(z))] is the number [z]. *)
Lemma convertToRuntime_Z_to_string z : convertToRuntime (Z_to_string z) = VNumber (Int z).
Proof.
  unfold convertToRuntime. rewrite trim_Z_to_string, parseFloat_Z_to_string.
  destruct z as [|p|p]; [reflexivity | |].
  - rewrite Z_to_string_pos. pose proof (DecimalPos.Unsigned.to_uint_nonnil p) as N.
    destruct (Pos.to_uint p); [contradiction|..]; reflexivity.
  - rewrite Z_to_string_neg. reflexivity.
Qed.

End NumberText.

(** ** Variables as the client sees them *)

Section Conversion.

(** The object with a reference. *)
Definition referenced (v : RuntimeVariable) (r : Z) : RuntimeVariable :=
  {| name := name v; value := value v; memory := memory v; reference := Some r |}.

Lemma deref_set_reference l r s : deref (set_reference l r s) l = referenced (deref s l) r.
Proof. unfold deref at 1, set_reference. cbn. rewrite lookup_insert_eq. reflexivity. Qed.

Lemma deref_set_value l x s :
  deref (set_value l x s) l
    = {| name := name (deref s l); value := x; memory := memory (deref s l);
         reference := reference (deref s l) |}.
Proof. unfold deref at 1, set_value. cbn. rewrite lookup_insert_eq. reflexivity. Qed.

Lemma reference_or_create_known l s r :
  reference (deref s l) = Some r -> reference_or_create l s = (r, s).
Proof. unfold reference_or_create. intros ->. reflexivity. Qed.

Lemma reference_or_create_lazy_known l s r :
  reference (deref s l) = Some r -> reference_or_create_lazy l s = (r, s).
Proof. unfold reference_or_create_lazy. intros ->. reflexivity. Qed.

Lemma referenced_known v r : reference v = Some r -> referenced v r = v.
Proof. destruct v as [n x m o]. cbn. intros ->. reflexivity. Qed.

(** After [v.reference ??= this._variableHandles.create(v)], the object has
    the reference that the expression gives, and is otherwise as before. *)
Lemma reference_or_create_deref l s r s' :
  reference_or_create l s = (r, s') ->
  deref s' l = referenced (deref s l) r /\
  _valuesInHex s' = _valuesInHex s /\ _runtime s' = _runtime s.
Proof.
  unfold reference_or_create. destruct (reference (deref s l)) as [r0|] eqn:E.
  - intros [= <- <-]. rewrite (referenced_known _ _ E). auto.
  - unfold create_handle, Handles_create. intros [= <- <-].
    rewrite deref_set_reference. auto.
Qed.

Lemma reference_or_create_lazy_deref l s r s' :
  (l < nextLoc s)%positive ->
  reference_or_create_lazy l s = (r, s') ->
  deref s' l = referenced (deref s l) r /\
  _valuesInHex s' = _valuesInHex s /\ _runtime s' = _runtime s.
Proof.
  intros Hl. unfold reference_or_create_lazy.
  destruct (reference (deref s l)) as [r0|] eqn:E.
  - intros [= <- <-]. rewrite (referenced_known _ _ E). auto.
  - unfold alloc, create_handle, Handles_create. cbn. intros [= <- <-].
    rewrite deref_set_reference. split; [|auto]. f_equal.
    unfold deref. cbn. rewrite !lookup_insert_ne by lia. reflexivity.
Qed.

Lemma convertFromRuntime_again l s v s' :
  (l < nextLoc s)%positive ->
  convertFromRuntime l s = (v, s') -> convertFromRuntime l s' = (v, s').
Proof.
  intros Hl E. unfold convertFromRuntime in E.
  destruct (includes "lazy" (name (deref s l))) eqn:Hlazy.
  - destruct (reference_or_create_lazy l s) as [r s1] eqn:E1.
    destruct (reference_or_create_lazy_deref _ _ _ _ Hl E1) as (D1 & X1 & _).
    assert (K1 : reference_or_create_lazy l s1 = (r, s1)).
    { apply reference_or_create_lazy_known. rewrite D1. reflexivity. }
    assert (K2 : reference_or_create l s1 = (r, s1)).
    { apply reference_or_create_known. rewrite D1. reflexivity. }
    destruct (memory (deref s l)) eqn:Hm.
    + rewrite K2 in E. injection E as <- <-.
      unfold convertFromRuntime. rewrite D1. cbn [referenced name value memory reference].
      rewrite Hlazy, K1, Hm, K2. reflexivity.
    + injection E as <- <-.
      unfold convertFromRuntime. rewrite D1. cbn [referenced name value memory reference].
      rewrite Hlazy, K1, Hm. reflexivity.
  - destruct (value (deref s l)) as [b|x|x|children] eqn:Hv.
    4: {
      destruct (reference_or_create l s) as [r s1] eqn:E1.
      destruct (reference_or_create_deref _ _ _ _ E1) as (D1 & X1 & _).
      assert (K2 : reference_or_create l s1 = (r, s1)).
      { apply reference_or_create_known. rewrite D1. reflexivity. }
      destruct (memory (deref s l)) eqn:Hm.
      + rewrite K2 in E. injection E as <- <-.
        unfold convertFromRuntime. rewrite D1. cbn [referenced name value memory reference].
        rewrite Hlazy, Hv, K2, Hm, K2. reflexivity.
      + injection E as <- <-.
        unfold convertFromRuntime. rewrite D1. cbn [referenced name value memory reference].
        rewrite Hlazy, Hv, K2, Hm. reflexivity. }
    all: try (destruct (is_integral x) eqn:Hi).
    all: destruct (memory (deref s l)) eqn:Hm;
      [ destruct (reference_or_create l s) as [r s1] eqn:E1;
        destruct (reference_or_create_deref _ _ _ _ E1) as (D1 & X1 & _);
        assert (K2 : reference_or_create l s1 = (r, s1))
          by (apply reference_or_create_known; rewrite D1; reflexivity)
      | ].
    all: injection E as <- <-; unfold convertFromRuntime;
      rewrite ?D1; cbn [referenced name value memory reference];
      rewrite Hlazy, Hv, ?Hi, Hm, ?K2; unfold formatNumber; rewrite ?X1;
      reflexivity.
Qed.

End Conversion.

(** The values that a text can stand for: booleans, strings, whole numbers
    and the infinities. *)
Definition writable (x : IRuntimeVariableType) : Prop :=
  match x with
  | VBoolean _ | VString _ | VNumber (Int _) | VNumber (Infinity _) => True
  | _ => False
  end.

Section Display.

(** The text that [convertFromRuntime] shows for the value of a variable
    that is not lazy. *)
Definition shown (s : Session) (x : IRuntimeVariableType) : string :=
  match x with
  | VArray _ => "Object"
  | VNumber n => if is_integral n then formatNumber s n else toString 10 n
  | VString text => in_quotes text
  | VBoolean b => if b then "true" else "false"
  end.

Lemma convertFromRuntime_shown l s :
  includes "lazy" (name (deref s l)) = false ->
  var_value (fst (convertFromRuntime l s)) = shown s (value (deref s l)).
Proof.
  intros Hlazy. unfold convertFromRuntime. rewrite Hlazy.
  destruct (value (deref s l)) as [b|x|x|children]; cbn [shown].
  4: destruct (reference_or_create l s) as [r s1].
  2: destruct (is_integral x).
  all: destruct (memory (deref s l)); [|reflexivity].
  all: match goal with
       | |- context [reference_or_create ?l ?s] => destruct (reference_or_create l s)
       end; reflexivity.
Qed.

Lemma without_last_snoc x c : without_last (x +:+ str1 c) = x.
Proof.
  induction x as [|a r IH]; [reflexivity|].
  change (String a r +:+ str1 c) with (String a (r +:+ str1 c)).
  cbn [without_last]. rewrite IH.
  destruct r; reflexivity.
Qed.

Lemma trim_end_snoc x c : is_space c = false -> trim_end (x +:+ str1 c) = x +:+ str1 c.
Proof.
  intros Hc. induction x as [|a r IH].
  - change (EmptyString +:+ str1 c) with (String c EmptyString).
    cbn [trim_end]. rewrite Hc. reflexivity.
  - change (String a r +:+ str1 c) with (String a (r +:+ str1 c)).
    cbn [trim_end]. rewrite IH. destruct r; reflexivity.
Qed.

Lemma convertToRuntime_in_quotes text : convertToRuntime (in_quotes text) = VString text.
Proof.
  unfold convertToRuntime, in_quotes.
  assert (T : trim (str1 DQ +:+ text +:+ str1 DQ) = String DQ (text +:+ str1 DQ)).
  { unfold trim. change (str1 DQ +:+ text +:+ str1 DQ) with (String DQ (text +:+ str1 DQ)).
    cbn [trim_start]. change (is_space DQ) with false. cbv iota.
    change (String DQ (text +:+ str1 DQ)) with ((String DQ text) +:+ str1 DQ).
    apply trim_end_snoc. reflexivity. }
  rewrite T, substr_first_last. cbn [without_first_and_last]. rewrite without_last_snoc.
  reflexivity.
Qed.


Lemma convertToRuntime_shown s x :
  _valuesInHex s = false -> writable x -> convertToRuntime (shown s x) = x.
Proof.
  intros Hhex Hw.
  destruct x as [[]|[z|m k|[]]|text|children]; cbn [shown is_integral];
    unfold formatNumber; rewrite ?Hhex; try contradiction; try reflexivity.
  - cbn [toString]. change (10 =? 16) with false. cbv iota.
    apply convertToRuntime_Z_to_string.
  - apply convertToRuntime_in_quotes.
Qed.

End Display.

(** X9.  While numbers are shown in decimal, the text that the client is
    shown for a variable can be written back: [convertToRuntime] makes of it
    the value that the variable has.  This holds for the booleans, for every
    string, whatever it contains, for the whole numbers and for the
    infinities, of a variable that is not lazy. *)
Theorem shown_value_reads_back (l : loc) (s : Session) :
  includes "lazy" (name (deref s l)) = false ->
  _valuesInHex s = false ->
  writable (value (deref s l)) ->
  convertToRuntime (var_value (fst (convertFromRuntime l s))) = value (deref s l).
Proof.
  intros Hlazy Hhex Hw. rewrite (convertFromRuntime_shown _ _ Hlazy).
  apply convertToRuntime_shown; assumption.
Qed.

Lemma shown_value_reads_back_witness :
  convertToRuntime (var_value (fst (convertFromRuntime 1%positive session_with_locals)))
    = VNumber (Int 42) /\
  convertToRuntime (var_value (fst (convertFromRuntime 2%positive session_with_locals)))
    = VString "Ring".
Proof.
  split.
  - apply (shown_value_reads_back 1%positive session_with_locals); reflexivity || exact Logic.I.
  - apply (shown_value_reads_back 2%positive session_with_locals); reflexivity || exact Logic.I.
Defined.



Section ShowingAgain.

Lemma convertFromRuntime_keeps l s v s' :
  (l < nextLoc s)%positive ->
  convertFromRuntime l s = (v, s') ->
  name (deref s' l) = name (deref s l) /\
  value (deref s' l) = value (deref s l) /\
  memory (deref s' l) = memory (deref s l) /\
  _runtime s' = _runtime s /\
  _valuesInHex s' = _valuesInHex s.
Proof.
  intros Hl E. unfold convertFromRuntime in E.
  destruct (includes "lazy" (name (deref s l))) eqn:Hlazy.
  - destruct (reference_or_create_lazy l s) as [r s1] eqn:E1.
    destruct (reference_or_create_lazy_deref _ _ _ _ Hl E1) as (D1 & X1 & R1).
    destruct (memory (deref s l)) eqn:Hm.
    + destruct (reference_or_create l s1) as [r2 s2] eqn:E2.
      destruct (reference_or_create_deref _ _ _ _ E2) as (D2 & X2 & R2).
      injection E as <- <-. rewrite D2, D1. cbn. rewrite Hm. repeat split; congruence.
    + injection E as <- <-. rewrite D1. cbn. rewrite Hm. repeat split; congruence.
  - destruct (value (deref s l)) as [b|x|x|children] eqn:Hv.
    4: {
      destruct (reference_or_create l s) as [r s1] eqn:E1.
      destruct (reference_or_create_deref _ _ _ _ E1) as (D1 & X1 & R1).
      destruct (memory (deref s l)) eqn:Hm.
      + destruct (reference_or_create l s1) as [r2 s2] eqn:E2.
        destruct (reference_or_create_deref _ _ _ _ E2) as (D2 & X2 & R2).
        injection E as <- <-. rewrite D2, D1. cbn. rewrite Hm, Hv. repeat split; congruence.
      + injection E as <- <-. rewrite D1. cbn. rewrite Hm, Hv. repeat split; congruence. }
    all: try (destruct (is_integral x) eqn:Hi).
    all: destruct (memory (deref s l)) eqn:Hm;
      [ destruct (reference_or_create l s) as [r s1] eqn:E1;
        destruct (reference_or_create_deref _ _ _ _ E1) as (D1 & X1 & R1)
      | ].
    all: injection E as <- <-; rewrite ?D1; cbn; rewrite ?Hm, ?Hv; repeat split; congruence.
Qed.

(** The log of the client is not read by [convertFromRuntime]. *)
Lemma reference_or_create_sendResponse l r s :
  reference_or_create l (sendResponse r s)
    = (fst (reference_or_create l s), sendResponse r (snd (reference_or_create l s))).
Proof.
  unfold reference_or_create. change (deref (sendResponse r s) l) with (deref s l).
  destruct (reference (deref s l)); reflexivity.
Qed.

Lemma reference_or_create_lazy_sendResponse l r s :
  reference_or_create_lazy l (sendResponse r s)
    = (fst (reference_or_create_lazy l s),
       sendResponse r (snd (reference_or_create_lazy l s))).
Proof.
  unfold reference_or_create_lazy. change (deref (sendResponse r s) l) with (deref s l).
  destruct (reference (deref s l)); reflexivity.
Qed.

Lemma convertFromRuntime_sendResponse l r s :
  convertFromRuntime l (sendResponse r s)
    = (fst (convertFromRuntime l s), sendResponse r (snd (convertFromRuntime l s))).
Proof.
  unfold convertFromRuntime. change (deref (sendResponse r s) l) with (deref s l).
  destruct (includes "lazy" (name (deref s l))).
  - rewrite reference_or_create_lazy_sendResponse.
    destruct (reference_or_create_lazy l s) as [h s1]. cbn [fst snd].
    destruct (memory (deref s l)); [|reflexivity].
    rewrite reference_or_create_sendResponse.
    destruct (reference_or_create l s1); reflexivity.
  - destruct (value (deref s l)) as [b|x|x|children].
    4: {
      rewrite reference_or_create_sendResponse.
      destruct (reference_or_create l s) as [h s1]. cbn [fst snd].
      destruct (memory (deref s l)); [|reflexivity].
      rewrite reference_or_create_sendResponse.
      destruct (reference_or_create l s1); reflexivity. }
    all: try (destruct (is_integral x)).
    all: destruct (memory (deref s l)); [|reflexivity].
    all: rewrite reference_or_create_sendResponse;
      destruct (reference_or_create l s); reflexivity.
Qed.

Lemma startsWith_dollar n : startsWith "$" ("$" +:+ n) = true.
Proof. unfold startsWith. cbn. destruct n; reflexivity. Qed.

End ShowingAgain.

(** X11.  Showing a variable does not change it, apart from giving it its
    reference, and showing it again gives the same [Variable] and changes
    nothing at all: no second handle is made for it. *)
Theorem showing_again_changes_nothing (l : loc) (s : Session) (v : DapVariable)
    (s' : Session) :
  (l < nextLoc s)%positive ->
  convertFromRuntime l s = (v, s') ->
  convertFromRuntime l s' = (v, s') /\
  name (deref s' l) = name (deref s l) /\
  value (deref s' l) = value (deref s l) /\
  memory (deref s' l) = memory (deref s l).
Proof.
  intros Hl E. split; [exact (convertFromRuntime_again _ _ _ _ Hl E)|].
  destruct (convertFromRuntime_keeps _ _ _ _ Hl E) as (N & V & M & _). auto.
Qed.

Lemma showing_again_changes_nothing_witness :
  let s' := snd (convertFromRuntime 2%positive session_with_locals) in
  var_memoryReference (fst (convertFromRuntime 2%positive session_with_locals))
    = Some "1000" /\
  var_memoryReference (fst (convertFromRuntime 2%positive s')) = Some "1000" /\
  nextHandle (_variableHandles (snd (convertFromRuntime 2%positive s'))) = 1001.
Proof.
  cbv zeta. split; [reflexivity|].
  destruct (showing_again_changes_nothing 2%positive session_with_locals
              (fst (convertFromRuntime 2%positive session_with_locals))
              (snd (convertFromRuntime 2%positive session_with_locals))
              ltac:(reflexivity) (surjective_pairing _)) as (E & _).
  rewrite E. split; reflexivity.
Defined.

(** X12.  What [setExpression] writes to a local variable is what a later
    [evaluate] of the same expression reads, outside the debug console: the
    variable has the value that [convertToRuntime] makes of the text, and the
    result, the type and the reference of the second response are those of
    the [Variable] of the first.  The second request changes nothing but
    the log of the client. *)
Theorem written_value_is_read_back (r1 r2 : Response) (n text : string)
    (context : option string) (l : loc) (s : Session) :
  getLocalVariable (_runtime s) n = Some l ->
  (l < nextLoc s)%positive ->
  context <> Some "repl" ->
  let written := setExpressionRequest r1 (mkSetExpressionArguments ("$" +:+ n) text) s in
  let v := fst (convertFromRuntime l (set_value l (convertToRuntime text) s)) in
  value (deref written l) = convertToRuntime text /\
  toClient written = (toClient s ++ [SendResponse (with_body (VariableBody v) r1)])%list /\
  evaluateRequest r2 (mkEvaluateArguments ("$" +:+ n) context) written
    = sendResponse
        (with_body
           (EvaluateBody (var_value v) (Some (var_type v)) (var_variablesReference v)
              (var_presentationHint_lazy v)) r2) written.
Proof.
  intros Hn Hl Hc. cbv zeta.
  unfold setExpressionRequest. cbn [se_expression se_value].
  rewrite startsWith_dollar. change (substr_from 1 ("$" +:+ n)) with n. rewrite Hn.
  set (s0 := set_value l (convertToRuntime text) s).
  destruct (convertFromRuntime l s0) as [v s1] eqn:E. cbn [fst].
  assert (Hl0 : (l < nextLoc s0)%positive) by exact Hl.
  destruct (convertFromRuntime_keeps _ _ _ _ Hl0 E) as (_ & V & _ & R & _).
  pose proof (convertFromRuntime_again _ _ _ _ Hl0 E) as A.
  split; [|split].
  - change (deref (sendResponse (with_body (VariableBody v) r1) s1) l) with (deref s1 l).
    rewrite V. subst s0. rewrite deref_set_value. reflexivity.
  - cbn. rewrite (convertFromRuntime_toClient _ _ _ _ E). reflexivity.
  - unfold evaluateRequest. cbn [ev_expression ev_context].
    assert (C : match context with
                | Some context0 =>
                    if String.eqb context0 "repl"
                    then evaluateRequest_repl ("$" +:+ n)
                           (sendResponse (with_body (VariableBody v) r1) s1)
                    else (None, sendResponse (with_body (VariableBody v) r1) s1)
                | None => (None, sendResponse (with_body (VariableBody v) r1) s1)
                end = (None, sendResponse (with_body (VariableBody v) r1) s1)).
    { destruct context as [c|]; [|reflexivity].
      destruct (String.eqb c "repl") eqn:Ec; [|reflexivity].
      apply String.eqb_eq in Ec. subst c. contradiction. }
    rewrite C, startsWith_dollar. change (substr_from 1 ("$" +:+ n)) with n.
    change (_runtime (sendResponse (with_body (VariableBody v) r1) s1)) with (_runtime s1).
    rewrite R. change (_runtime s0) with (_runtime s). rewrite Hn.
    rewrite convertFromRuntime_sendResponse, A. reflexivity.
Qed.

Lemma written_value_is_read_back_witness :
  let written :=
    setExpressionRequest (newResponse 1 "setExpression")
      (mkSetExpressionArguments "$count" " 7 ") session_with_locals in
  value (deref written 1%positive) = VNumber (Int 7) /\
  toClient (evaluateRequest (newResponse 2 "evaluate")
              (mkEvaluateArguments "$count" (Some "hover")) written)
    = [SendResponse
         (with_body
            (VariableBody (mkVariable "count" "7" "integer" 0 "$count" None None (Some "simple")))
            (newResponse 1 "setExpression"));
       SendResponse
         (with_body (EvaluateBody "7" (Some "integer") 0 None) (newResponse 2 "evaluate"))].
Proof.
  cbv zeta.
  destruct (written_value_is_read_back (newResponse 1 "setExpression")
              (newResponse 2 "evaluate") "count" " 7 " (Some "hover") 1%positive
              session_with_locals eq_refl ltac:(reflexivity) ltac:(discriminate))
    as (V & _ & E).
  change ("$" +:+ "count") with "$count" in V, E.
  split; [exact V|]. rewrite E. reflexivity.
Defined.

Section MemoryReference.

(** The reference of the object, if it has one, is a handle of the
    object. *)
Definition well_referenced (s : Session) (l : loc) : Prop :=
  match reference (deref s l) with
  | Some h => Handles_get (_variableHandles s) (Int h) = Some (HVariable l)
  | None => True
  end.

Lemma reference_or_create_handle l s h s' :
  well_referenced s l ->
  reference_or_create l s = (h, s') ->
  Handles_get (_variableHandles s') (Int h) = Some (HVariable l) /\
  deref s' l = referenced (deref s l) h.
Proof.
  unfold well_referenced, reference_or_create.
  destruct (reference (deref s l)) as [h0|] eqn:E.
  - intros W [= <- <-]. rewrite (referenced_known _ _ E). auto.
  - intros _. unfold create_handle, Handles_create. intros [= <- <-].
    rewrite deref_set_reference. split; [|reflexivity].
    cbn. apply lookup_insert_eq.
Qed.

Lemma convertFromRuntime_memoryReference l s v s' bytes :
  includes "lazy" (name (deref s l)) = false ->
  memory (deref s l) = Some bytes ->
  well_referenced s l ->
  convertFromRuntime l s = (v, s') ->
  exists h, var_memoryReference v = Some (Z_to_string h) /\
            Handles_get (_variableHandles s') (Int h) = Some (HVariable l) /\
            memory (deref s' l) = Some bytes.
Proof.
  intros Hlazy Hm W E. unfold convertFromRuntime in E. rewrite Hlazy, Hm in E.
  destruct (value (deref s l)) as [b|x|x|children] eqn:Hv.
  4: {
    destruct (reference_or_create l s) as [h s1] eqn:E1.
    destruct (reference_or_create_handle _ _ _ _ W E1) as (G1 & D1).
    rewrite (reference_or_create_known l s1 h) in E by (rewrite D1; reflexivity).
    injection E as <- <-. exists h. rewrite D1. auto. }
  all: try (destruct (is_integral x)).
  all: destruct (reference_or_create l s) as [h s1] eqn:E1;
    destruct (reference_or_create_handle _ _ _ _ W E1) as (G1 & D1);
    injection E as <- <-; exists h; rewrite D1; auto.
Qed.

Lemma subarray_all (bytes : list byte) :
  let len := Z.of_nat (List.length bytes) in
  subarray bytes (Z.min 0 len) (Z.min (0 + len) len) = bytes.
Proof.
  cbv zeta. rewrite Z.min_l by lia. rewrite Z.add_0_l, Z.min_id.
  destruct (subarray_in_range bytes 0 (Z.of_nat (List.length bytes))) as (E & _); [lia | lia|].
  rewrite E. rewrite Z.sub_0_r, Nat2Z.id. cbn [Z.to_nat drop]. apply firstn_all.
Qed.

(** The handle that a lazy variable gets is the handle of a new object
    without memory. *)
Lemma reference_or_create_lazy_wrapper l s h s' :
  reference (deref s l) = None ->
  (l < nextLoc s)%positive ->
  reference_or_create_lazy l s = (h, s') ->
  exists outer,
    Handles_get (_variableHandles s') (Int h) = Some (HVariable outer) /\
    memory (deref s' outer) = None /\
    deref s' l = referenced (deref s l) h.
Proof.
  intros Hr Hl. unfold reference_or_create_lazy. rewrite Hr.
  unfold alloc, create_handle, Handles_create. intros [= <- <-].
  exists (Pos.succ (nextLoc s)). split; [|split].
  - cbn. apply lookup_insert_eq.
  - unfold deref, set_reference. cbn.
    rewrite lookup_insert_ne by lia. rewrite lookup_insert_eq. reflexivity.
  - rewrite deref_set_reference. f_equal.
    unfold deref. cbn. rewrite !lookup_insert_ne by lia. reflexivity.
Qed.

End MemoryReference.

(** X13.  The memory reference that the client is given for a variable that
    is not lazy is good for [readMemory]: read from the start, with the
    length of the memory as the count, the response has all bytes of the
    memory of this variable and counts none as unreadable. *)
Theorem memory_reference_reads_back (response : Response) (l : loc) (s : Session)
    (v : DapVariable) (s' : Session) (bytes : list byte) :
  includes "lazy" (name (deref s l)) = false ->
  memory (deref s l) = Some bytes ->
  well_referenced s l ->
  convertFromRuntime l s = (v, s') ->
  exists ref, var_memoryReference v = Some ref /\
    readMemoryRequest response
      (mkReadMemoryArguments None (Z.of_nat (List.length bytes)) ref) s'
      = sendResponse (with_body (ReadMemoryBody "0" (fromByteArray bytes) 0) response) s'.
Proof.
  intros Hlazy Hm W E.
  destruct (convertFromRuntime_memoryReference _ _ _ _ _ Hlazy Hm W E) as (h & R & G & M).
  exists (Z_to_string h). split; [exact R|].
  unfold readMemoryRequest, attached_memory. cbn [rm_offset rm_count rm_memoryReference].
  rewrite Number_Z_to_string, G, M. cbn [default].
  rewrite subarray_all, Z.sub_diag. reflexivity.
Qed.

Lemma memory_reference_reads_back_witness :
  let '(v, s') := convertFromRuntime 2%positive session_with_locals in
  var_memoryReference v = Some "1000" /\
  toClient (readMemoryRequest (newResponse 3 "readMemory")
              (mkReadMemoryArguments None 4 "1000") s')
    = [SendResponse (with_body (ReadMemoryBody "0" "UmluZw==" 0) (newResponse 3 "readMemory"))].
Proof.
  destruct (convertFromRuntime 2%positive session_with_locals) as [v s'] eqn:E.
  destruct (memory_reference_reads_back (newResponse 3 "readMemory") 2%positive
              session_with_locals v s' [x52; x69; x6e; x67] eq_refl eq_refl Logic.I E)
    as (ref & R & H).
  assert (Hv : var_memoryReference v = Some "1000").
  { replace v with (fst (convertFromRuntime 2%positive session_with_locals))
      by (rewrite E; reflexivity).
    reflexivity. }
  split; [exact Hv|].
  rewrite Hv in R. injection R as <-.
  change (Z.of_nat (List.length [x52; x69; x6e; x67])) with 4 in H. rewrite H.
  replace s' with (snd (convertFromRuntime 2%positive session_with_locals))
    by (rewrite E; reflexivity).
  reflexivity.
Defined.

(** X14.  For a lazy variable that has not been shown before, the memory
    reference is the handle of the wrapper that stands for the variable,
    [variablesReference] and [memoryReference] name the same handle, and
    the wrapper has no memory: a [readMemory] with this reference reads
    nothing, though the variable has a memory. *)
Theorem lazy_memory_cannot_be_read (response : Response) (count : Z) (l : loc)
    (s : Session) (v : DapVariable) (s' : Session) (bytes : list byte) :
  includes "lazy" (name (deref s l)) = true ->
  reference (deref s l) = None ->
  memory (deref s l) = Some bytes ->
  (l < nextLoc s)%positive ->
  convertFromRuntime l s = (v, s') ->
  memory (deref s' l) = Some bytes /\
  var_memoryReference v = Some (Z_to_string (var_variablesReference v)) /\
  readMemoryRequest response
    (mkReadMemoryArguments None count (Z_to_string (var_variablesReference v))) s'
    = sendResponse (with_body (ReadMemoryBody "0" EmptyString count) response) s'.
Proof.
  intros Hlazy Hr Hm Hl E. unfold convertFromRuntime in E. rewrite Hlazy, Hm in E.
  destruct (reference_or_create_lazy l s) as [h s1] eqn:E1.
  destruct (reference_or_create_lazy_wrapper _ _ _ _ Hr Hl E1) as (outer & G & M & D).
  rewrite (reference_or_create_known l s1 h) in E by (rewrite D; reflexivity).
  injection E as <- <-. cbn [var_memoryReference var_variablesReference].
  split; [|split; [reflexivity|]].
  - rewrite D. exact Hm.
  - unfold readMemoryRequest, attached_memory. cbn [rm_offset rm_count rm_memoryReference].
    rewrite Number_Z_to_string, G, M. reflexivity.
Qed.

(** A session with one lazy variable, [lazy_text], that has the four bytes
    of [Ring] as its memory. *)
Definition session_with_lazy : Session :=
  with_runtime
    {| sourceFile := "test.ring"; variables := {[ "lazy_text" := 1%positive ]};
       breakPoints := ∅; breakpointId := 1 |}
    (with_heap
       {[ 1%positive :=
            {| name := "lazy_text"; value := VString "Ring";
               memory := Some [x52; x69; x6e; x67]; reference := None |} ]}
       (with_nextLoc 2%positive newSession)).

Lemma lazy_memory_cannot_be_read_witness :
  let v := fst (convertFromRuntime 1%positive session_with_lazy) in
  let s' := snd (convertFromRuntime 1%positive session_with_lazy) in
  var_variablesReference v = 1000 /\
  var_memoryReference v = Some "1000" /\
  toClient (readMemoryRequest (newResponse 3 "readMemory")
              (mkReadMemoryArguments None 4 "1000") s')
    = [SendResponse (with_body (ReadMemoryBody "0" EmptyString 4) (newResponse 3 "readMemory"))].
Proof.
  cbv zeta.
  destruct (lazy_memory_cannot_be_read (newResponse 3 "readMemory") 4 1%positive
              session_with_lazy
              (fst (convertFromRuntime 1%positive session_with_lazy))
              (snd (convertFromRuntime 1%positive session_with_lazy))
              [x52; x69; x6e; x67] eq_refl eq_refl eq_refl ltac:(reflexivity)
              (surjective_pairing _)) as (_ & R & H).
  split; [reflexivity|]. split; [exact R|].
  change (Z_to_string
            (var_variablesReference (fst (convertFromRuntime 1%positive session_with_lazy))))
    with "1000" in H.
  rewrite H. reflexivity.
Defined.

(** X15.  No handle ever stands for a scope: the only handles that the
    session makes are those of [convertFromRuntime], for variables.  So
    [setVariableRequest] never takes its branch for the local variables;
    the variable that it sets is always a child of a variable with
    children. *)
Theorem no_handle_stands_for_a_scope (inputs : list Input) (s s' : Session) :
  only_variables (_variableHandles s) ->
  run inputs s = Some s' ->
  (forall n, Handles_get (_variableHandles s') n <> Some HLocals /\
             Handles_get (_variableHandles s') n <> Some HGlobals) /\
  (forall args l, named_variable args s' = Some l ->
     exists c children,
       Handles_get (_variableHandles s') (Int (sv_variablesReference args))
         = Some (HVariable c) /\
       value (deref s' c) = VArray children /\
       In l children /\ name (deref s' l) = sv_name args).
Proof.
  intros O H. pose proof (grows_variables _ _ (grows_run _ _ _ H) O) as O'.
  assert (N : forall n v, Handles_get (_variableHandles s') n = Some v ->
                          exists l, v = HVariable l).
  { intros [k| |] v; cbn; [apply O' | discriminate | discriminate]. }
  split.
  - intros n. split; intros E; destruct (N _ _ E) as [l Hl]; discriminate Hl.
  - intros args l. unfold named_variable.
    destruct (Handles_get (_variableHandles s') (Int (sv_variablesReference args)))
      as [v|] eqn:E; [|discriminate].
    destruct (N _ _ E) as [c ->].
    destruct (value (deref s' c)) as [| | |children] eqn:V; try discriminate.
    unfold find_child. intros F. apply List.find_some in F as [Hin Hname].
    exists c, children. apply String.eqb_eq in Hname. auto.
Qed.

Lemma no_handle_stands_for_a_scope_witness :
  let s' := dispatchRequest 2 (Evaluate (mkEvaluateArguments "$text" (Some "watch")))
              (dispatchRequest 1 (Initialize (mkInitializeArguments false false None))
                 session_with_locals) in
  Handles_get (_variableHandles s') (Int 1000) <> Some HLocals /\
  named_variable (mkSetVariableArguments 1000 "text" "1") s' = None.
Proof.
  cbv zeta.
  destruct (no_handle_stands_for_a_scope
              [FromClient 1 (Initialize (mkInitializeArguments false false None));
               FromClient 2 (Evaluate (mkEvaluateArguments "$text" (Some "watch")))]
              session_with_locals _
              ltac:(intros k v E; cbn in E; rewrite lookup_empty in E; discriminate)
              eq_refl) as (N & _).
  split; [apply N | reflexivity].
Defined.

Section Pages.

Lemma segment_eq (bytes : list byte) (a b : Z) :
  0 <= a -> 0 <= b ->
  let len := Z.of_nat (List.length bytes) in
  let from := Z.min a len in
  let to := Z.min (a + b) len in
  subarray bytes from to = take (Z.to_nat (to - from)) (drop (Z.to_nat from) bytes) /\
  Z.of_nat (List.length (subarray bytes from to)) = to - from.
Proof.
  intros Ha Hb. cbv zeta.
  destruct (subarray_in_range bytes (Z.min a (Z.of_nat (List.length bytes)))
              (Z.min (a + b) (Z.of_nat (List.length bytes)))) as (E & L & _);
    [lia | lia | auto].
Qed.

Lemma segments_compose (bytes : list byte) (o c1 c2 : Z) :
  0 <= o -> 0 <= c1 -> 0 <= c2 ->
  let len := Z.of_nat (List.length bytes) in
  subarray bytes (Z.min o len) (Z.min (o + (c1 + c2)) len)
    = (subarray bytes (Z.min o len) (Z.min (o + c1) len)
       ++ subarray bytes (Z.min (o + c1) len) (Z.min (o + c1 + c2) len))%list.
Proof.
  intros Ho H1 H2. cbv zeta.
  destruct (segment_eq bytes o (c1 + c2)) as (-> & _); [lia | lia|].
  destruct (segment_eq bytes o c1) as (-> & _); [lia | lia|].
  destruct (segment_eq bytes (o + c1) c2) as (-> & _); [lia | lia|].
  set (len := Z.of_nat (List.length bytes)).
  set (f := Z.min o len). set (m1 := Z.min (o + c1) len).
  set (m2 := Z.min (o + c1 + c2) len).
  replace (Z.min (o + (c1 + c2)) len) with m2 by (subst m2; f_equal; lia).
  replace (Z.to_nat m1) with (Z.to_nat f + Z.to_nat (m1 - f))%nat by (subst f m1; lia).
  rewrite <- drop_drop, take_take_drop. f_equal. subst f m1 m2. lia.
Qed.

End Pages.

(** X16.  Reads of the memory compose: the bytes of a read of [c1] bytes at
    [o] followed by the bytes of a read of [c2] bytes at [o + c1] are the
    bytes of one read of [c1 + c2] bytes at [o].  The number of unreadable
    bytes is between 0 and the count, and once a read has come to the end
    of the memory, the next one has no bytes. *)
Theorem readMemory_pages_compose (r1 r2 r : Response) (ref : string) (o c1 c2 : Z)
    (s : Session) (bytes : list byte) :
  attached_memory ref s = Some bytes ->
  0 <= o -> 0 <= c1 -> 0 <= c2 ->
  exists seg1 seg2,
    readMemoryRequest r1 (mkReadMemoryArguments (Some o) c1 ref) s
      = sendResponse
          (with_body
             (ReadMemoryBody (Z_to_string o) (fromByteArray seg1)
                (c1 - Z.of_nat (List.length seg1))) r1) s /\
    readMemoryRequest r2 (mkReadMemoryArguments (Some (o + c1)) c2 ref) s
      = sendResponse
          (with_body
             (ReadMemoryBody (Z_to_string (o + c1)) (fromByteArray seg2)
                (c2 - Z.of_nat (List.length seg2))) r2) s /\
    readMemoryRequest r (mkReadMemoryArguments (Some o) (c1 + c2) ref) s
      = sendResponse
          (with_body
             (ReadMemoryBody (Z_to_string o) (fromByteArray (seg1 ++ seg2))
                (c1 + c2 - Z.of_nat (List.length (seg1 ++ seg2)))) r) s /\
    0 <= c1 - Z.of_nat (List.length seg1) <= c1 /\
    (0 < c1 - Z.of_nat (List.length seg1) -> seg2 = []).
Proof.
  intros Hm Ho H1 H2.
  set (len := Z.of_nat (List.length bytes)).
  exists (subarray bytes (Z.min o len) (Z.min (o + c1) len)),
         (subarray bytes (Z.min (o + c1) len) (Z.min (o + c1 + c2) len)).
  unfold readMemoryRequest. cbn [rm_offset rm_count rm_memoryReference default].
  rewrite Hm. fold len. rewrite <- segments_compose by assumption.
  split; [reflexivity|]. split; [reflexivity|]. split; [reflexivity|].
  destruct (segment_eq bytes o c1 Ho H1) as (_ & L1).
  destruct (segment_eq bytes (o + c1) c2) as (E2 & L2); [lia | lia|].
  fold len in L1, L2, E2. rewrite L1. split; [lia|].
  intros Hu. rewrite E2.
  replace (Z.to_nat (Z.min (o + c1 + c2) len - Z.min (o + c1) len)) with 0%nat by lia.
  reflexivity.
Qed.

Lemma readMemory_pages_compose_witness :
  let read o c :=
    toClient (readMemoryRequest (newResponse 1 "readMemory")
                (mkReadMemoryArguments (Some o) c "1000") session_with_memory) in
  let page address segment unreadable :=
    [SendResponse
       (with_body (ReadMemoryBody address (fromByteArray segment) unreadable)
          (newResponse 1 "readMemory"))] in
  exists seg1 seg2,
    read 1 2 = page "1" seg1 (2 - Z.of_nat (List.length seg1)) /\
    read 3 2 = page "3" seg2 (2 - Z.of_nat (List.length seg2)) /\
    read 1 4 = page "1" (seg1 ++ seg2)%list (4 - Z.of_nat (List.length (seg1 ++ seg2))) /\
    read 1 4 = page "1" [x69; x6e; x67] 1.
Proof.
  cbv zeta.
  destruct (readMemory_pages_compose (newResponse 1 "readMemory") (newResponse 1 "readMemory")
              (newResponse 1 "readMemory") "1000" 1 2 2 session_with_memory
              [x52; x69; x6e; x67] eq_refl ltac:(lia) ltac:(lia) ltac:(lia))
    as (seg1 & seg2 & E1 & E2 & E & _).
  exists seg1, seg2.
  change (1 + 2) with 3 in E2. change (2 + 2) with 4 in E.
  rewrite E1, E2. split; [reflexivity|]. split; [reflexivity|].
  split; [rewrite E|]; reflexivity.
Defined.

(** ** A launch without its signal *)

Section EarlyConfigurationDone.

(** What happens is neither [configurationDone] nor a launch. *)
Definition quiet (i : Input) : Prop :=
  match i with
  | FromClient _ r => plain_request r
  | _ => True
  end.

Let anything : Sent -> Prop := fun _ => True.

Lemma quiet_step i s s' :
  quiet i -> step i s = Some s' ->
  Forall (fun w => now s < deadline w) (waiters (_configurationDone s)) ->
  _configurationDone s' = _configurationDone s /\ _launchDone s' = _launchDone s.
Proof.
  intros Q E W. destruct i as [seq r|data|data|exit|n|n|t]; cbn [step quiet] in *.
  - injection E as <-. destruct (advance_dispatchRequest seq r s Q). auto.
  - injection E as <-.
    destruct (advance_handleRingRdbDapMessage anything (fun _ => Logic.I)
                (fun _ => Logic.I) (fun _ => Logic.I) data s). auto.
  - injection E as <-.
    destruct (advance_onStdoutData anything (fun _ => Logic.I) data s). auto.
  - injection E as <-.
    destruct (advance_onClose anything (fun _ => Logic.I) exit s). auto.
  - destruct (waiters (_configurationDone s) !! n) as [w|] eqn:L; [|discriminate].
    destruct (deadline w <=? now s) eqn:D; [|discriminate].
    apply Z.leb_le in D. pose proof (Forall_lookup_1 _ _ _ _ W L) as H. cbn in H. lia.
  - destruct (timers s !! n) as [k|]; [|discriminate].
    destruct (due k <=? now s); [|discriminate].
    injection E as <-.
    destruct (advance_run_task anything (fun _ => Logic.I) (task k)
                (with_timers (delete n (timers s)) s)
                (with_timers (delete n (timers s)) s) (advance_refl _ _)). auto.
  - destruct ((now s <=? t) && forallb (fun d => t <=? d) (pending s)); [|discriminate].
    injection E as <-. auto.
Qed.

Lemma quiet_run inputs s s' :
  Forall quiet inputs -> run inputs s = Some s' ->
  Forall (fun w => now s' < deadline w) (waiters (_configurationDone s)) ->
  _configurationDone s' = _configurationDone s /\ _launchDone s' = _launchDone s.
Proof.
  revert s. induction inputs as [|i rest IH]; intros s Q E W; cbn [run] in E.
  - injection E as <-. auto.
  - destruct (step i s) as [s1|] eqn:E1; [|discriminate].
    inversion Q as [|? ? Qi Qrest]; subst.
    pose proof (grows_now _ _ (grows_run _ _ _ E)) as N.
    pose proof (grows_now _ _ (grows_step _ _ _ E1)) as N1.
    destruct (quiet_step i s s1 Qi E1) as [C L].
    { eapply List.Forall_impl; [|exact W]. cbn. intros w Hw. lia. }
    destruct (IH s1 Qrest E) as [C' L']; [rewrite C; exact W|].
    split; congruence.
Qed.

End EarlyConfigurationDone.

(** X17.  A [configurationDone] that comes before the launch request is
    forgotten: the launch that follows it waits all the same.  As long as
    no second [configurationDone] comes and 10 seconds have not passed
    since the launch request, the launch is still waiting and has not been
    passed on, whatever else happens. *)
Theorem early_configurationDone_is_forgotten (q p : Z) (args : json)
    (inputs : list Input) (s s' : Session) :
  waiters (_configurationDone s) = [] ->
  Forall quiet inputs ->
  run (FromClient q ConfigurationDone :: FromClient p (Launch args) :: inputs) s = Some s' ->
  now s' < now s + 10000 ->
  waiters (_configurationDone s')
    = [{| resume := mkLaunch (newResponse p "launch") args; deadline := now s + 10000 |}] /\
  notified (_launchDone s') = notified (_launchDone s).
Proof.
  intros W Q E N. cbn [run step] in E.
  set (s2 := dispatchRequest p (Launch args) (dispatchRequest q ConfigurationDone s)) in E.
  assert (H2 : waiters (_configurationDone s2)
               = [{| resume := mkLaunch (newResponse p "launch") args;
                     deadline := now s + 10000 |}]
               /\ _launchDone s2 = _launchDone s).
  { subst s2. cbn [dispatchRequest command_of].
    unfold configurationDoneRequest, Subject_notify.
    change (waiters (_configurationDone (sendResponse (newResponse q "configurationDone") s)))
      with (waiters (_configurationDone s)).
    rewrite W. cbn. auto. }
  destruct H2 as [W2 L2].
  destruct (quiet_run inputs s2 s' Q E) as [C L].
  { rewrite W2. constructor; [cbn; lia | constructor]. }
  rewrite C, L, W2, L2. auto.
Qed.

Lemma early_configurationDone_is_forgotten_witness :
  let s :=
    dispatchRequest 1 (Initialize (mkInitializeArguments false false None)) newSession in
  let s' :=
    dispatchRequest 4 Threads
      (with_now 9999
         (dispatchRequest 3 (Launch (JObject [])) (dispatchRequest 2 ConfigurationDone s))) in
  run [FromClient 2 ConfigurationDone; FromClient 3 (Launch (JObject []));
       TimePasses 9999; FromClient 4 Threads] s = Some s' /\
  waiters (_configurationDone s')
    = [{| resume := mkLaunch (newResponse 3 "launch") (JObject []);
          deadline := now s + 10000 |}] /\
  notified (_launchDone s') = notified (_launchDone s).
Proof.
  cbv zeta. split; [vm_compute; reflexivity|].
  apply (early_configurationDone_is_forgotten 2 3 (JObject [])
           [TimePasses 9999; FromClient 4 Threads]).
  - vm_compute; reflexivity.
  - repeat constructor.
  - vm_compute; reflexivity.
  - vm_compute; reflexivity.
Defined.

(** ** The progress sequence *)

Section Progress.

Variable ID : string.

Definition update_event (i : Z) : Sent :=
  SendEvent (ProgressUpdateEvent ID ("progress: " +:+ Z_to_string i)).

(** The updates of the rounds [i], [i + 1], ... *)
Fixpoint update_events (i : Z) (n : nat) : list Sent :=
  match n with
  | O => []
  | S m => update_event i :: update_events (i + 1) m
  end.

Definition end_events (endMessage : string) : list Sent :=
  [SendEvent (ProgressEndEvent ID endMessage);
   SendEvent (OutputEvent ("end progress: " +:+ ID +:+ NL) "console")].

(** The clock comes to the time of the timer, and the timer fires; this [n]
    times, every 500 milliseconds. *)
Fixpoint rounds (t : Z) (n : nat) : list Input :=
  match n with
  | O => []
  | S m => TimePasses t :: TimerFires 0 :: rounds (t + 500) m
  end.

(** The only thing that is due is one timer. *)
Definition only_timer (s : Session) (t : Z) (k : Task) : Prop :=
  timers s = [{| due := t; task := k |}] /\
  waiters (_configurationDone s) = [] /\
  now s <= t.

Lemma timer_fires t k rest s :
  only_timer s t k ->
  run (TimePasses t :: TimerFires 0 :: rest) s
    = run rest (run_task k (with_timers [] (with_now t s))).
Proof.
  intros (T & W & N). cbn [run step]. unfold pending. rewrite W, T. cbn [map app forallb].
  rewrite (proj2 (Z.leb_le _ _) N), Z.leb_refl. cbn [andb].
  change (timers (with_now t s)) with (timers s). rewrite T. cbn [lookup list_lookup].
  cbn [due task]. change (now (with_now t s)) with t. rewrite Z.leb_refl.
  reflexivity.
Qed.

Lemma round_goes_on i s :
  _cancelledProgressId s = None ->
  run_task (ProgressRound ID i) s
    = progressSequence_loop ID (i + 1)
        (sendEvent (ProgressUpdateEvent ID ("progress: " +:+ Z_to_string i)) s).
Proof.
  intros C. cbn [run_task].
  change (_cancelledProgressId
            (sendEvent (ProgressUpdateEvent ID ("progress: " +:+ Z_to_string i)) s))
    with (_cancelledProgressId s).
  rewrite C. reflexivity.
Qed.

Lemma rounds_run n : forall i t s,
  (0 < n)%nat -> i + Z.of_nat n = 100 ->
  only_timer s t (ProgressRound ID i) ->
  _cancelledProgressId s = None ->
  exists s',
    run (rounds t n) s = Some s' /\
    toClient s' = (toClient s ++ update_events i n ++ end_events "progress ended")%list /\
    timers s' = [] /\
    now s' = t + 500 * (Z.of_nat n - 1) /\
    _cancelledProgressId s' = None /\
    _progressId s' = _progressId s /\
    _isProgressCancellable s' = _isProgressCancellable s.
Proof.
  induction n as [|m IH]; intros i t s Hn Hi Ho C; [lia|].
  cbn [rounds]. rewrite (timer_fires _ _ _ _ Ho).
  rewrite round_goes_on by exact C.
  unfold progressSequence_loop. destruct (i + 1 <? 100) eqn:L.
  - apply Z.ltb_lt in L.
    edestruct (IH (i + 1) (t + 500)) as (s' & R & E & T & N & C' & P & X);
      [lia | lia | | | ].
    3: { exists s'. split; [exact R|]. rewrite E. cbn [update_events].
         split; [cbn; rewrite <- app_assoc; reflexivity|].
         split; [exact T|]. split; [rewrite N; lia|]. auto. }
    + split; [reflexivity|]. destruct Ho as (_ & W & _). split; [exact W | cbn; lia].
    + exact C.
  - apply Z.ltb_ge in L. assert (m = 0%nat) by lia. subst m.
    cbn [rounds run update_events]. eexists. split; [reflexivity|].
    cbn. split; [rewrite <- !app_assoc; reflexivity|]. repeat split; lia.
Qed.

End Progress.

(** X18.  A progress sequence that nobody cancels runs to its end: 100
    milliseconds after its start it sends the start event, with the id that
    the counter had, then every 500 milliseconds one update, 100 of them,
    numbered from 0 to 99, and with the last of them the end event
    [progress ended].  Then no timer is left, 50100 milliseconds have
    passed, the counter of the ids is one higher and the next sequence
    will differ in whether it can be cancelled. *)
Theorem progress_runs_to_its_end (s : Session) :
  timers s = [] ->
  waiters (_configurationDone s) = [] ->
  _cancelledProgressId s = None ->
  let ID := Z_to_string (_progressId s) in
  let title :=
    if _isProgressCancellable s then "Cancellable operation" else "Long running operation" in
  exists s',
    run (TimePasses (now s + 100) :: TimerFires 0 :: rounds (now s + 600) 100)
      (progressSequence s) = Some s' /\
    toClient s'
      = (toClient s
         ++ [SendEvent (ProgressStartEvent ID title (_isProgressCancellable s));
             SendEvent (OutputEvent ("start progress: " +:+ ID +:+ NL) "console")]
         ++ update_events ID 0 100 ++ end_events ID "progress ended")%list /\
    timers s' = [] /\
    now s' = now s + 50100 /\
    _progressId s' = _progressId s + 1 /\
    _isProgressCancellable s' = negb (_isProgressCancellable s).
Proof.
  intros T W C. cbv zeta.
  rewrite (timer_fires (now s + 100) (ProgressBegin (Z_to_string (_progressId s)))).
  2: { unfold progressSequence, timeout, only_timer. cbn. rewrite T. split; [reflexivity|].
       split; [exact W | lia]. }
  cbn [run_task]. unfold progressSequence_loop. change (0 <? 100) with true. cbv iota.
  edestruct (rounds_run (Z_to_string (_progressId s)) 100 0 (now s + 600))
    as (s' & R & E & T' & N & _ & P & X); [lia | lia | | |].
  3: { exists s'. split; [exact R|]. rewrite E. cbn [toClient]. 
       split; [cbn; rewrite <- !app_assoc; reflexivity|].
       split; [exact T'|]. split; [rewrite N; lia|]. rewrite P, X. split; reflexivity. }
  - split; [cbn; f_equal; f_equal; lia|]. split; [exact W | cbn; lia].
  - exact C.
Qed.

Lemma progress_runs_to_its_end_witness :
  exists s',
    run (TimePasses 100 :: TimerFires 0 :: rounds 600 100) (progressSequence newSession)
      = Some s' /\
    now s' = 50100 /\ _progressId s' = 10001 /\ _isProgressCancellable s' = false /\
    List.length (toClient s') = 104%nat /\
    nth_error (toClient s') 0
      = Some (SendEvent (ProgressStartEvent "10000" "Cancellable operation" true)) /\
    nth_error (toClient s') 101 = Some (update_event "10000" 99).
Proof.
  destruct (progress_runs_to_its_end newSession eq_refl eq_refl eq_refl)
    as (s' & R & E & _ & N & P & X).
  exists s'. split; [exact R|]. split; [exact N|]. split; [exact P|]. split; [exact X|].
  rewrite E. split; [|split]; vm_compute; reflexivity.
Defined.

(** X19.  A progress sequence that the client cancels ends at its next
    round, whichever round that is: the round still sends its update, then
    the sequence says that it was cancelled and ends with
    [progress cancelled].  No timer is left, the cancellation is taken
    down again, and the [cancel] request itself has no response. *)
Theorem cancelled_progress_ends_at_its_next_round (q : Z) (ID : string) (i t : Z)
    (s : Session) :
  ID <> EmptyString ->
  only_timer s t (ProgressRound ID i) ->
  exists s',
    run [FromClient q (Cancel (mkCancelArguments None (Some ID))); TimePasses t; TimerFires 0] s
      = Some s' /\
    toClient s'
      = (toClient s
         ++ [update_event ID i;
             SendEvent (OutputEvent ("cancel progress: " +:+ ID +:+ NL) "console")]
         ++ end_events ID "progress cancelled")%list /\
    timers s' = [] /\
    _cancelledProgressId s' = None.
Proof.
  intros Hid Ho.
  change (run [FromClient q (Cancel (mkCancelArguments None (Some ID)));
               TimePasses t; TimerFires 0] s)
    with (run [TimePasses t; TimerFires 0]
            (dispatchRequest q (Cancel (mkCancelArguments None (Some ID))) s)).
  cbn [dispatchRequest command_of]. unfold cancelRequest. cbn [requestId progressId].
  destruct (String.eqb ID EmptyString) eqn:E; [apply String.eqb_eq in E; contradiction|].
  rewrite (timer_fires t (ProgressRound ID i) []).
  2: { destruct Ho as (T & W & N). split; [exact T|]. split; [exact W | exact N]. }
  cbn [run run_task].
  change (_cancelledProgressId
            (sendEvent (ProgressUpdateEvent ID ("progress: " +:+ Z_to_string i))
               (with_timers [] (with_now t (with_cancelledProgressId (Some ID) s)))))
    with (Some ID).
  cbv beta iota. rewrite String.eqb_refl. eexists. split; [reflexivity|].
  cbn. split; [rewrite <- !app_assoc; reflexivity|]. split; reflexivity.
Qed.

Lemma cancelled_progress_ends_at_its_next_round_witness :
  let s := with_timers [{| due := 600; task := ProgressRound "10000" 0 |}]
             (with_now 100 newSession) in
  exists s',
    run [FromClient 9 (Cancel (mkCancelArguments None (Some "10000")));
         TimePasses 600; TimerFires 0] s = Some s' /\
    toClient s'
      = [update_event "10000" 0;
         SendEvent (OutputEvent ("cancel progress: 10000" +:+ NL) "console");
         SendEvent (ProgressEndEvent "10000" "progress cancelled");
         SendEvent (OutputEvent ("end progress: 10000" +:+ NL) "console")] /\
    timers s' = [].
Proof.
  cbv zeta.
  destruct (cancelled_progress_ends_at_its_next_round 9 "10000" 0 600
              (with_timers [{| due := 600; task := ProgressRound "10000" 0 |}]
                 (with_now 100 newSession)))
    as (s' & R & E & T & _).
  - discriminate.
  - split; [reflexivity|]. split; [reflexivity|]. cbn. lia.
  - exists s'. split; [exact R|]. split; [rewrite E; reflexivity | exact T].
Defined.

(** ** Evaluation outside the debug console *)

(** [convertFromRuntime] leaves the runtime, the timers and the counter of
    the progress ids alone. *)
Lemma convertFromRuntime_frame l s v s' :
  convertFromRuntime l s = (v, s') ->
  _runtime s' = _runtime s /\ timers s' = timers s /\ _progressId s' = _progressId s.
Proof.
  unfold convertFromRuntime, reference_or_create_lazy, reference_or_create, alloc,
    create_handle, Handles_create, set_reference.
  intros E. result_cases; simplify_eq; cbn; auto.
Qed.

(** X20.  Outside the debug console no command is run: an [evaluate] whose
    context is not [repl] never touches the breakpoints, starts no progress
    and sends nothing but its response, whatever the expression says.  For
    a name after the dollar sign that is no local variable, the response is
    no error: its result is a text that repeats the context and the
    expression, and its reference is 0. *)
Theorem evaluate_outside_repl_runs_no_command (response : Response)
    (expression : string) (context : option string) (s : Session) :
  context <> Some "repl" ->
  let s' := evaluateRequest response (mkEvaluateArguments expression context) s in
  _runtime s' = _runtime s /\
  timers s' = timers s /\
  _progressId s' = _progressId s /\
  (exists body, toClient s' = (toClient s ++ [SendResponse (with_body body response)])%list) /\
  (startsWith "$" expression = true ->
   getLocalVariable (_runtime s) (substr_from 1 expression) = None ->
   s' = sendResponse
          (with_body
             (EvaluateBody
                ("evaluate(context: '" +:+ default "undefined" context +:+ "', '"
                   +:+ expression +:+ "')") None 0 None) response) s).
Proof.
  intros Hc. cbv zeta. unfold evaluateRequest. cbn [ev_expression ev_context].
  assert (C : match context with
              | Some context0 =>
                  if String.eqb context0 "repl" then evaluateRequest_repl expression s
                  else (None, s)
              | None => (None, s)
              end = (None, s)).
  { destruct context as [c|]; [|reflexivity].
    destruct (String.eqb c "repl") eqn:Ec; [|reflexivity].
    apply String.eqb_eq in Ec. subst c. contradiction. }
  rewrite C. destruct (startsWith "$" expression).
  - destruct (getLocalVariable (_runtime s) (substr_from 1 expression)) as [l|] eqn:G.
    + destruct (convertFromRuntime l s) as [v s1] eqn:E.
      pose proof (convertFromRuntime_toClient _ _ _ _ E) as Ht.
      destruct (convertFromRuntime_frame _ _ _ _ E) as (R & T & P).
      cbn. rewrite R, T, P, Ht.
      repeat split; eauto. discriminate.
    + cbn. repeat split; eauto.
  - destruct (alloc _ s) as [l s0] eqn:A. unfold alloc in A. injection A as <- <-.
    set (s0 := with_nextLoc _ _).
    destruct (convertFromRuntime (nextLoc s) s0) as [v s1] eqn:E.
    pose proof (convertFromRuntime_toClient _ _ _ _ E) as Ht.
    destruct (convertFromRuntime_frame _ _ _ _ E) as (R & T & P).
    cbn. rewrite R, T, P, Ht.
    repeat split; eauto. discriminate.
Qed.

Lemma evaluate_outside_repl_runs_no_command_witness :
  let s' := evaluateRequest (newResponse 5 "evaluate")
              (mkEvaluateArguments "new 5" (Some "hover")) newSession in
  breakPoints (_runtime s') = ∅ /\
  toClient (evaluateRequest (newResponse 6 "evaluate")
              (mkEvaluateArguments "$nobody" (Some "watch")) newSession)
    = [SendResponse
         (with_body (EvaluateBody "evaluate(context: 'watch', '$nobody')" None 0 None)
            (newResponse 6 "evaluate"))].
Proof.
  cbv zeta. split.
  - destruct (evaluate_outside_repl_runs_no_command (newResponse 5 "evaluate") "new 5"
                (Some "hover") newSession ltac:(discriminate)) as (R & _).
    rewrite R. reflexivity.
  - destruct (evaluate_outside_repl_runs_no_command (newResponse 6 "evaluate") "$nobody"
                (Some "watch") newSession ltac:(discriminate)) as (_ & _ & _ & _ & H).
    rewrite H; reflexivity.
Defined.

(** ** The filters for exceptions *)

Section ExceptionFilters.

Definition has_filter (id : string) (options : list ExceptionFilterOptions) : bool :=
  existsb (fun o => String.eqb (filterId o) id) options.

Lemma exception_filter_loop first options named other :
  fold_left (exception_filter_step first) options (named, other)
    = (if has_filter "namedException" options
       then match first with Some o => condition o | None => None end
       else named,
       other || has_filter "otherExceptions" options
       ).
Proof.
  revert named other. induction options as [|o rest IH]; intros named other.
  - cbn. rewrite orb_false_r. reflexivity.
  - cbn [fold_left exception_filter_step]. unfold has_filter. cbn [existsb].
    fold (has_filter "namedException" rest). fold (has_filter "otherExceptions" rest).
    destruct (String.eqb (filterId o) "namedException") eqn:E1.
    + rewrite IH. apply String.eqb_eq in E1. rewrite E1.
      change (String.eqb "namedException" "otherExceptions") with false.
      destruct (has_filter "namedException" rest); reflexivity.
    + destruct (String.eqb (filterId o) "otherExceptions") eqn:E2; rewrite IH;
        destruct other, (has_filter "otherExceptions" rest); reflexivity.
Qed.

End ExceptionFilters.

(** The list of an optional property, empty when the property is
    missing. *)
Definition given {A} (x : option (list A)) : list A :=
  match x with
  | Some l => l
  | None => []
  end.

(** X21.  What [setExceptionBreakPointsRequest] hands to the runtime.  Other
    exceptions are caught when an option or a filter names
    [otherExceptions].  The named exception is given when an option has
    the id [namedException], but it is the condition of the first option
    of the request, whichever option that is, not the condition of the
    option with that id.  The request always gets its response. *)
Theorem exception_filters_of_request (response : Response)
    (args : SetExceptionBreakpointsArguments) (s : Session) :
  let options := given (filterOptions args) in
  setExceptionBreakPointsRequest response args s
    = ((if has_filter "namedException" options
        then match head options with Some o => condition o | None => None end
        else None,
        has_filter "otherExceptions" options
        || existsb (String.eqb "otherExceptions") (given (filters args))),
       sendResponse response s).
Proof.
  cbv zeta. unfold setExceptionBreakPointsRequest. f_equal.
  destruct (filterOptions args) as [options|]; cbn [given].
  - rewrite exception_filter_loop. cbn [orb fst].
    destruct (filters args) as [ids|]; cbn [given existsb].
    + destruct (existsb (String.eqb "otherExceptions") ids),
        (has_filter "otherExceptions" options); reflexivity.
    + rewrite orb_false_r. reflexivity.
  - cbn [has_filter existsb orb fst].
    destruct (filters args) as [ids|]; cbn [given existsb]; [|reflexivity].
    destruct (existsb (String.eqb "otherExceptions") ids); reflexivity.
Qed.

Section Concurrent.

Lemma first_timer_fires t k others rest s :
  timers s = {| due := t; task := k |} :: others ->
  waiters (_configurationDone s) = [] ->
  now s <= t ->
  Forall (fun o => t <= due o) others ->
  run (TimePasses t :: TimerFires 0 :: rest) s
    = run rest (run_task k (with_timers others (with_now t s))).
Proof.
  intros T W N F. cbn [run step]. unfold pending. rewrite W, T. cbn [map app forallb].
  rewrite (proj2 (Z.leb_le _ _) N), Z.leb_refl. cbn [andb].
  assert (H : forallb (fun d => t <=? d) (map due others) = true).
  { apply forallb_forall. intros d Hd. apply in_map_iff in Hd as (o & <- & Ho).
    apply Z.leb_le. rewrite List.Forall_forall in F. auto. }
  rewrite H. change (timers (with_now t s)) with (timers s). rewrite T.
  cbn [lookup list_lookup due task]. change (now (with_now t s)) with t.
  rewrite Z.leb_refl. reflexivity.
Qed.

Lemma round_of_another ID i c s :
  _cancelledProgressId s = Some c -> String.eqb c ID = false ->
  run_task (ProgressRound ID i) s
    = progressSequence_loop ID (i + 1)
        (sendEvent (ProgressUpdateEvent ID ("progress: " +:+ Z_to_string i)) s).
Proof.
  intros C E. cbn [run_task].
  change (_cancelledProgressId
            (sendEvent (ProgressUpdateEvent ID ("progress: " +:+ Z_to_string i)) s))
    with (_cancelledProgressId s).
  rewrite C, E. reflexivity.
Qed.

End Concurrent.

(** X22.  A cancellation can be lost.  Every progress sequence takes down
    the pending cancellation when it ends, whichever sequence the
    cancellation was for: when the client cancels one sequence and another
    one ends before the next round of the first, the first one goes on as if
    nothing had been asked. *)
Theorem cancellation_is_lost_when_another_sequence_ends (q : Z) (A B : string)
    (i t1 t2 : Z) (s : Session) :
  A <> B -> B <> EmptyString ->
  timers s = [{| due := t1; task := ProgressRound A 99 |};
              {| due := t2; task := ProgressRound B i |}] ->
  waiters (_configurationDone s) = [] ->
  now s <= t1 -> t1 <= t2 -> i + 1 < 100 ->
  exists s',
    run [FromClient q (Cancel (mkCancelArguments None (Some B)));
         TimePasses t1; TimerFires 0; TimePasses t2; TimerFires 0] s = Some s' /\
    toClient s'
      = (toClient s ++ [update_event A 99] ++ end_events A "progress ended"
         ++ [update_event B i])%list /\
    timers s' = [{| due := t2 + 500; task := ProgressRound B (i + 1) |}] /\
    _cancelledProgressId s' = None.
Proof.
  intros Hab Hb T W N1 N2 Hi.
  assert (E : String.eqb B EmptyString = false) by (apply String.eqb_neq; exact Hb).
  assert (E' : String.eqb B A = false) by (apply String.eqb_neq; congruence).
  change (run [FromClient q (Cancel (mkCancelArguments None (Some B)));
               TimePasses t1; TimerFires 0; TimePasses t2; TimerFires 0] s)
    with (run [TimePasses t1; TimerFires 0; TimePasses t2; TimerFires 0]
            (dispatchRequest q (Cancel (mkCancelArguments None (Some B))) s)).
  cbn [dispatchRequest command_of]. unfold cancelRequest. cbn [requestId progressId].
  rewrite E.
  rewrite (first_timer_fires t1 (ProgressRound A 99)
             [{| due := t2; task := ProgressRound B i |}]);
    [|exact T | exact W | exact N1 | constructor; [exact N2 | constructor]].
  rewrite (round_of_another A 99 B) by (reflexivity || exact E').
  unfold progressSequence_loop at 1. change (99 + 1 <? 100) with false. cbv iota.
  rewrite (first_timer_fires t2 (ProgressRound B i) []);
    [|reflexivity | exact W | exact N2 | constructor].
  rewrite round_goes_on by reflexivity.
  unfold progressSequence_loop. rewrite (proj2 (Z.ltb_lt _ _) Hi).
  eexists. split; [reflexivity|].
  cbn. split; [rewrite <- !app_assoc; reflexivity|]. split; reflexivity.
Qed.

Lemma cancellation_is_lost_when_another_sequence_ends_witness :
  let s := with_timers [{| due := 600; task := ProgressRound "10000" 99 |};
                        {| due := 700; task := ProgressRound "10001" 3 |}]
             (with_now 100 newSession) in
  exists s',
    run [FromClient 9 (Cancel (mkCancelArguments None (Some "10001")));
         TimePasses 600; TimerFires 0; TimePasses 700; TimerFires 0] s = Some s' /\
    timers s' = [{| due := 1200; task := ProgressRound "10001" 4 |}] /\
    _cancelledProgressId s' = None.
Proof.
  cbv zeta.
  destruct (cancellation_is_lost_when_another_sequence_ends 9 "10000" "10001" 3 600 700
              (with_timers [{| due := 600; task := ProgressRound "10000" 99 |};
                            {| due := 700; task := ProgressRound "10001" 3 |}]
                 (with_now 100 newSession)))
    as (s' & R & _ & T & C); try reflexivity; try discriminate; try (cbn; lia).
  exists s'. split; [exact R|]. split; [exact T | exact C].
Defined.

(** ** The commands of the debug console *)

Section ConsoleCommands.

(** The text is made of blanks. *)
Fixpoint all_blanks (s : string) : Prop :=
  match s with
  | EmptyString => True
  | String c r => c = " "%char /\ all_blanks r
  end.

Lemma app_cons c r x : String c r +:+ x = String c (r +:+ x).
Proof. reflexivity. Qed.

Lemma prefix_app kw x : String.prefix kw (kw +:+ x) = true.
Proof.
  induction kw as [|c r IH]; [destruct x; reflexivity|].
  rewrite app_cons. cbn [String.prefix].
  destruct (ascii_dec c c); [exact IH | contradiction].
Qed.

Lemma substr_from_app kw x : substr_from (String.length kw) (kw +:+ x) = x.
Proof. induction kw as [|c r IH]; [reflexivity | exact IH]. Qed.

Lemma prefix_split kw s :
  String.prefix kw s = true -> s = kw +:+ substr_from (String.length kw) s.
Proof.
  revert s. induction kw as [|c r IH]; intros s H; [reflexivity|].
  destruct s as [|c' s]; [discriminate|]. cbn [String.prefix] in H.
  destruct (ascii_dec c c') as [<-|]; [|discriminate].
  rewrite app_cons. cbn [String.length substr_from]. f_equal. apply IH, H.
Qed.

Lemma skip_blanks_split r :
  exists blanks, r = blanks +:+ skip_blanks r /\ all_blanks blanks.
Proof.
  induction r as [|c r IH]; [exists EmptyString; split; [reflexivity | exact Logic.I]|].
  destruct (ascii_dec c " ") as [->|Hc].
  - destruct IH as (blanks & E & B). exists (String " " blanks).
    cbn [skip_blanks]. rewrite app_cons, <- E.
    split; [reflexivity | split; [reflexivity | exact B]].
  - exists EmptyString. split; [|exact Logic.I].
    destruct c as [[] [] [] [] [] [] [] []]; try reflexivity. contradiction Hc. reflexivity.
Qed.

Lemma skip_blanks_app blanks d x :
  all_blanks blanks -> is_digit d = true ->
  skip_blanks (blanks +:+ String d x) = String d x.
Proof.
  intros B D. induction blanks as [|c r IH].
  - change (EmptyString +:+ String d x) with (String d x).
    destruct d as [[] [] [] [] [] [] [] []]; try reflexivity; discriminate D.
  - destruct B as [-> B]. rewrite app_cons. cbn [skip_blanks]. apply IH, B.
Qed.

Lemma span_digits_split s : s = fst (span_digits s) +:+ snd (span_digits s).
Proof.
  induction s as [|c r IH]; [reflexivity|]. cbn [span_digits].
  destruct (is_digit c); [|reflexivity].
  destruct (span_digits r) as [d rest]. cbn [fst snd] in *. rewrite app_cons, <- IH.
  reflexivity.
Qed.

Lemma match_command_here_split kw s digits :
  match_command_here kw s = Some digits ->
  exists blanks d ds rest,
    s = kw +:+ " " +:+ blanks +:+ String d ds +:+ rest /\
    all_blanks blanks /\ is_digit d = true.
Proof.
  unfold match_command_here. destruct (String.prefix kw s) eqn:P; [|discriminate].
  pose proof (prefix_split _ _ P) as Hs.
  destruct (substr_from (String.length kw) s) as [|c r]; [discriminate|].
  destruct (ascii_dec c " ") as [->|Hc].
  2: { destruct c as [[] [] [] [] [] [] [] []]; try discriminate. contradiction Hc. reflexivity. }
  destruct (skip_blanks_split r) as (blanks & E & B).
  pose proof (span_digits_split (skip_blanks r)) as S.
  destruct (span_digits (skip_blanks r)) as [[|d ds] rest] eqn:D; [discriminate|].
  intros _. exists blanks, d, ds, rest. cbn [fst snd] in S.
  split; [|split; [exact B|]].
  - rewrite Hs. rewrite E at 1. rewrite S. reflexivity.
  - destruct (skip_blanks r) as [|c' r']; [discriminate D|]. cbn [span_digits] in D.
    destruct (is_digit c') eqn:Hd; [|discriminate D].
    destruct (span_digits r'). injection D as <- _ _. exact Hd.
Qed.

Lemma match_command_here_found kw blanks d ds rest :
  all_blanks blanks -> is_digit d = true ->
  is_Some (match_command_here kw (kw +:+ " " +:+ blanks +:+ String d ds +:+ rest)).
Proof.
  intros B D. unfold match_command_here. rewrite prefix_app, substr_from_app.
  change (" " +:+ blanks +:+ String d ds +:+ rest)
    with (String " " (blanks +:+ String d (ds +:+ rest))).
  cbv beta iota. rewrite (skip_blanks_app _ _ _ B D). cbn [span_digits]. rewrite D.
  destruct (span_digits (ds +:+ rest)). eexists. reflexivity.
Qed.

End ConsoleCommands.

(** X23.  The commands of the debug console are found anywhere in the
    expression.  The search for [new] or [del] and a number succeeds
    exactly when the expression has, at any place, the keyword, one blank or
    more and a digit: what comes before the keyword and after the digits
    does not matter. *)
Theorem console_command_is_found_anywhere (kw s : string) :
  is_Some (exec_command kw s) <->
  exists pre blanks d ds rest,
    s = pre +:+ kw +:+ " " +:+ blanks +:+ String d ds +:+ rest /\
    all_blanks blanks /\ is_digit d = true.
Proof.
  split.
  - induction s as [|c r IH]; cbn [exec_command].
    + destruct (match_command_here kw EmptyString) as [digits|] eqn:M;
        [|intros [x Hx]; discriminate Hx].
      intros _. destruct (match_command_here_split _ _ _ M) as (b & d & ds & rest & E & H).
      exists EmptyString, b, d, ds, rest. auto.
    + destruct (match_command_here kw (String c r)) as [digits|] eqn:M.
      * intros _. destruct (match_command_here_split _ _ _ M) as (b & d & ds & rest & E & H).
        exists EmptyString, b, d, ds, rest. auto.
      * intros H. destruct (IH H) as (pre & b & d & ds & rest & -> & B).
        exists (String c pre), b, d, ds, rest. auto.
  - intros (pre & b & d & ds & rest & -> & B & D).
    induction pre as [|c r IH].
    + change (EmptyString +:+ kw +:+ " " +:+ b +:+ String d ds +:+ rest)
        with (kw +:+ " " +:+ b +:+ String d ds +:+ rest).
      destruct (match_command_here_found kw b d ds rest B D) as [x Hx].
      destruct (kw +:+ " " +:+ b +:+ String d ds +:+ rest); cbn [exec_command];
        rewrite Hx; eexists; reflexivity.
    + rewrite app_cons. cbn [exec_command].
      destruct (match_command_here kw _); [eexists; reflexivity | exact IH].
Qed.

(** ** The ids of the progress sequences *)

Section ProgressIds.

(** The id of a start event. *)
Definition start_id (m : Sent) : list string :=
  match m with
  | SendEvent (ProgressStartEvent ID _ _) => [ID]
  | _ => []
  end.

(** The ids of the sequences that have started, in the log of the
    client. *)
Definition start_ids (log : list Sent) : list string := flat_map start_id log.

Definition begin_id (t : Timer) : list string :=
  match task t with
  | ProgressBegin ID => [ID]
  | _ => []
  end.

(** The ids of the sequences that are about to start. *)
Definition begin_ids (ts : list Timer) : list string := flat_map begin_id ts.

Definition progress_ids (s : Session) : list string :=
  (start_ids (toClient s) ++ begin_ids (timers s))%list.

(** The id is the text of a number below the bound. *)
Definition numbered (bound : Z) (ID : string) : Prop :=
  exists n, ID = Z_to_string n /\ n < bound.

(** The ids that have been given out are different, and they are the texts
    of numbers below the counter. *)
Definition ids_inv (s : Session) : Prop :=
  NoDup (progress_ids s) /\ Forall (numbered (_progressId s)) (progress_ids s).

(** What the ids depend on. *)
Definition ids_view (s : Session) : list string * list string * Z :=
  (start_ids (toClient s), begin_ids (timers s), _progressId s).

(** One sequence more is about to start. *)
Definition one_more (s s' : Session) : Prop :=
  ids_view s'
    = (start_ids (toClient s),
       (begin_ids (timers s) ++ [Z_to_string (_progressId s)])%list,
       _progressId s + 1).

Lemma Z_to_string_inj a b : Z_to_string a = Z_to_string b -> a = b.
Proof.
  intros E. pose proof (parseFloat_Z_to_string a) as Ha.
  rewrite E, parseFloat_Z_to_string in Ha. congruence.
Qed.

Lemma start_ids_snoc log m : start_id m = [] -> start_ids (log ++ [m]) = start_ids log.
Proof.
  intros E. unfold start_ids. rewrite flat_map_app. cbn. rewrite E. cbn.
  apply app_nil_r.
Qed.

Lemma ids_inv_same s s' : ids_view s' = ids_view s -> ids_inv s -> ids_inv s'.
Proof.
  unfold ids_view, ids_inv, progress_ids. intros [= -> -> ->]. auto.
Qed.

Lemma ids_inv_one_more s s' : one_more s s' -> ids_inv s -> ids_inv s'.
Proof.
  unfold one_more, ids_view, ids_inv, progress_ids. intros [= -> -> ->] [N F].
  rewrite app_assoc. split.
  - apply NoDup_app. split; [exact N|]. split; [|apply NoDup_singleton].
    intros ID Hin Hnew. apply list_elem_of_singleton in Hnew. subst ID.
    rewrite List.Forall_forall in F. apply list_elem_of_In in Hin.
    destruct (F _ Hin) as (n & E & Hn). apply Z_to_string_inj in E. lia.
  - apply Forall_app. split.
    + eapply List.Forall_impl; [|exact F]. intros ID (n & E & Hn). exists n. split; [exact E | lia].
    + constructor; [|constructor]. exists (_progressId s). split; [reflexivity | lia].
Qed.

(** Proves that a state that is given by setters and sends has the same
    view as the state that the hypothesis is about. *)
Ltac same_view H :=
  unfold ids_view in *; cbn; rewrite ?start_ids_snoc by reflexivity; exact H.

Lemma view_convertFromRuntime l s v s' :
  convertFromRuntime l s = (v, s') -> ids_view s' = ids_view s.
Proof.
  intros E. unfold ids_view.
  destruct (convertFromRuntime_frame _ _ _ _ E) as (_ & T & P).
  rewrite (convertFromRuntime_toClient _ _ _ _ E), T, P. reflexivity.
Qed.

Lemma view_evaluateRequest_repl e s reply s' :
  evaluateRequest_repl e s = (reply, s') -> ids_view s' = ids_view s \/ one_more s s'.
Proof.
  unfold evaluateRequest_repl. intros E.
  result_cases; simplify_eq; try (left; reflexivity);
    try (left; same_view (eq_refl (ids_view s))).
  right. unfold one_more, ids_view, progressSequence, timeout. cbn.
  unfold begin_ids. rewrite flat_map_app. reflexivity.
Qed.

Lemma view_sendResponse r s : ids_view (sendResponse r s) = ids_view s.
Proof. same_view (eq_refl (ids_view s)). Qed.

Lemma view_sendErrorResponse r m s : ids_view (sendErrorResponse r m s) = ids_view s.
Proof. same_view (eq_refl (ids_view s)). Qed.

Lemma one_more_then s s1 s2 : one_more s s1 -> ids_view s2 = ids_view s1 -> one_more s s2.
Proof. unfold one_more. congruence. Qed.

Lemma view_evaluateRequest r args s :
  ids_view (evaluateRequest r args s) = ids_view s \/ one_more s (evaluateRequest r args s).
Proof.
  unfold evaluateRequest.
  destruct (match ev_context args with
            | Some context =>
                if String.eqb context "repl"
                then evaluateRequest_repl (ev_expression args) s
                else (None, s)
            | None => (None, s)
            end) as [reply s1] eqn:E1.
  assert (H1 : ids_view s1 = ids_view s \/ one_more s s1).
  { destruct (ev_context args) as [context|]; [|injection E1 as <- <-; auto].
    destruct (String.eqb context "repl"); [|injection E1 as <- <-; auto].
    exact (view_evaluateRequest_repl _ _ _ _ E1). }
  assert (H : forall s2, ids_view s2 = ids_view s1 ->
                         ids_view s2 = ids_view s \/ one_more s s2).
  { intros s2 E. destruct H1 as [H1 | H1]; [left; congruence | right].
    exact (one_more_then _ _ _ H1 E). }
  apply H.
  destruct (startsWith "$" (ev_expression args)).
  - destruct (getLocalVariable _ _) as [l|].
    + destruct (convertFromRuntime l s1) as [v s2] eqn:E2.
      rewrite view_sendResponse. exact (view_convertFromRuntime _ _ _ _ E2).
    + apply view_sendResponse.
  - destruct (alloc _ s1) as [l s2] eqn:A. unfold alloc in A. injection A as <- <-.
    destruct (convertFromRuntime _ _) as [v s3] eqn:E2.
    rewrite view_sendResponse, (view_convertFromRuntime _ _ _ _ E2). reflexivity.
Qed.

Lemma view_launchRequest_resume k s : ids_view (launchRequest_resume k s) = ids_view s.
Proof.
  unfold launchRequest_resume, sendRingRdbDapMessage.
  destruct (ringRdbProcess s); same_view (eq_refl (ids_view s)).
Qed.

Lemma view_dispatchRequest seq r s :
  ids_view (dispatchRequest seq r s) = ids_view s \/ one_more s (dispatchRequest seq r s).
Proof.
  destruct r as [args| | |args|args|args| |args|args|args|args|args|args|args
                |args|args|args|args|args|cmd];
    cbn [dispatchRequest]; try apply view_evaluateRequest; left.
  - unfold initializeRequest.
    destruct (linesStartAt1 args), (supportsProgressReporting args),
      (supportsInvalidatedEvent args); same_view (eq_refl (ids_view s)).
  - unfold configurationDoneRequest.
    destruct (Subject_notify _) as [[k|] sub]; [rewrite view_launchRequest_resume|];
      same_view (eq_refl (ids_view s)).
  - reflexivity.
  - reflexivity.
  - reflexivity.
  - unfold setBreakPointsRequest, sendRingRdbDapMessage. destruct (ringRdbProcess s); reflexivity.
  - unfold threadsRequest, sendRingRdbDapMessage. destruct (ringRdbProcess s); reflexivity.
  - unfold stackTraceRequest, sendRingRdbDapMessage. destruct (ringRdbProcess s); reflexivity.
  - unfold scopesRequest, sendRingRdbDapMessage. destruct (ringRdbProcess s); reflexivity.
  - unfold variablesRequest, sendRingRdbDapMessage. destruct (ringRdbProcess s); reflexivity.
  - unfold continueRequest, sendRingRdbDapMessage. destruct (ringRdbProcess s); reflexivity.
  - unfold nextRequest, sendRingRdbDapMessage. destruct (ringRdbProcess s); reflexivity.
  - unfold stepInRequest, sendRingRdbDapMessage. destruct (ringRdbProcess s); reflexivity.
  - unfold stepOutRequest, sendRingRdbDapMessage. destruct (ringRdbProcess s); reflexivity.
  - unfold readMemoryRequest. destruct (attached_memory _ s); apply view_sendResponse.
  - unfold setVariableRequest. destruct (named_variable args s) as [l|].
    + destruct (convertFromRuntime l _) as [v s1] eqn:E.
      rewrite view_sendResponse.
      pose proof (view_convertFromRuntime _ _ _ _ E) as H.
      destruct (memory_and_reference (deref s1 l)) as [[len ref]|]; same_view H.
    + apply view_sendResponse.
  - unfold setExpressionRequest. destruct (startsWith "$" (se_expression args)).
    + destruct (getLocalVariable _ _) as [l|].
      * destruct (convertFromRuntime l _) as [v s1] eqn:E.
        rewrite view_sendResponse. exact (view_convertFromRuntime _ _ _ _ E).
      * apply view_sendErrorResponse.
    + apply view_sendErrorResponse.
  - unfold cancelRequest.
    destruct (requestId args) as [n|]; [destruct (n =? 0)|];
      (destruct (progressId args) as [p|]; [destruct (String.eqb p EmptyString)|]);
      reflexivity.
  - unfold customRequest. destruct (String.eqb cmd "toggleFormatting").
    + destruct (_useInvalidatedEvent (with_valuesInHex _ s)); same_view (eq_refl (ids_view s)).
    + apply view_sendErrorResponse.
Qed.

Lemma view_handleRingRdbDapMessage data s :
  ids_view (snd (handleRingRdbDapMessage data s)) = ids_view s.
Proof.
  unfold handleRingRdbDapMessage. generalize (Js.split LF data). intros lines.
  revert s. induction lines as [|line rest IH]; intros s; cbn [handle_lines]; [reflexivity|].
  destruct (0 <? str_length line); [|apply IH].
  assert (H : ids_view (snd (handleRingRdbDapOneMessage line s)) = ids_view s).
  { unfold handleRingRdbDapOneMessage.
    repeat match goal with
      | |- context [match ?e with _ => _ end] => destruct e
      end; cbn [snd]; same_view (eq_refl (ids_view s)). }
  destruct (handleRingRdbDapOneMessage line s) as [[|e] s1]; cbn [snd] in *.
  - rewrite IH. exact H.
  - exact H.
Qed.

(** Without a timer, the ids about to start are those of the others. *)
Lemma begin_ids_delete ts n t :
  ts !! n = Some t ->
  begin_ids ts ≡ₚ (begin_id t ++ begin_ids (delete n ts))%list.
Proof.
  revert n. induction ts as [|a rest IH]; intros [|n] E; try discriminate E.
  - injection E as ->. reflexivity.
  - cbn [delete list_delete].
    change (begin_ids (a :: rest)) with (begin_id a ++ begin_ids rest)%list.
    change (begin_ids (a :: delete n rest)) with (begin_id a ++ begin_ids (delete n rest))%list.
    rewrite (IH n E). rewrite !app_assoc. apply Permutation_app_tail, Permutation_app_comm.
Qed.

Lemma ids_inv_run_task n t s :
  timers s !! n = Some t -> ids_inv s ->
  ids_inv (run_task (task t) (with_timers (delete n (timers s)) s)).
Proof.
  intros E [N F]. pose proof (begin_ids_delete _ _ _ E) as D.
  assert (V : ids_view (run_task (task t) (with_timers (delete n (timers s)) s))
               = ((start_ids (toClient s) ++ begin_id t)%list,
                  begin_ids (delete n (timers s)), _progressId s)).
  { unfold begin_id. destruct (task t) as [ID|ID i]; cbn [run_task].
    - unfold progressSequence_loop. change (0 <? 100) with true. cbv iota.
      unfold ids_view, timeout. cbn. rewrite !start_ids_snoc by reflexivity.
      unfold start_ids, begin_ids. rewrite !flat_map_app. cbn. rewrite !app_nil_r.
      reflexivity.
    - unfold progressSequence_loop, progressSequence_end, timeout, ids_view.
      repeat match goal with
        | |- context [match ?e with _ => _ end] => destruct e
        | |- context [if ?e then _ else _] => destruct e
        end; cbn; rewrite ?start_ids_snoc by reflexivity;
        unfold begin_ids; rewrite ?flat_map_app; cbn; rewrite ?app_nil_r; reflexivity. }
  unfold ids_view in V. injection V as V1 V2 V3.
  unfold ids_inv, progress_ids. rewrite V1, V2, V3.
  assert (P : ((start_ids (toClient s) ++ begin_id t) ++ begin_ids (delete n (timers s)))%list
              ≡ₚ progress_ids s).
  { unfold progress_ids. rewrite <- app_assoc. apply Permutation_app_head. symmetry. exact D. }
  split.
  - rewrite P. exact N.
  - rewrite P. exact F.
Qed.

Lemma ids_inv_step i s s' : ids_inv s -> step i s = Some s' -> ids_inv s'.
Proof.
  intros I. destruct i as [seq r|data|data|exit|n|n|t]; cbn [step].
  - intros [= <-]. destruct (view_dispatchRequest seq r s) as [H | H].
    + exact (ids_inv_same _ _ H I).
    + exact (ids_inv_one_more _ _ H I).
  - intros [= <-]. exact (ids_inv_same _ _ (view_handleRingRdbDapMessage data s) I).
  - intros [= <-]. apply (ids_inv_same s); [|exact I].
    unfold onStdoutData. same_view (eq_refl (ids_view s)).
  - intros [= <-]. apply (ids_inv_same s); [|exact I].
    unfold onClose. destruct (code_is_not_zero exit); same_view (eq_refl (ids_view s)).
  - destruct (waiters (_configurationDone s) !! n) as [w|]; [|discriminate].
    destruct (deadline w <=? now s); [|discriminate].
    intros [= <-]. apply (ids_inv_same s); [|exact I].
    rewrite view_launchRequest_resume. reflexivity.
  - destruct (timers s !! n) as [k|] eqn:E; [|discriminate].
    destruct (due k <=? now s); [|discriminate].
    intros [= <-]. exact (ids_inv_run_task _ _ _ E I).
  - destruct ((now s <=? t) && forallb (fun d => t <=? d) (pending s)); [|discriminate].
    intros [= <-]. exact (ids_inv_same s _ eq_refl I).
Qed.

Lemma ids_inv_run inputs s s' : ids_inv s -> run inputs s = Some s' -> ids_inv s'.
Proof.
  revert s. induction inputs as [|i rest IH]; intros s I; cbn [run].
  - intros [= <-]. exact I.
  - destruct (step i s) as [s1|] eqn:E; [|discriminate].
    apply IH. exact (ids_inv_step _ _ _ I E).
Qed.

End ProgressIds.

(** X24.  The ids of the progress sequences are unique.  Whatever happens
    to a session in which the ids given out so far are different texts of
    numbers below the counter, as in a new session, they stay so: no two
    start events that the client gets carry the same id, and no sequence
    that is about to start has the id of one that has started. *)
Theorem progress_ids_are_unique (inputs : list Input) (s s' : Session) :
  ids_inv s ->
  run inputs s = Some s' ->
  NoDup (start_ids (toClient s')) /\
  NoDup (start_ids (toClient s') ++ begin_ids (timers s')) /\
  Forall (numbered (_progressId s')) (start_ids (toClient s')).
Proof.
  intros I H. destruct (ids_inv_run _ _ _ I H) as [N F]. unfold progress_ids in *.
  split; [|split].
  - apply NoDup_app in N as (N & _). exact N.
  - exact N.
  - apply Forall_app in F as [F _]. exact F.
Qed.

Lemma progress_ids_are_unique_witness :
  exists s',
    run [FromClient 1 (Initialize (mkInitializeArguments true false None));
         FromClient 2 (Evaluate (mkEvaluateArguments "progress" (Some "repl")));
         FromClient 3 (Evaluate (mkEvaluateArguments "progress" (Some "repl")));
         TimePasses 100; TimerFires 0; TimerFires 0] newSession = Some s' /\
    start_ids (toClient s') = ["10000"; "10001"] /\
    NoDup (start_ids (toClient s')).
Proof.
  eexists. split; [vm_compute; reflexivity|]. split; [vm_compute; reflexivity|].
  apply (progress_ids_are_unique
           [FromClient 1 (Initialize (mkInitializeArguments true false None));
            FromClient 2 (Evaluate (mkEvaluateArguments "progress" (Some "repl")));
            FromClient 3 (Evaluate (mkEvaluateArguments "progress" (Some "repl")));
            TimePasses 100; TimerFires 0; TimerFires 0] newSession).
  - split; constructor.
  - vm_compute; reflexivity.
Defined.

(** ** Disassembled instructions *)

Section Disassembly.

(** The line of the last of the instructions that has one; [lastLine] when
    there is none. *)
Definition line_after (lastLine : Z) (instructions : list RuntimeInstruction) : Z :=
  fold_left (fun last i => default last (ri_line i)) instructions lastLine.

Lemma disassembled_line s isHex pad loc lastLine i :
  fst (disassembled s isHex pad loc lastLine i) = default lastLine (ri_line i).
Proof.
  unfold disassembled. destruct (ri_line i) as [l|]; [|reflexivity].
  destruct (lastLine =? l) eqn:E; [|reflexivity].
  apply Z.eqb_eq in E. exact E.
Qed.

Lemma disassembled_all_lookup s isHex pad loc instructions :
  forall lastLine k i,
    instructions !! k = Some i ->
    disassembled_all s isHex pad loc lastLine instructions !! k
      = Some (snd (disassembled s isHex pad loc
                     (line_after lastLine (take k instructions)) i)).
Proof.
  induction instructions as [|a rest IH]; intros lastLine k i E; [discriminate E|].
  cbn [disassembled_all].
  pose proof (disassembled_line s isHex pad loc lastLine a) as L.
  destruct (disassembled s isHex pad loc lastLine a) as [last' d] eqn:D. cbn [fst] in L.
  destruct k as [|k].
  - injection E as <-. cbn [take line_after fold_left]. rewrite D. reflexivity.
  - change ((a :: rest) !! S k) with (rest !! k) in E.
    change ((d :: disassembled_all s isHex pad loc last' rest) !! S k)
      with (disassembled_all s isHex pad loc last' rest !! k).
    rewrite (IH last' k i E). cbn [take line_after fold_left]. rewrite L. reflexivity.
Qed.

(** The digits of a number, after zeros, have the value of the number. *)
Lemma digits_value_zeros n text : digits_value (zeros n +:+ text) = digits_value text.
Proof. induction n as [|n IH]; [reflexivity | exact IH]. Qed.

Lemma digits_value_Z_to_string z : 0 <= z -> digits_value (Z_to_string z) = z.
Proof.
  intros Hz. destruct z as [|p|p]; [reflexivity | | lia].
  rewrite Z_to_string_pos, digits_value_uint, DecimalPos.Unsigned.of_to. reflexivity.
Qed.

Lemma length_zeros n : String.length (zeros n) = n.
Proof. induction n as [|n IH]; [reflexivity | cbn; f_equal; exact IH]. Qed.

Lemma length_append a b : String.length (a +:+ b) = (String.length a + String.length b)%nat.
Proof.
  induction a as [|c r IH]; [reflexivity|].
  change (String c r +:+ b) with (String c (r +:+ b)). cbn [String.length].
  rewrite IH. reflexivity.
Qed.

End Disassembly.

(** X25.  In the response to [disassemble], an instruction has its source
    and its line exactly when the runtime gives it a line and this line is
    not the line of the nearest instruction before it that has one (-1
    stands for the line before the first): of instructions of one line
    that follow each other, only the first names the source.  The text of
    every instruction is kept. *)
Theorem source_is_given_once_per_line (memoryReference : string)
    (instructions : list RuntimeInstruction) (s : Session) (k : nat)
    (i : RuntimeInstruction) :
  instructions !! k = Some i ->
  exists d,
    disassembleRequest_instructions memoryReference instructions s !! k = Some d /\
    di_instruction d = ri_instruction i /\
    match ri_line i with
    | Some line =>
        if line_after (-1) (take k instructions) =? line
        then di_location d = None /\ di_line d = None
        else di_location d = Some (createSource (sourceFile (_runtime s))) /\
             di_line d = Some (convertDebuggerLineToClient s line)
    | None => di_location d = None /\ di_line d = None
    end.
Proof.
  intros E. unfold disassembleRequest_instructions.
  rewrite (disassembled_all_lookup _ _ _ _ _ _ _ _ E). eexists. split; [reflexivity|].
  unfold disassembled. destruct (ri_line i) as [line|]; [|auto].
  destruct (line_after (-1) (take k instructions) =? line); auto.
Qed.

Lemma source_is_given_once_per_line_witness :
  let instructions :=
    [mkRuntimeInstruction 16 "push" (Some 3); mkRuntimeInstruction 17 "add" (Some 3);
     mkRuntimeInstruction 18 "nop" None; mkRuntimeInstruction 19 "pop" (Some 4)] in
  map di_line (disassembleRequest_instructions "mem0x0010" instructions newSession)
    = [Some 4; None; None; Some 5] /\
  map di_address (disassembleRequest_instructions "mem0x0010" instructions newSession)
    = ["0x0010"; "0x0011"; "0x0012"; "0x0013"] /\
  exists d,
    disassembleRequest_instructions "mem0x0010" instructions newSession !! 1%nat = Some d /\
    di_location d = None.
Proof.
  cbv zeta. split; [reflexivity|]. split; [reflexivity|].
  destruct (source_is_given_once_per_line "mem0x0010"
              [mkRuntimeInstruction 16 "push" (Some 3); mkRuntimeInstruction 17 "add" (Some 3);
               mkRuntimeInstruction 18 "nop" None; mkRuntimeInstruction 19 "pop" (Some 4)]
              newSession 1 (mkRuntimeInstruction 17 "add" (Some 3)) eq_refl)
    as (d & E & _ & H).
  exists d. split; [exact E | exact (proj1 H)].
Defined.

(** X26.  For a memory reference in decimal, the address of a disassembled
    instruction is the address that the runtime gives: a minus sign for a
    negative address, and then digits whose value is the absolute value of
    the address, filled up with zeros in front to the number of
    characters that the reference has after its first three. *)
Theorem decimal_address_is_kept (memoryReference : string)
    (instructions : list RuntimeInstruction) (s : Session) (k : nat)
    (i : RuntimeInstruction) :
  startsWith "0x" (substr_from 3 memoryReference) = false ->
  instructions !! k = Some i ->
  exists d digits,
    disassembleRequest_instructions memoryReference instructions s !! k = Some d /\
    di_address d = (if ri_address i <? 0 then "-" else EmptyString) +:+ digits /\
    digits_value digits = Z.abs (ri_address i) /\
    str_length digits
      = Z.max (str_length (substr_from 3 memoryReference))
          (str_length (Z_to_string (Z.abs (ri_address i)))).
Proof.
  intros Hd E. unfold disassembleRequest_instructions.
  rewrite (disassembled_all_lookup _ _ _ _ _ _ _ _ E), Hd.
  set (pad := str_length (substr_from 3 memoryReference)).
  set (text := Z_to_string (Z.abs (ri_address i))).
  exists (snd (disassembled s false pad (createSource (sourceFile (_runtime s)))
                 (line_after (-1) (take k instructions)) i)),
         (padStart0 pad text).
  split; [reflexivity|]. split.
  - unfold disassembled. cbn [toString]. change (10 =? 16) with false. cbv iota.
    fold text. destruct (ri_line i) as [line|]; [|reflexivity].
    destruct (line_after (-1) (take k instructions) =? line); reflexivity.
  - unfold padStart0. split.
    + rewrite digits_value_zeros. apply digits_value_Z_to_string. lia.
    + unfold str_length. rewrite length_append, length_zeros. unfold str_length in pad. lia.
Qed.

Lemma decimal_address_is_kept_witness :
  map di_address
    (disassembleRequest_instructions "mem0010"
       [mkRuntimeInstruction 7 "push" None; mkRuntimeInstruction (-12345) "pop" None]
       newSession)
    = ["0007"; "-12345"] /\
  exists d digits,
    disassembleRequest_instructions "mem0010"
      [mkRuntimeInstruction 7 "push" None; mkRuntimeInstruction (-12345) "pop" None]
      newSession !! 0%nat = Some d /\
    di_address d = digits /\ digits_value digits = 7 /\ str_length digits = 4.
Proof.
  split; [reflexivity|].
  destruct (decimal_address_is_kept "mem0010"
              [mkRuntimeInstruction 7 "push" None; mkRuntimeInstruction (-12345) "pop" None]
              newSession 0 (mkRuntimeInstruction 7 "push" None) eq_refl eq_refl)
    as (d & digits & E & A & V & L).
  exists d, digits. split; [exact E|]. split; [exact A|]. split; [exact V | exact L].
Defined.

(** ** The exceptions of the handler of a line *)

(** The messages on which [handleRingRdbDapOneMessage] fails: [null], and
    the event [exited] without a body or with the body [null]. *)
Definition raises (msg : json) : Prop :=
  msg = JNull \/
  (prop_of msg "type" = Some (JString "event") /\
   prop_of msg "event" = Some (JString "exited") /\
   (prop_of msg "body" = None \/ prop_of msg "body" = Some JNull)).

(** X27.  The exceptions that can leave [handleRingRdbDapOneMessage] are
    these and no others: a [SyntaxError] for a line that is no JSON text,
    and a [TypeError] for the line [null] and for an [exited] event
    without a body or with the body [null].  Every other line is handled
    without an exception, whatever its properties are. *)
Theorem exceptions_of_a_line (line : string) (e : Error) (s : Session) :
  fst (handleRingRdbDapOneMessage line s) = Threw e <->
  (parse line = None /\ e = SyntaxError) \/
  (exists msg, parse line = Some msg /\ raises msg /\ e = TypeError).
Proof.
  unfold handleRingRdbDapOneMessage. split.
  - destruct (parse line) as [msg|] eqn:P; [|intros [= <-]; auto].
    intros H. right. exists msg. split; [reflexivity|].
    destruct (prop msg "type") as [err|type] eqn:T.
    { destruct msg; try discriminate T. injection T as <-. cbn in H.
      injection H as <-. split; [left; reflexivity | reflexivity]. }
    apply prop_inr in T.
    destruct (is_string type "event") eqn:Ev.
    2: { destruct (is_string type "response");
           [repeat match type of H with
              | context [if ?c then _ else _] => destruct c
              end|]; discriminate H. }
    apply is_string_true in Ev. rewrite Ev in T. clear Ev type.
    destruct (prop_of_object _ _ _ T) as [fields ->].
    destruct (is_string (prop_of (JObject fields) "event") "terminated");
      [discriminate H|].
    destruct (is_string (prop_of (JObject fields) "event") "exited") eqn:Ex.
    2: { destruct (is_string (prop_of (JObject fields) "event") "stopped");
           discriminate H. }
    apply is_string_true in Ex. fold (seq0 (JObject fields)) in H.
    assert (B : prop (seq0 (JObject fields)) "body"
                = inr (prop_of (JObject fields) "body")).
    { rewrite <- (seq0_other (JObject fields) "body") by discriminate. reflexivity. }
    rewrite B in H.
    destruct (prop_of (JObject fields) "body") as [body|] eqn:Hb.
    + destruct (prop body "exitCode") as [err|code] eqn:C; [|discriminate H].
      destruct body; try discriminate C. injection C as <-. cbn in H. injection H as <-.
      split; [|reflexivity]. right. auto.
    + cbn in H. injection H as <-. split; [|reflexivity]. right. auto.
  - intros [[-> ->] | (msg & -> & R & ->)]; [reflexivity|].
    destruct R as [-> | (T & Ex & B)]; [reflexivity|].
    rewrite (prop_of_prop _ _ _ T), Ex. fold (seq0 msg).
    cbn [is_string String.eqb Ascii.eqb Bool.eqb].
    destruct (prop_of_object _ _ _ T) as [fields ->].
    assert (Hb : prop (seq0 (JObject fields)) "body"
                 = inr (prop_of (JObject fields) "body")).
    { rewrite <- (seq0_other (JObject fields) "body") by discriminate. reflexivity. }
    rewrite Hb. destruct B as [-> | ->]; reflexivity.
Qed.

(** ** The echo of [evaluate] *)

Section Echo.

Lemma shown_no_dollar s x :
  _valuesInHex s = false -> writable x -> startsWith "$" (shown s x) = false.
Proof.
  intros Hhex Hw.
  destruct x as [[]|[z|m k|[]]|text|children]; cbn [shown is_integral];
    unfold formatNumber; rewrite ?Hhex; try contradiction; try reflexivity.
  cbn [toString]. change (10 =? 16) with false. cbv iota.
  destruct z as [|p|p]; [reflexivity | | rewrite Z_to_string_neg; reflexivity].
  rewrite Z_to_string_pos. pose proof (DecimalPos.Unsigned.to_uint_nonnil p) as N.
  destruct (Pos.to_uint p); [contradiction|..]; reflexivity.
Qed.

(** The type that [convertFromRuntime] gives for a value. *)
Definition shown_type (x : IRuntimeVariableType) : string :=
  match x with
  | VNumber n => if is_integral n then "integer" else "float"
  | _ => typeof x
  end.

(** The session after [new RuntimeVariable('eval', x)]. *)
Definition with_eval (x : IRuntimeVariableType) (s : Session) : Session :=
  snd (alloc (newRuntimeVariable "eval" x) s).

Lemma evaluate_literal response expression context s :
  context <> Some "repl" ->
  startsWith "$" expression = false ->
  writable (convertToRuntime expression) ->
  let x := convertToRuntime expression in
  evaluateRequest response (mkEvaluateArguments expression context) s
    = sendResponse
        (with_body (EvaluateBody (shown s x) (Some (shown_type x)) 0 None) response)
        (with_eval x s).
Proof.
  intros Hc Hd Hw. cbv zeta. unfold evaluateRequest. cbn [ev_expression ev_context].
  assert (C : match context with
              | Some context0 =>
                  if String.eqb context0 "repl" then evaluateRequest_repl expression s
                  else (None, s)
              | None => (None, s)
              end = (None, s)).
  { destruct context as [c|]; [|reflexivity].
    destruct (String.eqb c "repl") eqn:Ec; [|reflexivity].
    apply String.eqb_eq in Ec. subst c. contradiction. }
  rewrite C, Hd. unfold with_eval, alloc. cbn [snd].
  set (x := convertToRuntime expression) in *.
  set (s0 := with_nextLoc _ _).
  assert (D : deref s0 (nextLoc s) = newRuntimeVariable "eval" x).
  { unfold deref. subst s0. cbn. rewrite lookup_insert_eq. reflexivity. }
  unfold convertFromRuntime. rewrite D. cbn [newRuntimeVariable name value memory].
  change (includes "lazy" "eval") with false. cbv iota.
  destruct x as [[]|[z|m k|[]]|text|children]; try contradiction; reflexivity.
Qed.

End Echo.

(** X28.  Outside the debug console, the echo of [evaluate] is stable while
    numbers are shown in decimal: for an expression without a dollar sign
    at its start that stands for a boolean, a string, a whole number or an
    infinity, the response has the text and the type of the value, and an
    [evaluate] of this text is answered with the same text and the same
    type. *)
Theorem evaluate_echo_is_stable (r1 r2 : Response) (expression : string)
    (context : option string) (s : Session) :
  context <> Some "repl" ->
  startsWith "$" expression = false ->
  _valuesInHex s = false ->
  writable (convertToRuntime expression) ->
  let x := convertToRuntime expression in
  let echo response :=
    SendResponse (with_body (EvaluateBody (shown s x) (Some (shown_type x)) 0 None) response) in
  let s1 := evaluateRequest r1 (mkEvaluateArguments expression context) s in
  toClient s1 = (toClient s ++ [echo r1])%list /\
  toClient (evaluateRequest r2 (mkEvaluateArguments (shown s x) context) s1)
    = (toClient s1 ++ [echo r2])%list.
Proof.
  intros Hc Hd Hhex Hw. cbv zeta.
  rewrite (evaluate_literal r1 expression context s Hc Hd Hw).
  split; [reflexivity|].
  set (x := convertToRuntime expression) in *.
  set (s1 := sendResponse _ _).
  assert (Hhex1 : _valuesInHex s1 = false) by exact Hhex.
  assert (E : convertToRuntime (shown s x) = x) by (apply convertToRuntime_shown; assumption).
  rewrite (evaluate_literal r2 (shown s x) context s1 Hc).
  - rewrite E. unfold shown at 1.
    replace (shown s1 x) with (shown s x); [reflexivity|].
    unfold shown, formatNumber. rewrite Hhex, Hhex1. reflexivity.
  - apply shown_no_dollar; assumption.
  - rewrite E. exact Hw.
Qed.

Lemma evaluate_echo_is_stable_witness :
  let s1 := evaluateRequest (newResponse 1 "evaluate")
              (mkEvaluateArguments " 'ring' " (Some "hover")) newSession in
  toClient s1
    = [SendResponse
         (with_body (EvaluateBody (in_quotes "ring") (Some "string") 0 None)
            (newResponse 1 "evaluate"))] /\
  toClient (evaluateRequest (newResponse 2 "evaluate")
              (mkEvaluateArguments (in_quotes "ring") (Some "hover")) s1)
    = (toClient s1
       ++ [SendResponse
             (with_body (EvaluateBody (in_quotes "ring") (Some "string") 0 None)
                (newResponse 2 "evaluate"))])%list.
Proof.
  cbv zeta.
  exact (evaluate_echo_is_stable (newResponse 1 "evaluate") (newResponse 2 "evaluate")
           " 'ring' " (Some "hover") newSession ltac:(discriminate) eq_refl eq_refl Logic.I).
Defined.

(** ** Data breakpoints *)

(** X29.  The answer to [dataBreakpointInfo] does not depend on the
    session.  Since no handle ever stands for the global variables, the
    branch for them is never taken: whenever the request has a reference
    that is not 0 and a name that is not empty, the data can be watched for
    reading, writing and both, under the name as its id, and the breakpoint
    can persist, even when the reference is no handle at all.  Otherwise
    there is no id. *)
Theorem dataBreakpointInfo_ignores_the_handles (inputs : list Input) (s s' : Session)
    (args : DataBreakpointInfoArguments) :
  only_variables (_variableHandles s) ->
  run inputs s = Some s' ->
  dataBreakpointInfoRequest_body args s'
    = if names_data args
      then mkDataBreakpointInfo (Some (dbi_name args)) (dbi_name args)
             (Some ["read"; "write"; "readWrite"]) true
      else mkDataBreakpointInfo None "cannot break on data access" None false.
Proof.
  intros O H. pose proof (grows_variables _ _ (grows_run _ _ _ H) O) as O'.
  unfold dataBreakpointInfoRequest_body. destruct (names_data args); [|reflexivity].
  destruct (dbi_variablesReference args) as [r|]; [|reflexivity].
  cbn [Handles_get]. destruct (handleMap (_variableHandles s') !! r) as [v|] eqn:E;
    [|reflexivity].
  destruct (O' _ _ E) as [l ->]. reflexivity.
Qed.

Lemma dataBreakpointInfo_ignores_the_handles_witness :
  let s' := dispatchRequest 1 (Evaluate (mkEvaluateArguments "$text" (Some "watch")))
              session_with_locals in
  dataBreakpointInfoRequest_body (mkDataBreakpointInfoArguments (Some 1000) "text") s'
    = mkDataBreakpointInfo (Some "text") "text" (Some ["read"; "write"; "readWrite"]) true /\
  dataBreakpointInfoRequest_body (mkDataBreakpointInfoArguments (Some 77) "nobody") s'
    = mkDataBreakpointInfo (Some "nobody") "nobody" (Some ["read"; "write"; "readWrite"]) true.
Proof.
  cbv zeta. split.
  - apply (dataBreakpointInfo_ignores_the_handles
             [FromClient 1 (Evaluate (mkEvaluateArguments "$text" (Some "watch")))]
             session_with_locals _ (mkDataBreakpointInfoArguments (Some 1000) "text")).
    + intros k v E. cbn in E. rewrite lookup_empty in E. discriminate.
    + reflexivity.
  - apply (dataBreakpointInfo_ignores_the_handles
             [FromClient 1 (Evaluate (mkEvaluateArguments "$text" (Some "watch")))]
             session_with_locals _ (mkDataBreakpointInfoArguments (Some 77) "nobody")).
    + intros k v E. cbn in E. rewrite lookup_empty in E. discriminate.
    + reflexivity.
Defined.
